(** * Knowledge sync: a shallow embedding of the reconciler

    The development follows the Python sources

    - [code/src/utils/file_utils.py]  (supported-file filter),
    - [code/src/owui_api.py]          (remote client),
    - [code/src/sync_knowledge.py]    (scanner, reconciler, entry point).

    Modelling conventions.

    - Python [str] is [string]; the case functions ([lower], [capitalize])
      and the white-space test act on the ASCII range, as CPython does on
      ASCII text.  Non-ASCII case mappings are outside the model.
    - A decoded JSON body is a [json] value; a JSON object is an association
      list with first-match lookup, JSON numbers are integers.
    - A Python [dict] whose iteration order is observable ([remote_files],
      [local_files], [remote_collections]) is an association list with
      Python's assignment discipline: an existing key keeps its position.
    - Exceptions are values of [exn]; code that can raise lives in the
      monad [M], which threads the list of remote requests issued so far.
    - The remote service and [os.path.isfile] are a record of oracles
      ([world]); every theorem quantifies over all of them.
    - The platform is POSIX: [os.sep] is ["/"]. *)

From Stdlib Require Import List String Ascii ZArith NArith Bool Lia.
Import ListNotations.

Local Open Scope string_scope.
Local Open Scope list_scope.

Set Warnings "-register-all".

(* ================================================================= *)
(** ** Python strings *)

Module PyStr.

Definition is_upper (c : ascii) : bool :=
  let n := nat_of_ascii c in (65 <=? n)%nat && (n <=? 90)%nat.

Definition is_lower (c : ascii) : bool :=
  let n := nat_of_ascii c in (97 <=? n)%nat && (n <=? 122)%nat.

Definition lower_char (c : ascii) : ascii :=
  if is_upper c then ascii_of_nat (nat_of_ascii c + 32) else c.

Definition upper_char (c : ascii) : ascii :=
  if is_lower c then ascii_of_nat (nat_of_ascii c - 32) else c.

(** [str.isspace] on one ASCII character: TAB, LF, VT, FF, CR, the four
    separators FS..US, and the space. *)
Definition is_space (c : ascii) : bool :=
  let n := nat_of_ascii c in
  ((9 <=? n)%nat && (n <=? 13)%nat) || ((28 <=? n)%nat && (n <=? 32)%nat).

Fixpoint map_chars (f : ascii -> ascii) (s : string) : string :=
  match s with
  | EmptyString => EmptyString
  | String c r => String (f c) (map_chars f r)
  end.

(** [s.lower()] *)
Definition lower (s : string) : string := map_chars lower_char s.

(** [s.capitalize()] *)
Definition capitalize (s : string) : string :=
  match s with
  | EmptyString => EmptyString
  | String c r => String (upper_char c) (lower r)
  end.

(** [s.replace(a, b)] for one-character [a] and [b]. *)
Definition replace_char (a b : ascii) (s : string) : string :=
  map_chars (fun c => if Ascii.eqb c a then b else c) s.

(** [s.startswith(p)] *)
Fixpoint startswith (s p : string) : bool :=
  match p, s with
  | EmptyString, _ => true
  | String _ _, EmptyString => false
  | String a p', String b s' => Ascii.eqb a b && startswith s' p'
  end.

(** [p in s] for two strings: [p] occurs in [s]. *)
Fixpoint contains (s p : string) : bool :=
  startswith s p ||
  match s with
  | EmptyString => false
  | String _ r => contains r p
  end.

(** [sep.join(l)] *)
Fixpoint join (sep : string) (l : list string) : string :=
  match l with
  | [] => ""
  | [x] => x
  | x :: r => x ++ sep ++ join sep r
  end.

(** [s.split()] with no argument: maximal runs of non-space characters.
    [cur] is the word being read, reversed. *)
Fixpoint split_ws_aux (s : string) (cur : list ascii) : list string :=
  let flush (k : list string) :=
    match cur with
    | [] => k
    | _ => string_of_list_ascii (rev cur) :: k
    end in
  match s with
  | EmptyString => flush []
  | String c r =>
      if is_space c then flush (split_ws_aux r [])
      else split_ws_aux r (c :: cur)
  end.

Definition split_ws (s : string) : list string := split_ws_aux s [].

(** The text after the last occurrence of [sep], or the whole string when
    [sep] does not occur ([s.rsplit(sep, 1)[-1]], [os.path.basename]). *)
Fixpoint after_last (sep : ascii) (s : string) : string :=
  match s with
  | EmptyString => EmptyString
  | String c r =>
      if existsb (Ascii.eqb sep) (list_ascii_of_string r) then after_last sep r
      else if Ascii.eqb c sep then r
      else s
  end.

(** [s.rfind(c)]: the greatest index of [c] in [s], if any. *)
Fixpoint rfind (c : ascii) (s : string) : option nat :=
  match s with
  | EmptyString => None
  | String a r =>
      match rfind c r with
      | Some i => Some (S i)
      | None => if Ascii.eqb a c then Some O else None
      end
  end.

(** [s[i:]] *)
Fixpoint drop (i : nat) (s : string) : string :=
  match i, s with
  | O, _ => s
  | S i', String _ r => drop i' r
  | S _, EmptyString => EmptyString
  end.

End PyStr.

(** [os.path.basename] on POSIX. *)
Definition basename (p : string) : string := PyStr.after_last "/" p.

(* ================================================================= *)
(** ** sync_knowledge.prettify_name *)

(** [name.replace('-', ' ').replace('_', ' ')], then
    [' '.join(word.capitalize() for word in name.split())]. *)
Definition prettify_name (name : string) : string :=
  let name := PyStr.replace_char "_" " " (PyStr.replace_char "-" " " name) in
  PyStr.join " " (map PyStr.capitalize (PyStr.split_ws name)).

(* ================================================================= *)
(** ** Python values and exceptions *)

Inductive exn : Type :=
| KeyError
| TypeError
| AttributeError
| ValueError
| OSError.

Inductive result (A : Type) : Type :=
| Ok (a : A)
| Raise (e : exn).

Arguments Ok {A} a.
Arguments Raise {A} e.

Definition is_ok {A} (r : result A) : bool :=
  match r with Ok _ => true | Raise _ => false end.

(** A decoded JSON document. *)
Inductive json : Type :=
| JNull
| JBool (b : bool)
| JNum (z : Z)
| JStr (s : string)
| JList (l : list json)
| JDict (kv : list (string * json)).

(** A JSON object: what Python holds as a [dict] with [str] keys. *)
Definition obj : Type := list (string * json).

Module Py.

(** [d.get(k)] on a JSON object; [None] stands for Python's [None]. *)
Fixpoint get (k : string) (d : obj) : option json :=
  match d with
  | [] => None
  | (k', v) :: r => if String.eqb k k' then Some v else get k r
  end.

(** [k in d] on a JSON object. *)
Definition has_key (k : string) (d : obj) : bool :=
  match get k d with Some _ => true | None => false end.

(** [bool(v)] *)
Definition truthy (v : json) : bool :=
  match v with
  | JNull => false
  | JBool b => b
  | JNum z => negb (Z.eqb z 0)
  | JStr s => negb (String.eqb s "")
  | JList l => match l with [] => false | _ => true end
  | JDict d => match d with [] => false | _ => true end
  end.

(** Lists and dicts cannot be dict keys or set members. *)
Definition hashable (v : json) : bool :=
  match v with
  | JList _ | JDict _ => false
  | _ => true
  end.

(** Equality of two hashable values as dict keys: [True == 1] and
    [False == 0] in Python. *)
Definition key_eqb (a b : json) : bool :=
  match a, b with
  | JNull, JNull => true
  | JBool x, JBool y => Bool.eqb x y
  | JNum x, JNum y => Z.eqb x y
  | JBool x, JNum y | JNum y, JBool x => Z.eqb y (if x then 1 else 0)
  | JStr x, JStr y => String.eqb x y
  | _, _ => false
  end.

(** [v == s] where [v] is the outcome of a [.get] and [s] a [str]. *)
Definition eq_str (v : option json) (s : string) : bool :=
  match v with
  | Some (JStr t) => String.eqb t s
  | _ => false
  end.

(** [k in v] for a [str] [k] and an arbitrary value [v]. *)
Definition contains (k : string) (v : json) : result bool :=
  match v with
  | JDict d => Ok (has_key k d)
  | JList l => Ok (existsb (fun x => eq_str (Some x) k) l)
  | JStr s => Ok (PyStr.contains s k)
  | _ => Raise TypeError
  end.

(** [v[k]] for a [str] [k]. *)
Definition subscript (v : json) (k : string) : result json :=
  match v with
  | JDict d => match get k d with Some x => Ok x | None => Raise KeyError end
  | _ => Raise TypeError
  end.

(** The elements produced by [for x in v]. *)
Definition iter (v : json) : result (list json) :=
  match v with
  | JList l => Ok l
  | JDict d => Ok (map (fun kv => JStr (fst kv)) d)
  | JStr s => Ok (map (fun c => JStr (String c EmptyString)) (list_ascii_of_string s))
  | _ => Raise TypeError
  end.

(** A Python [dict] with observable order, keyed by hashable values. *)
Definition dict (V : Type) : Type := list (json * V).

(** [d[k] = v]: an existing key keeps its place (and its key object). *)
Fixpoint dict_set {V} (k : json) (v : V) (d : dict V) : dict V :=
  match d with
  | [] => [(k, v)]
  | (k', v') :: r =>
      if key_eqb k k' then (k', v) :: r else (k', v') :: dict_set k v r
  end.

(** [d.get(k)] *)
Fixpoint dict_get {V} (k : json) (d : dict V) : option V :=
  match d with
  | [] => None
  | (k', v) :: r => if key_eqb k k' then Some v else dict_get k r
  end.

(** [k in d] *)
Definition dict_mem {V} (k : json) (d : dict V) : bool :=
  match dict_get k d with Some _ => true | None => false end.

(** A Python [set] of hashable values: a list without repetition. *)
Definition set_add (x : json) (s : list json) : list json :=
  if existsb (key_eqb x) s then s else s ++ [x].

(** [set(l)] and [{... for ...}]: fails on the first unhashable member. *)
Fixpoint set_of_aux (l : list json) (acc : list json) : result (list json) :=
  match l with
  | [] => Ok acc
  | x :: r => if hashable x then set_of_aux r (set_add x acc) else Raise TypeError
  end.

Definition set_of (l : list json) : result (list json) := set_of_aux l [].

End Py.

(* ================================================================= *)
(** ** pathlib paths and the local file tree *)

(** A [pathlib.Path]: the anchor (["/"] or empty) and the parts below it. *)
Record Path : Type := mkPath { anchor : string; parts : list string }.

(** [str(p)] *)
Definition path_str (p : Path) : string :=
  match parts p with
  | [] => if String.eqb (anchor p) "" then "." else anchor p
  | _ => anchor p ++ PyStr.join "/" (parts p)
  end.

(** [p / name] for a single component [name]. *)
Definition path_div (p : Path) (name : string) : Path :=
  mkPath (anchor p) (parts p ++ [name]).

(** [p.name] *)
Definition path_name (p : Path) : string := last (parts p) "".

(** [p.suffix]: from the last dot of the name, unless that dot is the
    first or the last character. *)
Definition path_suffix (p : Path) : string :=
  let name := path_name p in
  match PyStr.rfind "." name with
  | Some i =>
      if (0 <? i)%nat && (i <? String.length name - 1)%nat
      then PyStr.drop i name else ""
  | None => ""
  end.

Fixpoint strip_prefix (pre l : list string) : option (list string) :=
  match pre, l with
  | [], _ => Some l
  | a :: pre', b :: l' => if String.eqb a b then strip_prefix pre' l' else None
  | _ :: _, [] => None
  end.

(** [p.relative_to(base)] *)
Definition relative_to (p base : Path) : result Path :=
  if String.eqb (anchor p) (anchor base) then
    match strip_prefix (parts base) (parts p) with
    | Some r => Ok (mkPath "" r)
    | None => Raise ValueError
    end
  else Raise ValueError.

(** What lies at a path below the scan root.  A regular file carries the
    data the scan reads: whether it can be opened, its [st_size] and its
    SHA-256 digest.  [Broken] is a name whose [stat] fails (a dangling
    link).  A directory that cannot be listed still shows as a directory
    in its parent. *)
Inductive node : Type :=
| File (readable : bool) (size : N) (digest : string)
| Broken
| Dir (listable : bool) (entries : list (string * node)).

(** [entry.is_dir()] / [item.is_dir()] *)
Definition is_dir (n : node) : bool :=
  match n with Dir _ _ => true | _ => false end.

(** [file_path.stat().st_size]; the size of a directory node does not
    matter to the scan and is taken as its number of entries. *)
Definition st_size (n : node) : result N :=
  match n with
  | File _ sz _ => Ok sz
  | Broken => Raise OSError
  | Dir _ es => Ok (N.of_nat (List.length es))
  end.

(** [os.walk(top)] with its defaults ([topdown=True], [onerror=None]):
    one [(root, filenames)] pair per directory that could be listed,
    parents first.  A directory whose listing fails yields nothing and
    raises nothing.  Each file name comes with the node it names. *)
Fixpoint walk (root : list string) (n : node)
  : list (list string * list (string * node)) :=
  match n with
  | Dir true entries =>
      (root, filter (fun e => negb (is_dir (snd e))) entries) ::
      (fix walk_dirs (es : list (string * node)) :=
         match es with
         | [] => []
         | (name, c) :: r =>
             (if is_dir c then walk (root ++ [name]) c else []) ++ walk_dirs r
         end) entries
  | _ => []
  end.

(** [base_dir.iterdir()] *)
Definition iterdir (n : node) : result (list (string * node)) :=
  match n with
  | Dir true entries => Ok entries
  | _ => Raise OSError
  end.

(* ================================================================= *)
(** ** file_utils *)

Definition SUPPORTED_EXTENSIONS : list string :=
  [ ".txt"; ".md"; ".markdown"; ".rst"; ".rtf";
    ".pdf"; ".doc"; ".docx"; ".ppt"; ".pptx"; ".xls"; ".xlsx";
    ".py"; ".js"; ".java"; ".c"; ".cpp"; ".h"; ".hpp"; ".cs"; ".php";
    ".rb"; ".go";
    ".html"; ".htm"; ".css"; ".xml"; ".json"; ".yaml"; ".yml";
    ".csv"; ".tsv" ].

Definition in_extensions (e : string) : bool :=
  existsb (String.eqb e) SUPPORTED_EXTENSIONS.

(** [is_supported_file(file_path)].  [stat] is the outcome of
    [file_path.stat().st_size]; as in the source it is looked at only
    after the name and the extension have passed. *)
Definition is_supported_file (file_path : Path) (stat : result N)
  : result bool :=
  if PyStr.startswith (path_name file_path) "." then Ok false
  else
    let extension := PyStr.lower (path_suffix file_path) in
    if negb (in_extensions extension) then Ok false
    else
      match stat with
      | Raise e => Raise e
      | Ok sz => if N.eqb sz 0 then Ok false else Ok true
      end.

(** [get_file_hash(file_path)]: opening the file may fail; the digest is
    a function of the content, kept abstract in the node. *)
Definition get_file_hash (n : node) : result string :=
  match n with
  | File true _ digest => Ok digest
  | _ => Raise OSError
  end.

(* ================================================================= *)
(** ** Remote requests, the world, the monad *)

(** What the run does that can be seen from outside: the HTTP requests
    of the client and, as a record of the reconciler's own steps, the
    entry of [sync_file] with its arguments. *)
Inductive event : Type :=
| EListCollections                                (* GET  /api/knowledge *)
| ECreateCollection (name description : string)   (* POST /api/knowledge *)
| EGetCollection (collection_id : json)           (* GET  /api/knowledge/{id} *)
| EListFiles                                      (* GET  /api/files *)
| EUpload (file_path : string)                    (* POST /api/files/upload *)
| EAttach (collection_id file_id : json)          (* POST /api/knowledge/{id}/files *)
| ESyncFile (collection_id : json) (file_path : string).

(** The outcome of [_make_request] followed by [raise_for_status] and
    [response.json()]. *)
Inductive http : Type :=
| Failed             (* a [RequestException]: transport error or bad status *)
| NotJson            (* [ValueError] from [response.json()] *)
| Body (j : json).

(** Everything outside the program.  A response may depend on all that
    was requested before. *)
Record world : Type := mkWorld {
  isfile : string -> bool;                   (* [os.path.isfile] *)
  can_open : string -> bool;                 (* [open(path, 'rb')] succeeds *)
  respond : list event -> event -> http
}.

(** Computations that may raise and that extend the trace. *)
Definition M (A : Type) : Type := list event -> result A * list event.

Definition ret {A} (a : A) : M A := fun h => (Ok a, h).

Definition bind {A B} (m : M A) (k : A -> M B) : M B :=
  fun h =>
    match m h with
    | (Ok a, h') => k a h'
    | (Raise e, h') => (Raise e, h')
    end.

Definition lift {A} (r : result A) : M A := fun h => (r, h).

Definition emit (e : event) : M unit := fun h => (Ok tt, h ++ [e]).

(** [try: m  except Exception as e: logger.error(...)] *)
Definition try_log (m : M unit) : M unit :=
  fun h =>
    match m h with
    | (Ok _, h') => (Ok tt, h')
    | (Raise _, h') => (Ok tt, h')
    end.

Declare Scope monad_scope.
Delimit Scope monad_scope with monad.
Notation "x <- m ;; k" := (bind m (fun x => k))
  (at level 61, m at next level, right associativity) : monad_scope.
Notation "m ;;; k" := (bind m (fun _ => k))
  (at level 61, right associativity) : monad_scope.
Local Open Scope monad_scope.

(** [for x in l: body(x)] *)
Fixpoint for_each {A} (body : A -> M unit) (l : list A) : M unit :=
  match l with
  | [] => ret tt
  | x :: r => body x ;;; for_each body r
  end.

(** The same for the pure fragment. *)
Definition rbind {A B} (r : result A) (k : A -> result B) : result B :=
  match r with
  | Ok a => k a
  | Raise e => Raise e
  end.

(* ================================================================= *)
(** ** owui_api.OpenWebUIClient *)

Section Client.

Variable w : world.

Definition request (e : event) : M http :=
  fun h => (Ok (respond w h e), h ++ [e]).

(** The envelope tolerated by the two listing calls: a list, or an
    object with a ['data'] member; anything else gives [[]]. *)
Definition unwrap_list (r : http) : json :=
  match r with
  | Body (JList l) => JList l
  | Body (JDict d) =>
      match Py.get "data" d with
      | Some v => v
      | None => JList []
      end
  | _ => JList []
  end.

(** A single object; every failure gives [{}]. *)
Definition unwrap_dict (r : http) : json :=
  match r with
  | Body j => j
  | _ => JDict []
  end.

Definition get_knowledge_collections : M json :=
  r <- request EListCollections ;; ret (unwrap_list r).

Definition get_knowledge_collection (collection_id : json) : M json :=
  r <- request (EGetCollection collection_id) ;; ret (unwrap_dict r).

Definition create_knowledge_collection (name description : string) : M json :=
  r <- request (ECreateCollection name description) ;; ret (unwrap_dict r).

Definition get_files : M json :=
  r <- request EListFiles ;; ret (unwrap_list r).

(** [upload_file]: an [IOError] from [open] is caught like a failed
    request, before anything is sent. *)
Definition upload_file (file_path : string) : M json :=
  if can_open w file_path then
    r <- request (EUpload file_path) ;; ret (unwrap_dict r)
  else ret (JDict []).

(** The POST that ends [add_file_to_knowledge]. *)
Definition post_attach (collection_id file_id : json) : M bool :=
  r <- request (EAttach collection_id file_id) ;;
  ret (match r with Failed => false | _ => true end).

(** [add_file_to_knowledge(collection_id, file_id_or_path)] *)
Definition add_file_to_knowledge (collection_id file_id_or_path : json)
  : M bool :=
  match file_id_or_path with
  | JStr p =>
      if isfile w p then
        file_data <- upload_file p ;;
        if negb (Py.truthy file_data) then ret false
        else
          has_id <- lift (Py.contains "id" file_data) ;;
          if negb has_id then ret false
          else
            file_id <- lift (Py.subscript file_data "id") ;;
            post_attach collection_id file_id
      else post_attach collection_id file_id_or_path
  | _ => post_attach collection_id file_id_or_path
  end.

End Client.

(* ================================================================= *)
(** ** sync_knowledge: the scanner *)

(** The value stored per local file: [{'path': ..., 'hash': ...}]. *)
Record local_info : Type := mkLocal { li_path : string; li_hash : string }.

(** A Python [dict] keyed by [str], in insertion order. *)
Fixpoint sdict_set {V} (k : string) (v : V) (d : list (string * V))
  : list (string * V) :=
  match d with
  | [] => [(k, v)]
  | (k', v') :: r =>
      if String.eqb k k' then (k', v) :: r else (k', v') :: sdict_set k v r
  end.

Definition local_files_t : Type := list (string * local_info).

(** The inner loop of [get_local_files]: the files of one directory
    [root] (given by its parts below [directory]). *)
Fixpoint scan_filenames (directory : Path) (root : list string)
    (filenames : list (string * node)) (files : local_files_t)
  : result local_files_t :=
  match filenames with
  | [] => Ok files
  | (filename, n) :: rest =>
      let file_path := mkPath (anchor directory)
                              (parts directory ++ root ++ [filename]) in
      let rel_path := mkPath "" (root ++ [filename]) in
      rbind (is_supported_file file_path (st_size n)) (fun supported =>
        if negb supported then scan_filenames directory root rest files
        else
          rbind (get_file_hash n) (fun h =>
            scan_filenames directory root rest
              (sdict_set (path_str rel_path)
                         (mkLocal (path_str file_path) h) files)))
  end.

(** The outer loop, over what [os.walk] yields. *)
Fixpoint scan_dirs (directory : Path)
    (dirs : list (list string * list (string * node))) (files : local_files_t)
  : result local_files_t :=
  match dirs with
  | [] => Ok files
  | (root, filenames) :: rest =>
      rbind (scan_filenames directory root filenames files)
            (scan_dirs directory rest)
  end.

(** [get_local_files(directory)], where [tree] is what lies at
    [directory]. *)
Definition get_local_files (directory : Path) (tree : node)
  : result local_files_t :=
  scan_dirs directory (walk [] tree) [].

(* ================================================================= *)
(** ** sync_knowledge: the remote snapshots *)

Section Reconciler.

Variable w : world.

(** The loop of [get_remote_files]: [file.get('id')] needs a dict, a
    falsy id is skipped, the id must be hashable to become a key. *)
Fixpoint index_files (files : list json) (file_dict : Py.dict obj)
  : result (Py.dict obj) :=
  match files with
  | [] => Ok file_dict
  | JDict file :: rest =>
      match Py.get "id" file with
      | Some file_id =>
          if Py.truthy file_id then
            if Py.hashable file_id
            then index_files rest (Py.dict_set file_id file file_dict)
            else Raise TypeError
          else index_files rest file_dict
      | None => index_files rest file_dict
      end
  | _ :: _ => Raise AttributeError
  end.

(** [get_remote_files(client)]: any exception gives [{}]. *)
Definition get_remote_files : M (Py.dict obj) :=
  files <- get_files w ;;
  ret (match rbind (Py.iter files) (fun l => index_files l []) with
       | Ok file_dict => file_dict
       | Raise _ => []
       end).

(** The loop of [get_remote_collections]; an exception ends the loop
    and what was collected so far is kept. *)
Fixpoint index_collections (response : list json) (collections : Py.dict json)
  : Py.dict json :=
  match response with
  | [] => collections
  | collection :: rest =>
      match Py.subscript collection "name" with
      | Ok name =>
          if Py.hashable name
          then index_collections rest (Py.dict_set name collection collections)
          else collections
      | Raise _ => collections
      end
  end.

Definition get_remote_collections : M (Py.dict json) :=
  response <- get_knowledge_collections w ;;
  ret (match Py.iter response with
       | Ok l => index_collections l []
       | Raise _ => []
       end).

(* ================================================================= *)
(** ** sync_knowledge: the reconciler *)

(** Lines 139-145 of [sync_file]: the first remote file, in the order of
    the index, whose ['filename'] or ['file_name'] is [file_name]. *)
Fixpoint find_existing (remote_files : Py.dict obj) (file_name : string)
  : option json :=
  match remote_files with
  | [] => None
  | (file_id, file_info) :: rest =>
      if Py.eq_str (Py.get "filename" file_info) file_name
         || Py.eq_str (Py.get "file_name" file_info) file_name
      then Some file_id
      else find_existing rest file_name
  end.

(** The argument [sync_file] passes to [add_file_to_knowledge]: the id
    found, when there is one and it is truthy, else the local path. *)
Definition attach_argument (existing_file_id : option json)
    (file_path : string) : json :=
  match existing_file_id with
  | Some file_id => if Py.truthy file_id then file_id else JStr file_path
  | None => JStr file_path
  end.

(** [sync_file(client, collection_id, file_path, remote_files)] *)
Definition sync_file (collection_id : json) (file_path : string)
    (remote_files : Py.dict obj) : M unit :=
  emit (ESyncFile collection_id file_path) ;;;
  let file_name := basename file_path in
  let existing_file_id := find_existing remote_files file_name in
  try_log
    (_ <- add_file_to_knowledge w collection_id
            (attach_argument existing_file_id file_path) ;;
     ret tt).

(** The comprehension [{file['id'] for file in collection_info['files']}]. *)
Fixpoint ids_of_files (files : list json) (acc : list json)
  : result (list json) :=
  match files with
  | [] => Ok acc
  | file :: rest =>
      rbind (Py.subscript file "id") (fun i =>
        if Py.hashable i then ids_of_files rest (Py.set_add i acc)
        else Raise TypeError)
  end.

(** Lines 187-192 of [sync_collection]. *)
Definition collection_file_ids (collection_info : json)
  : result (list json) :=
  rbind (Py.contains "files" collection_info) (fun has_files =>
    if has_files then
      rbind (Py.subscript collection_info "files") (fun files =>
      rbind (Py.iter files) (fun l => ids_of_files l []))
    else
      rbind (Py.contains "data" collection_info) (fun has_data =>
        if has_data then
          rbind (Py.subscript collection_info "data") (fun data =>
          rbind (Py.contains "file_ids" data) (fun has_ids =>
            if has_ids then
              rbind (Py.subscript data "file_ids") (fun v =>
              rbind (Py.iter v) Py.set_of)
            else Ok []))
        else Ok [])).

(** Lines 195-202: the local files whose relative path starts with the
    collection directory's relative path followed by [os.sep]. *)
Definition collection_prefix (base_dir collection_dir : Path) : result string :=
  rbind (relative_to collection_dir base_dir) (fun rel =>
    Ok (path_str rel ++ "/")%string).

Definition select_local_files (prefix : string) (local_files : local_files_t)
  : local_files_t :=
  filter (fun kv => PyStr.startswith (fst kv) prefix) local_files.

Definition auto_description (collection_dir : Path) : string :=
  "Auto-created by sync script from " ++ path_name collection_dir.

(** [sync_collection].  The dict [remote_collections] is shared with the
    caller and updated in place; here the updated dict is returned. *)
Definition sync_collection (collection_name : string)
    (local_files : local_files_t) (remote_files : Py.dict obj)
    (remote_collections : Py.dict json)
    (base_dir collection_dir : Path) : M (Py.dict json) :=
  remote_collections <-
    (if negb (Py.dict_mem (JStr collection_name) remote_collections) then
       collection <- create_knowledge_collection w collection_name
                       (auto_description collection_dir) ;;
       ret (Py.dict_set (JStr collection_name) collection remote_collections)
     else ret remote_collections) ;;
  collection <- lift (match Py.dict_get (JStr collection_name) remote_collections with
                      | Some c => Ok c
                      | None => Raise KeyError
                      end) ;;
  collection_id <- lift (Py.subscript collection "id") ;;
  collection_info <- get_knowledge_collection w collection_id ;;
  _ <- lift (collection_file_ids collection_info) ;;
  prefix <- lift (collection_prefix base_dir collection_dir) ;;
  for_each (fun kv => sync_file collection_id (li_path (snd kv)) remote_files)
           (select_local_files prefix local_files) ;;;
  ret remote_collections.

(** The loop of [sync_knowledge] over [base_dir.iterdir()]. *)
Fixpoint sync_items (items : list (string * node))
    (local_files : local_files_t) (remote_files : Py.dict obj)
    (remote_collections : Py.dict json) (base_dir : Path) : M unit :=
  match items with
  | [] => ret tt
  | (name, n) :: rest =>
      if is_dir n then
        remote_collections <-
          sync_collection (prettify_name name) local_files remote_files
                          remote_collections base_dir (path_div base_dir name) ;;
        sync_items rest local_files remote_files remote_collections base_dir
      else sync_items rest local_files remote_files remote_collections base_dir
  end.

(** [sync_knowledge(client, base_dir)], where [tree] lies at [base_dir]. *)
Definition sync_knowledge (base_dir : Path) (tree : node) : M unit :=
  local_files <- lift (get_local_files base_dir tree) ;;
  remote_files <- get_remote_files ;;
  remote_collections <- get_remote_collections ;;
  items <- lift (iterdir tree) ;;
  sync_items items local_files remote_files remote_collections base_dir.

End Reconciler.

(* ================================================================= *)
(** ** sync_knowledge: the entry point *)

(** What [OpenWebUIClient(...)] in [main] needs from the loaded config:
    the three subscripts, a truthy [base_url] (else [ValueError]), and a
    [base_url] with [str] methods. *)
Definition client_init (config : json) : result unit :=
  rbind (Py.subscript config "base_url") (fun base_url =>
  rbind (Py.subscript config "api_key") (fun _ =>
  rbind (Py.subscript config "jwt_token") (fun _ =>
    if negb (Py.truthy base_url) then Raise ValueError
    else match base_url with
         | JStr _ => Ok tt
         | _ => Raise AttributeError
         end))).

(** [main()] after argument parsing, as the exit status of the process
    and the trace.  [config] is [None] when the file cannot be read or
    decoded; [at_base] is what lies at [--base-dir], if anything.  An
    exception that reaches the top ends the process with status 1. *)
Definition main (w : world) (config : option json) (base_dir : Path)
    (at_base : option node) : Z * list event :=
  match config with
  | None => (1%Z, [])
  | Some c =>
      match client_init c with
      | Raise _ => (1%Z, [])
      | Ok _ =>
          match at_base with
          | Some (Dir l es) =>
              match sync_knowledge w base_dir (Dir l es) [] with
              | (Ok _, h) => (0%Z, h)
              | (Raise _, h) => (1%Z, h)
              end
          | _ => (1%Z, [])
          end
      end
  end.

(* ================================================================= *)
(** ** Definitions used to state the properties *)

(** An in-memory remote service, used to run the reconciler on concrete
    inputs: a collection exists once it was created, a file once it was
    uploaded; ids are derived from names. *)
Definition demo_collection (name : string) : json :=
  JDict [("id", JStr ("c-" ++ name)); ("name", JStr name)].

Definition demo_file (file_path : string) : json :=
  JDict [("id", JStr ("f-" ++ basename file_path));
         ("filename", JStr (basename file_path))].

Fixpoint demo_collections (h : list event) : list json :=
  match h with
  | [] => []
  | ECreateCollection name _ :: r => demo_collection name :: demo_collections r
  | _ :: r => demo_collections r
  end.

Fixpoint demo_files (h : list event) : list json :=
  match h with
  | [] => []
  | EUpload p :: r => demo_file p :: demo_files r
  | _ :: r => demo_files r
  end.

Definition demo_respond (h : list event) (e : event) : http :=
  match e with
  | EListCollections => Body (JList (demo_collections h))
  | EListFiles => Body (JList (demo_files h))
  | ECreateCollection name _ => Body (demo_collection name)
  | EGetCollection cid => Body (JDict [("id", cid); ("files", JList [])])
  | EUpload p => Body (demo_file p)
  | EAttach _ _ => Body (JDict [])
  | ESyncFile _ _ => Failed
  end.

(** Local files are the absolute paths. *)
Definition demo_world : world :=
  mkWorld (fun p => PyStr.startswith p "/") (fun _ => true) demo_respond.

Definition demo_base : Path := mkPath "/" ["kb"].

Definition demo_tree : node :=
  Dir true
    [ ("career-data", Dir true [("resume.pdf", File true 10 "d1")]);
      ("career_data", Dir true [("notes.txt", File true 5 "d2")]) ].

(** The entries of a ['files'] list are objects, each with an ['id']. *)
Definition entries_ids (files ids : list json) : Prop :=
  Forall2 (fun f i => exists o, f = JDict o /\ Py.get "id" o = Some i) files ids.

(** [s] holds exactly the members of [l], as a Python set would. *)
Definition is_set_of (s l : list json) : Prop :=
  forall x, existsb (Py.key_eqb x) s = existsb (Py.key_eqb x) l.

(** Induction on the file tree, with the hypothesis on every entry of a
    directory. *)
Section NodeInduction.

Variable P : node -> Prop.
Hypothesis HFile : forall r sz d, P (File r sz d).
Hypothesis HBroken : P Broken.
Hypothesis HDir :
  forall l es, Forall (fun e => P (snd e)) es -> P (Dir l es).

Fixpoint node_induction (n : node) : P n :=
  match n with
  | File r sz d => HFile r sz d
  | Broken => HBroken
  | Dir l es =>
      HDir l es
        ((fix entries (es : list (string * node))
            : Forall (fun e => P (snd e)) es :=
            match es with
            | [] => Forall_nil _
            | (name, c) :: r =>
                Forall_cons (name, c) (node_induction c) (entries r)
            end) es)
  end.

End NodeInduction.

(** The recursive part of [walk]: the walks of the sub-directories. *)
Definition walk_dirs (root : list string) (es : list (string * node))
  : list (list string * list (string * node)) :=
  flat_map (fun e => if is_dir (snd e) then walk (root ++ [fst e]) (snd e)
                     else []) es.

(** Some directory met by the walk cannot be listed: [os.scandir] fails
    there. *)
Fixpoint has_walk_error (n : node) : bool :=
  match n with
  | Dir false _ => true
  | Dir true es =>
      (fix any (es : list (string * node)) : bool :=
         match es with
         | [] => false
         | (_, c) :: r => has_walk_error c || any r
         end) es
  | _ => false
  end.

(** The tree with every directory that cannot be listed emptied. *)
Fixpoint prune (n : node) : node :=
  match n with
  | Dir true es =>
      Dir true
        ((fix entries (es : list (string * node)) : list (string * node) :=
            match es with
            | [] => []
            | (name, c) :: r => (name, prune c) :: entries r
            end) es)
  | Dir false _ => Dir true []
  | other => other
  end.

(** The reading under which a walk error is fatal to the scan. *)
Definition walk_errors_fatal : Prop :=
  forall (directory : Path) (tree : node),
    has_walk_error tree = true ->
    exists e, get_local_files directory tree = Raise e.

Definition locked_tree : node :=
  Dir true
    [ ("a.txt", File true 3 "h1");
      ("locked", Dir false [("b.txt", File true 4 "h2")]) ].

(** [m] only adds events to the trace, and each added event is in [E]. *)
Definition emits_only {A} (m : M A) (E : event -> Prop) : Prop :=
  forall h, exists new, snd (m h) = h ++ new /\ Forall E new.

(** [m] never raises. *)
Definition never_raises {A} (m : M A) : Prop :=
  forall h, exists a, fst (m h) = Ok a.

(** The match on ['filename'] alone. *)
Fixpoint find_by_filename (remote_files : Py.dict obj) (file_name : string)
  : option json :=
  match remote_files with
  | [] => None
  | (file_id, file_info) :: rest =>
      if Py.eq_str (Py.get "filename" file_info) file_name
      then Some file_id
      else find_by_filename rest file_name
  end.

(** The reading under which a local file with no remote file of that
    ['filename'] is uploaded. *)
Definition unmatched_filename_uploads : Prop :=
  forall (w : world) (collection_id : json) (file_path : string)
         (remote_files : Py.dict obj) (h : list event),
    find_by_filename remote_files (basename file_path) = None ->
    isfile w file_path = true ->
    can_open w file_path = true ->
    In (EUpload file_path)
       (snd (sync_file w collection_id file_path remote_files h)).

(** A remote file that carries its name under ['file_name']. *)
Definition legacy_remote_files : Py.dict obj :=
  [ (JStr "f1", [("id", JStr "f1"); ("file_name", JStr "notes.txt")]) ].

(** Every key of the index is truthy, as [get_remote_files] leaves it. *)
Definition truthy_keys (remote_files : Py.dict obj) : Prop :=
  Forall (fun kv => Py.truthy (fst kv) = true) remote_files.

(** [fid] is not a string naming a local file. *)
Definition not_a_local_file (w : world) (fid : json) : Prop :=
  forall s, fid = JStr s -> isfile w s = false.

(** The demo service, except that creating a collection fails. *)
Definition no_create_world : world :=
  mkWorld (isfile demo_world) (can_open demo_world)
    (fun h e =>
       match e with
       | ECreateCollection _ _ => Failed
       | _ => demo_respond h e
       end).

Definition two_dirs_tree : node :=
  Dir true
    [ ("alpha", Dir true [("a.txt", File true 3 "h1")]);
      ("beta", Dir true [("b.txt", File true 4 "h2")]) ].

Definition good_config : json :=
  JDict [ ("base_url", JStr "https://owui.example");
          ("api_key", JStr "k"); ("jwt_token", JStr "t") ].

(** Lines 177-182 of [sync_collection]: the collection is created when
    its name is not a key of [remote_collections]. *)
Definition ensure_collection (w : world) (collection_name : string)
    (collection_dir : Path) (remote_collections : Py.dict json)
  : M (Py.dict json) :=
  if negb (Py.dict_mem (JStr collection_name) remote_collections) then
    collection <- create_knowledge_collection w collection_name
                    (auto_description collection_dir) ;;
    ret (Py.dict_set (JStr collection_name) collection remote_collections)
  else ret remote_collections.

(** Lines 184-208 of [sync_collection]: the detail is fetched and the
    selected local files are synced. *)
Definition sync_existing (w : world) (collection_name : string)
    (local_files : local_files_t) (remote_files : Py.dict obj)
    (remote_collections : Py.dict json)
    (base_dir collection_dir : Path) : M (Py.dict json) :=
  collection <- lift (match Py.dict_get (JStr collection_name) remote_collections with
                      | Some c => Ok c
                      | None => Raise KeyError
                      end) ;;
  collection_id <- lift (Py.subscript collection "id") ;;
  collection_info <- get_knowledge_collection w collection_id ;;
  _ <- lift (collection_file_ids collection_info) ;;
  prefix <- lift (collection_prefix base_dir collection_dir) ;;
  for_each (fun kv => sync_file w collection_id (li_path (snd kv)) remote_files)
           (select_local_files prefix local_files) ;;;
  ret remote_collections.

Definition is_create (e : event) : bool :=
  match e with ECreateCollection _ _ => true | _ => false end.


(** The events of the per-file sync. *)
Definition is_file_event (e : event) : bool :=
  match e with
  | EUpload _ | EAttach _ _ | ESyncFile _ _ => true
  | _ => false
  end.

(** The text that [str(base_dir / rel)] puts before [str(rel)]. *)
Definition base_prefix (base : Path) : string :=
  anchor base ++
  match parts base with
  | [] => ""
  | _ => PyStr.join "/" (parts base) ++ "/"
  end.

(** Every stored path is the base prefix followed by the key. *)
Definition paths_follow_keys (base : Path) (files : local_files_t) : Prop :=
  Forall (fun kv => li_path (snd kv) = (base_prefix base ++ fst kv)%string) files.

Definition has_key {V} (k : string) (d : list (string * V)) : Prop :=
  exists v, In (k, v) d.

(** No id of the index is a string naming a local file. *)
Definition ids_not_local (w : world) (remote_files : Py.dict obj) : Prop :=
  Forall (fun kv => not_a_local_file w (fst kv)) remote_files.

(** The same for every file listing the service may answer with. *)
Definition listed_ids_not_local (w : world) : Prop :=
  forall h rf, fst (get_remote_files w h) = Ok rf -> ids_not_local w rf.

Definition root_file_tree : node :=
  Dir true
    [ ("readme.md", File true 7 "h0");
      ("docs", Dir true [("a.txt", File true 3 "h1")]) ].

(** [m] returns normally from every trace, only adds events, and the
    value and the added events satisfy [Q]. *)
Definition total {A} (m : M A) (Q : A -> list event -> Prop) : Prop :=
  forall h, exists a new, m h = (Ok a, h ++ new) /\ Q a new.

(** Every collection of the index has an ['id']. *)
Definition have_ids (remote_collections : Py.dict json) : Prop :=
  Forall (fun kv => exists cid, Py.subscript (snd kv) "id" = Ok cid)
         remote_collections.

(** The service answers every creation with an object that has an
    ['id']. *)
Definition creates_succeed (w : world) : Prop :=
  forall h name desc,
    exists cid,
      Py.subscript (unwrap_dict (respond w h (ECreateCollection name desc)))
                   "id" = Ok cid.

(** The file ids of every detail answer can be derived (a failed request
    counts: it gives [{}]). *)
Definition details_well_formed (w : world) : Prop :=
  forall h cid,
    exists ids,
      collection_file_ids (unwrap_dict (respond w h (EGetCollection cid)))
      = Ok ids.

(** Every collection of every listing has an ['id']. *)
Definition listed_collections_have_ids (w : world) : Prop :=
  forall h rc, fst (get_remote_collections w h) = Ok rc -> have_ids rc.

(** The demo service, except that the upload of [/kb/alpha/a.txt] meets a
    transport error. *)
Definition flaky_world : world :=
  mkWorld (isfile demo_world) (can_open demo_world)
    (fun h e =>
       match e with
       | EUpload p =>
           if String.eqb p "/kb/alpha/a.txt" then Failed else demo_respond h e
       | _ => demo_respond h e
       end).

Definition two_dirs_files : local_files_t :=
  [ ("alpha/a.txt", mkLocal "/kb/alpha/a.txt" "h1");
    ("beta/b.txt", mkLocal "/kb/beta/b.txt" "h2") ].

(** A property of the events added for a local file that survives when
    more events come before and after. *)
Definition extensible (L : string -> list event -> Prop) : Prop :=
  forall p a n b, L p n -> L p (a ++ n ++ b).

(** The index of remote files a run started on trace [h] works with. *)
Definition files_seen (w : world) (h : list event) : Py.dict obj :=
  match fst (get_remote_files w h) with
  | Ok rf => rf
  | Raise _ => []
  end.

(** The index of collections such a run starts with (the collections are
    listed after the files). *)
Definition collections_seen (w : world) (h : list event) : Py.dict json :=
  match fst (get_remote_collections w (h ++ [EListFiles])) with
  | Ok rc => rc
  | Raise _ => []
  end.


(** When the file is not matched in [rf] but can be read, its upload is
    among the events. *)
Definition uploaded_if_unmatched (w : world) (rf : Py.dict obj)
    (p : string) (new : list event) : Prop :=
  find_existing rf (basename p) = None ->
  isfile w p = true -> can_open w p = true -> In (EUpload p) new.


(** What the first run of the demo adds to the empty trace. *)
Definition two_dirs_first_run : list event :=
  [ EListFiles; EListCollections;
    ECreateCollection "Alpha" "Auto-created by sync script from alpha";
    EGetCollection (JStr "c-Alpha");
    ESyncFile (JStr "c-Alpha") "/kb/alpha/a.txt";
    EUpload "/kb/alpha/a.txt";
    EAttach (JStr "c-Alpha") (JStr "f-a.txt");
    ECreateCollection "Beta" "Auto-created by sync script from beta";
    EGetCollection (JStr "c-Beta");
    ESyncFile (JStr "c-Beta") "/kb/beta/b.txt";
    EUpload "/kb/beta/b.txt";
    EAttach (JStr "c-Beta") (JStr "f-b.txt") ].

(** A detail answer of a collection that has no files yet: no ['files']
    member, and a ['data'] member that is [null]. *)
Definition null_data_detail (collection_id : json) : json :=
  JDict [("id", collection_id); ("description", JStr ""); ("data", JNull)].

(** The demo service with such detail answers. *)
Definition null_data_world : world :=
  mkWorld (isfile demo_world) (can_open demo_world)
    (fun h e =>
       match e with
       | EGetCollection cid => Body (null_data_detail cid)
       | _ => demo_respond h e
       end).

(** A remote file that carries two different names. *)
Definition two_names_remote_files : Py.dict obj :=
  [ (JStr "f2", [("id", JStr "f2"); ("filename", JStr "a.txt");
                 ("file_name", JStr "b.txt")]) ].


(* ================================================================= *)
(** ** Definitions used to state further properties *)

(** [P] holds of every character of [s]. *)
Fixpoint sall (P : ascii -> bool) (s : string) : bool :=
  match s with
  | EmptyString => true
  | String c r => P c && sall P r
  end.

(** The characters [prettify_name] turns into word boundaries. *)
Definition is_separator (c : ascii) : bool :=
  Ascii.eqb c "-" || Ascii.eqb c "_" || PyStr.is_space c.

(** A word of a prettified name: not empty, no separator in it. *)
Definition clean_word (w : string) : bool :=
  negb (String.eqb w "") && sall (fun c => negb (is_separator c)) w.

(** What [split] does with the word read so far when it meets a space
    or the end. *)
Definition flush_word (cur : list ascii) (k : list string) : list string :=
  match cur with
  | [] => k
  | _ => string_of_list_ascii (rev cur) :: k
  end.

(** The two replacements of [prettify_name], on one character. *)
Definition unseparate (c : ascii) : ascii :=
  if Ascii.eqb (if Ascii.eqb c "-" then " "%char else c) "_"
  then " "%char
  else if Ascii.eqb c "-" then " "%char else c.

(** The tests of [is_supported_file] that look at the file name only:
    no leading dot, and a supported extension. *)
Definition name_passes (filename : string) : bool :=
  negb (PyStr.startswith filename ".")
  && in_extensions (PyStr.lower (path_suffix (mkPath "" [filename]))).

(** A file at which the scan stops with an error: its name passes, and
    either its size cannot be read, or it is not empty and cannot be
    opened for hashing. *)
Definition stops_scan (e : string * node) : bool :=
  name_passes (fst e)
  && match snd e with
     | Broken => true
     | File readable size _ => negb readable && negb (N.eqb size 0)
     | Dir _ _ => false
     end.

Definition scan_stops (dirs : list (list string * list (string * node)))
  : bool :=
  existsb (fun d => existsb stops_scan (snd d)) dirs.

(** The entry the scan stores for the file [name] of the directory
    [root], and where it comes from: a readable, non-empty regular file
    with a passing name, met by the walk. *)
Definition scanned_from (directory : Path)
    (dirs : list (list string * list (string * node)))
    (kv : string * local_info) : Prop :=
  exists root fs name size digest,
    In (root, fs) dirs /\ In (name, File true size digest) fs /\
    name_passes name = true /\ size <> 0%N /\
    fst kv = path_str (mkPath "" (root ++ [name])) /\
    snd kv = mkLocal (path_str (mkPath (anchor directory)
                                       (parts directory ++ root ++ [name])))
                     digest.

(** A tree with two readable files, a hidden one and an empty one. *)
Definition mixed_tree : node :=
  Dir true [ ("docs", Dir true [ ("a.md", File true 3 "h1");
                                 (".b.md", File true 3 "h2");
                                 ("c.md", File true 0 "h3");
                                 ("d.bin", File false 9 "h4") ]);
             ("top.txt", File true 5 "h5") ].

(** An element of the file listing at which the loop of
    [get_remote_files] raises: it is no object, or its truthy ['id']
    cannot be a dict key. *)
Definition breaks_index (file : json) : bool :=
  match file with
  | JDict f =>
      match Py.get "id" f with
      | Some file_id => Py.truthy file_id && negb (Py.hashable file_id)
      | None => false
      end
  | _ => true
  end.

(** A decoded file listing from which no index can be built. *)
Definition index_lost (files : json) : bool :=
  match Py.iter files with
  | Ok l => existsb breaks_index l
  | Raise _ => true
  end.

(** A collection that can be stored under its ['name']. *)
Definition named (collection : json) : bool :=
  match Py.subscript collection "name" with
  | Ok name => Py.hashable name
  | Raise _ => false
  end.

(** The demo service, except that both listings hold a [null] entry
    between two good ones. *)
Definition null_entry_world : world :=
  mkWorld (isfile demo_world) (can_open demo_world)
    (fun h e =>
       match e with
       | EListFiles =>
           Body (JList [demo_file "/kb/alpha/a.txt"; JNull;
                        demo_file "/kb/beta/b.txt"])
       | EListCollections =>
           Body (JList [demo_collection "Alpha"; JNull;
                        demo_collection "Beta"])
       | _ => demo_respond h e
       end).

(** A world in which the id of a remote file is also the name of a
    local file: the relative path [notes.txt]. *)
Definition id_is_path_world : world :=
  mkWorld (fun p => String.eqb p "notes.txt" || PyStr.startswith p "/")
          (fun _ => true) demo_respond.

Definition id_is_path_files : Py.dict obj :=
  [ (JStr "notes.txt",
     [("id", JStr "notes.txt"); ("filename", JStr "a.txt")]) ].

(** The names of the collections whose creation a trace requests, in
    order. *)
Fixpoint created (trace : list event) : list string :=
  match trace with
  | [] => []
  | ECreateCollection name _ :: r => name :: created r
  | _ :: r => created r
  end.

(** The two listing requests. *)
Definition is_listing (e : event) : bool :=
  match e with
  | EListFiles | EListCollections => true
  | _ => false
  end.

(** A tree with a file that stops the scan, below two good directories. *)
Definition blocked_tree : node :=
  Dir true
    [ ("alpha", Dir true [("a.txt", File true 3 "h1")]);
      ("beta", Dir true [("b.txt", File false 4 "h2")]) ].

(** Two directories whose names give the same collection name. *)
Definition same_name_tree : node :=
  Dir true
    [ ("my-data", Dir true [("a.txt", File true 3 "h1")]);
      ("my_data", Dir true [("b.txt", File true 4 "h2")]) ].

(* ================================================================= *)
(** ** owui_api: the base URL and the domain *)

(** The text after the last occurrence of [sep] in [s], if [sep] occurs. *)
Fixpoint after_last_sub (sep s : string) : option string :=
  match s with
  | EmptyString => None
  | String _ r =>
      match after_last_sub sep r with
      | Some t => Some t
      | None =>
          if PyStr.startswith s sep
          then Some (PyStr.drop (String.length sep) s)
          else None
      end
  end.

(** [url.split('://')[-1]].  No two occurrences of this separator can
    overlap, so the last piece of the split is what follows its last
    occurrence, and the whole string when there is none. *)
Definition strip_scheme (url : string) : string :=
  match after_last_sub "://" url with
  | Some t => t
  | None => url
  end.

(** [s.split(c, 1)[0]] for a one-character [c]. *)
Fixpoint before_first (c : ascii) (s : string) : string :=
  match s with
  | EmptyString => EmptyString
  | String a r => if Ascii.eqb a c then EmptyString
                  else String a (before_first c r)
  end.

(** [OpenWebUIClient._extract_domain(url)] *)
Definition _extract_domain (url : string) : string :=
  before_first ":" (before_first "/" (strip_scheme url)).

(** [s.rstrip(c)] for a one-character [c]. *)
Fixpoint rstrip (c : ascii) (s : string) : string :=
  match s with
  | EmptyString => EmptyString
  | String a r =>
      match rstrip c r with
      | EmptyString => if Ascii.eqb a c then EmptyString else String a EmptyString
      | r' => String a r'
      end
  end.

(** The first lines of [OpenWebUIClient.__init__]: what is stored as
    [self.base_url] and [self.domain]. *)
Definition init_base_url (base_url : string) : result (string * string) :=
  if String.eqb base_url "" then Raise ValueError
  else
    let base_url :=
      if negb (PyStr.startswith base_url "http://"
               || PyStr.startswith base_url "https://")
      then ("https://" ++ base_url)%string
      else base_url in
    Ok (rstrip "/" base_url, _extract_domain base_url).

(** [n] slashes. *)
Fixpoint slashes (n : nat) : string :=
  match n with
  | O => EmptyString
  | S k => String "/" (slashes k)
  end.

(** [s.endswith(c)] for a one-character [c]. *)
Fixpoint ends_with (c : ascii) (s : string) : bool :=
  match s with
  | EmptyString => false
  | String a EmptyString => Ascii.eqb a c
  | String _ r => ends_with c r
  end.

(** A character that ends the host part of a URL. *)
Definition ends_host (c : ascii) : bool := Ascii.eqb c "/" || Ascii.eqb c ":".

(** What may follow the host: nothing, a port or a path. *)
Definition after_host (rest : string) : bool :=
  match rest with
  | EmptyString => true
  | String c _ => ends_host c
  end.

(* ================================================================= *)
(** ** owui_api: the transport under the client methods *)

Module Transport.

(** What the client reads of a [requests.Response]. *)
Record response : Type := mkResponse {
  status_code : Z;
  location : option string;      (* the [Location] header, if present *)
  body : option json             (* [None]: [response.json()] raises [ValueError] *)
}.

(** The exchanges of one [_make_request]: the request itself and the two
    GETs of [_authenticate_cloudflare_access]. *)
Inductive wire : Type :=
| WRequest      (* [session.request(method, url, **kwargs)] *)
| WToken        (* GET [https://{domain}/cdn-cgi/access/token] *)
| WCerts.       (* GET [https://{domain}/cdn-cgi/access/certs] *)

(** How a call ends: normally, with a [RequestException], or with
    another exception. *)
Inductive outcome (A : Type) : Type :=
| Done (a : A)
| RequestException
| Crash (e : exn).

Arguments Done {A} a.
Arguments RequestException {A}.
Arguments Crash {A} e.

Section Session.

(** The credentials as loaded from the config ([JNull] for [None]), and
    the network: [None] is a [RequestException] of the session.  The
    headers and cookies the session keeps only change what the network
    answers, which may depend on every earlier exchange. *)
Variables cf_client_id cf_client_secret : json.
Variable net : list wire -> wire -> option response.

(** Lines 143-154: the token of a 200 answer is stored in the session;
    only a [ValueError] is caught there. *)
Definition store_token (token_response : response) : result unit :=
  if Z.eqb (status_code token_response) 200 then
    match body token_response with
    | None => Ok tt
    | Some token_data =>
        rbind (Py.contains "token" token_data) (fun has_token =>
          if has_token
          then rbind (Py.subscript token_data "token") (fun _ => Ok tt)
          else Ok tt)
    end
  else Ok tt.

Definition _authenticate_cloudflare_access (h : list wire)
  : outcome bool * list wire :=
  if negb (Py.truthy cf_client_id) || negb (Py.truthy cf_client_secret)
  then (Done false, h)
  else
    match net h WToken with
    | None => (Done false, h ++ [WToken])
    | Some token_response =>
        match store_token token_response with
        | Raise e => (Crash e, h ++ [WToken])
        | Ok _ =>
            match net (h ++ [WToken]) WCerts with
            | None => (Done false, h ++ [WToken; WCerts])
            | Some certs_response =>
                (Done (Z.eqb (status_code token_response) 200
                       || Z.eqb (status_code certs_response) 200),
                 h ++ [WToken; WCerts])
            end
        end
    end.

(** The test of [_handle_cloudflare_redirect]. *)
Definition is_cloudflare_redirect (r : response) : bool :=
  Z.eqb (status_code r) 302
  && PyStr.contains (match location r with Some l => l | None => "" end)
                    "cloudflareaccess.com".

Definition _handle_cloudflare_redirect (r : response) (h : list wire)
  : outcome bool * list wire :=
  if is_cloudflare_redirect r then
    match _authenticate_cloudflare_access h with
    | (Done true, h') => (Done true, h')
    | (Done false, h') => (Done false, h')
    | (RequestException, h') => (RequestException, h')
    | (Crash e, h') => (Crash e, h')
    end
  else (Done false, h).

(** [_make_request]: a [RequestException] is logged and raised again. *)
Definition _make_request (h : list wire) : outcome response * list wire :=
  match net h WRequest with
  | None => (RequestException, h ++ [WRequest])
  | Some first =>
      match _handle_cloudflare_redirect first (h ++ [WRequest]) with
      | (Done true, h') =>
          match net h' WRequest with
          | None => (RequestException, h' ++ [WRequest])
          | Some retried => (Done retried, h' ++ [WRequest])
          end
      | (Done false, h') => (Done first, h')
      | (RequestException, h') => (RequestException, h')
      | (Crash e, h') => (Crash e, h')
      end
  end.

(** [response.raise_for_status()] raises an [HTTPError], which is a
    [RequestException], for the statuses 400 to 599. *)
Definition is_http_error (r : response) : bool :=
  Z.leb 400 (status_code r) && Z.ltb (status_code r) 600.

(** [get_knowledge_collection] over this transport (the pattern of
    [create_knowledge_collection] and [upload_file] as well): a
    [RequestException] and a [ValueError] give [{}]. *)
Definition get_knowledge_collection (h : list wire)
  : outcome json * list wire :=
  match _make_request h with
  | (Done r, h') =>
      if is_http_error r then (Done (JDict []), h')
      else (Done (match body r with Some j => j | None => JDict [] end), h')
  | (RequestException, h') => (Done (JDict []), h')
  | (Crash e, h') => (Crash e, h')
  end.

(** A decoded token answer on which [store_token] raises: any value
    that is no object and on which ['token' in ...] either fails or
    holds. *)
Definition breaks_token (token_data : json) : bool :=
  match token_data with
  | JDict _ => false
  | JList l => existsb (fun x => Py.eq_str (Some x) "token") l
  | JStr s => PyStr.contains s "token"
  | _ => true
  end.

(** The exchange that ends a call with a [TypeError]: a redirect to
    Cloudflare Access, credentials at hand, and a 200 answer of the
    token endpoint whose body breaks [store_token]. *)
Definition token_crash (h : list wire) : bool :=
  match net h WRequest with
  | Some first =>
      is_cloudflare_redirect first
      && (Py.truthy cf_client_id && Py.truthy cf_client_secret)
      && match net (h ++ [WRequest]) WToken with
         | Some token_response =>
             Z.eqb (status_code token_response) 200
             && match body token_response with
                | Some token_data => breaks_token token_data
                | None => false
                end
         | None => false
         end
  | None => false
  end.

End Session.

(** A network that redirects the first request to Cloudflare Access,
    answers the token endpoint with the number [1], and every other
    exchange with an empty object. *)
Definition redirecting_net (h : list wire) (e : wire) : option response :=
  match e, h with
  | WRequest, [] =>
      Some (mkResponse 302 (Some "https://team.cloudflareaccess.com/login") None)
  | WToken, _ => Some (mkResponse 200 None (Some (JNum 1)))
  | _, _ => Some (mkResponse 200 None (Some (JDict [])))
  end.

End Transport.

(* ================================================================= *)
(** ** create_config *)

(** One line of [create_config.main]:
    [config[key] = os.environ.get(variable, config[key])].  The default
    is evaluated before the environment is looked at. *)
Definition overlay (env : string -> option string) (variable key : string)
    (config : json) : result json :=
  rbind (Py.subscript config key) (fun default =>
    match config with
    | JDict d =>
        Ok (JDict (sdict_set key
                     (match env variable with
                      | Some v => JStr v
                      | None => default
                      end) d))
    | _ => Raise TypeError
    end).

(** [create_config.main()] from the decoded template to the config it
    writes; [env] is [os.environ]. *)
Definition create_config (env : string -> option string) (template : json)
  : result json :=
  rbind (overlay env "OWUI_BASE_URL" "base_url" template) (fun config =>
  rbind (overlay env "OWUI_API_KEY" "api_key" config) (fun config =>
  rbind (overlay env "OWUI_JWT_TOKEN" "jwt_token" config) (fun config =>
  rbind (overlay env "CF_ACCESS_CLIENT_ID" "cf_client_id" config) (fun config =>
  overlay env "CF_ACCESS_CLIENT_SECRET" "cf_client_secret" config)))).

(** The keys the script reads, and the variable that overrides each. *)
Definition config_keys : list string :=
  ["base_url"; "api_key"; "jwt_token"; "cf_client_id"; "cf_client_secret"].

Definition variable_of (key : string) : option string :=
  if String.eqb key "base_url" then Some "OWUI_BASE_URL"
  else if String.eqb key "api_key" then Some "OWUI_API_KEY"
  else if String.eqb key "jwt_token" then Some "OWUI_JWT_TOKEN"
  else if String.eqb key "cf_client_id" then Some "CF_ACCESS_CLIENT_ID"
  else if String.eqb key "cf_client_secret" then Some "CF_ACCESS_CLIENT_SECRET"
  else None.

(** The value the written config holds under [key]. *)
Definition overlaid (env : string -> option string) (d : obj) (key : string)
  : option json :=
  match variable_of key with
  | Some variable =>
      match env variable with
      | Some v => Some (JStr v)
      | None => Py.get key d
      end
  | None => Py.get key d
  end.

(** A template with the five keys, and an environment that sets the
    base URL only. *)
Definition demo_template : obj :=
  [ ("base_url", JStr "https://your-openwebui-instance.com");
    ("api_key", JStr "your-api-key");
    ("jwt_token", JStr "your-jwt-token");
    ("cf_client_id", JStr "");
    ("cf_client_secret", JStr "") ].

Definition demo_env (variable : string) : option string :=
  if String.eqb variable "OWUI_BASE_URL" then Some "owui.example.com"
  else None.

(* ================================================================= *)
(** ** tests/test_upload *)

Module TestUpload.

(** [main()] after argument parsing, as the exit status of the process
    and the trace.  [config] is [None] when the file cannot be read or
    decoded; [file_exists] is [os.path.exists(file_path)].  The message
    of the success branch evaluates [result['id']]; an exception that
    reaches the top ends the process with status 1. *)
Definition main (w : world) (config : option json) (file_path : string)
    (file_exists : bool) : Z * list event :=
  match config with
  | None => (1%Z, [])
  | Some c =>
      match client_init c with
      | Raise _ => (1%Z, [])
      | Ok _ =>
          if negb file_exists then (1%Z, [])
          else
            match upload_file w file_path [] with
            | (Ok result, h) =>
                if Py.truthy result then
                  match Py.contains "id" result with
                  | Ok true =>
                      match Py.subscript result "id" with
                      | Ok _ => (0%Z, h)
                      | Raise _ => (1%Z, h)
                      end
                  | Ok false => (1%Z, h)
                  | Raise _ => (1%Z, h)
                  end
                else (1%Z, h)
            | (Raise _, h) => (1%Z, h)
            end
      end
  end.

End TestUpload.

(** A file or directory name: it holds no path separator. *)
Definition slash_free (name : string) : bool :=
  sall (fun c => negb (Ascii.eqb c "/")) name.

(** The characters and strings on which this model of [str] is Python's:
    the code points below 128, one per byte. *)
Definition is_ascii_char (c : ascii) : bool := (nat_of_ascii c <? 128)%nat.

Definition is_ascii (s : string) : bool := sall is_ascii_char s.

(** The test of lines 141-142 of [sync_file] on one remote file: its
    ['filename'] or its ['file_name'] is [file_name]. *)
Definition names_file (file_info : obj) (file_name : string) : bool :=
  Py.eq_str (Py.get "filename" file_info) file_name
  || Py.eq_str (Py.get "file_name" file_info) file_name.

(** An index of four remote files: one of another name, one that
    carries its name under ['file_name'], one with two different names,
    and one of the name of the second under ['filename']. *)
Definition mixed_remote_files : Py.dict obj :=
  [ (JStr "f0", [("id", JStr "f0"); ("filename", JStr "other.txt")]);
    (JStr "f1", [("id", JStr "f1"); ("file_name", JStr "notes.txt")]);
    (JStr "f2", [("id", JStr "f2"); ("filename", JStr "a.txt");
                 ("file_name", JStr "b.txt")]);
    (JStr "f3", [("id", JStr "f3"); ("filename", JStr "notes.txt")]) ].

(** The request the per-file sync of the local file [p] sends for the
    collection [cid], given the index [rf]: the attachment of the first
    remote file that carries the basename of [p], when there is one
    (and its id is not the name of a local file); else the upload of
    [p], when it is a file that can be opened; else, [p] being no file,
    the attachment of the path as if it were an id. *)
Definition requested (w : world) (rf : Py.dict obj) (cid : json) (p : string)
    (new : list event) : Prop :=
  (forall before fid file_info after,
      rf = before ++ (fid, file_info) :: after ->
      (forall kv, In kv before -> names_file (snd kv) (basename p) = false) ->
      names_file file_info (basename p) = true ->
      not_a_local_file w fid -> In (EAttach cid fid) new)
  /\ ((forall kv, In kv rf -> names_file (snd kv) (basename p) = false) ->
      (isfile w p = true -> can_open w p = true -> In (EUpload p) new)
      /\ (isfile w p = false -> In (EAttach cid (JStr p)) new)).

(** The demo service, except that its file listing holds one remote
    file, named [a.txt], whose id is the path of the local file
    [/kb/readme.md]. *)
Definition root_id_world : world :=
  mkWorld (isfile demo_world) (can_open demo_world)
    (fun h e =>
       match e with
       | EListFiles =>
           Body (JList [JDict [("id", JStr "/kb/readme.md");
                               ("filename", JStr "a.txt")]])
       | _ => demo_respond h e
       end).





(** The demo service, except that the creation of the collection
    [Alpha] fails; every other creation succeeds. *)
Definition alpha_create_fails_world : world :=
  mkWorld (isfile demo_world) (can_open demo_world)
    (fun h e =>
       match e with
       | ECreateCollection name _ =>
           if String.eqb name "Alpha" then Failed else demo_respond h e
       | _ => demo_respond h e
       end).

(* ================================================================= *)
(** * Properties *)

(* ----------------------------------------------------------------- *)
(** ** The named examples of the specification *)

Example prettify_career_data : prettify_name "career-data" = "Career Data".
Proof. reflexivity. Qed.

Example prettify_my_folder : prettify_name "my_folder" = "My Folder".
Proof. reflexivity. Qed.

Example prettify_abc : prettify_name "ABC" = "Abc".
Proof. reflexivity. Qed.

Example basename_of_path :
  basename "/srv/kb/career-data/resume.pdf" = "resume.pdf".
Proof. reflexivity. Qed.

(* ----------------------------------------------------------------- *)
(** ** The supported-file filter *)

Lemma in_extensions_In (e : string) :
  in_extensions e = true <-> In e SUPPORTED_EXTENSIONS.
Proof.
  unfold in_extensions. rewrite existsb_exists. split.
  - intros [x [Hin Heq]]. apply String.eqb_eq in Heq. now subst.
  - intros Hin. exists e. split; [assumption | apply String.eqb_refl].
Qed.

(** C6.  [is_supported_file] answers [True] exactly when the name does not
    start with a dot, the lowercased suffix is in the allow-list and the
    size is not zero; a name starting with a dot is rejected whatever its
    extension, and so is a zero-byte file with an allowed extension. *)
Theorem is_supported_file_exactly (p : Path) (stat : result N) :
  (is_supported_file p stat = Ok true <->
     PyStr.startswith (path_name p) "." = false /\
     In (PyStr.lower (path_suffix p)) SUPPORTED_EXTENSIONS /\
     exists sz, stat = Ok sz /\ sz <> 0%N)
  /\ (PyStr.startswith (path_name p) "." = true ->
      is_supported_file p stat = Ok false)
  /\ (In (PyStr.lower (path_suffix p)) SUPPORTED_EXTENSIONS ->
      stat = Ok 0%N -> is_supported_file p stat = Ok false).
Proof.
  unfold is_supported_file.
  destruct (PyStr.startswith (path_name p) ".") eqn:Hdot.
  - split; [split | split].
    + discriminate.
    + intros [Hf _]. discriminate.
    + reflexivity.
    + reflexivity.
  - destruct (in_extensions (PyStr.lower (path_suffix p))) eqn:Hext; simpl.
    + apply in_extensions_In in Hext.
      split; [split | split].
      * destruct stat as [sz | e]; [ | discriminate].
        destruct (N.eqb sz 0) eqn:Hz; [discriminate | ].
        intros _. split; [reflexivity | split; [assumption | ]].
        exists sz. split; [reflexivity | now apply N.eqb_neq].
      * intros (_ & _ & sz & -> & Hnz).
        apply N.eqb_neq in Hnz. now rewrite Hnz.
      * discriminate.
      * intros _ ->. reflexivity.
    + assert (Hnot : ~ In (PyStr.lower (path_suffix p)) SUPPORTED_EXTENSIONS).
      { intros Hin. apply in_extensions_In in Hin. congruence. }
      split; [split | split].
      * discriminate.
      * intros (_ & Hin & _). contradiction.
      * discriminate.
      * intros Hin. contradiction.
Qed.

Lemma is_supported_file_exactly_witness :
  is_supported_file (mkPath "/" ["kb"; "Notes.TXT"]) (Ok 12%N) = Ok true
  /\ is_supported_file (mkPath "/" ["kb"; ".hidden.txt"]) (Ok 12%N) = Ok false
  /\ is_supported_file (mkPath "/" ["kb"; "empty.md"]) (Ok 0%N) = Ok false.
Proof.
  split; [ | split].
  - apply (proj1 (is_supported_file_exactly _ _)).
    split; [reflexivity | split].
    + simpl. tauto.
    + exists 12%N. split; [reflexivity | discriminate].
  - apply (proj1 (proj2 (is_supported_file_exactly _ _))). reflexivity.
  - apply (proj2 (proj2 (is_supported_file_exactly _ _))).
    + simpl. tauto.
    + reflexivity.
Defined.

(* ----------------------------------------------------------------- *)
(** ** Prettified names *)

(** C10.  [prettify_name] is not injective: ['career-data'] and
    ['career_data'], and names that differ only in letter case, get the
    same collection name; a scan root holding both [career-data] and
    [career_data] is reconciled into the single collection "Career Data":
    one creation, and the files of both directories attached to it. *)
Theorem prettify_name_not_injective :
  "career-data" <> "career_data"
  /\ prettify_name "career-data" = prettify_name "career_data"
  /\ "ABC" <> "abc"
  /\ prettify_name "ABC" = prettify_name "abc"
  /\ sync_knowledge demo_world demo_base demo_tree [] =
       (Ok tt,
        [ EListFiles; EListCollections;
          ECreateCollection "Career Data"
            "Auto-created by sync script from career-data";
          EGetCollection (JStr "c-Career Data");
          ESyncFile (JStr "c-Career Data") "/kb/career-data/resume.pdf";
          EUpload "/kb/career-data/resume.pdf";
          EAttach (JStr "c-Career Data") (JStr "f-resume.pdf");
          EGetCollection (JStr "c-Career Data");
          ESyncFile (JStr "c-Career Data") "/kb/career_data/notes.txt";
          EUpload "/kb/career_data/notes.txt";
          EAttach (JStr "c-Career Data") (JStr "f-notes.txt") ]).
Proof.
  split; [discriminate | ].
  split; [reflexivity | ].
  split; [discriminate | ].
  split; [reflexivity | ].
  vm_compute. reflexivity.
Qed.

(* ----------------------------------------------------------------- *)
(** ** Python sets of hashable values *)

Lemma key_eqb_trans (x y z : json) :
  Py.key_eqb x y = true -> Py.key_eqb y z = true -> Py.key_eqb x z = true.
Proof.
  destruct x as [ | a | a | a | a | a], y as [ | b | b | b | b | b],
           z as [ | c | c | c | c | c]; simpl; try discriminate; try tauto;
    rewrite ?Bool.eqb_true_iff, ?Z.eqb_eq, ?String.eqb_eq;
    intros H1 H2; try congruence.
  all: try (destruct a); try (destruct b); try (destruct c);
       try reflexivity; try discriminate; try lia.
Qed.

Lemma key_eqb_sym (x y : json) : Py.key_eqb x y = Py.key_eqb y x.
Proof.
  destruct x as [ | a | a | a | a | a], y as [ | b | b | b | b | b];
    simpl; try reflexivity.
  - destruct a, b; reflexivity.
  - apply Z.eqb_sym.
  - apply String.eqb_sym.
Qed.

Lemma existsb_key_eqb_app (x : json) (l1 l2 : list json) :
  existsb (Py.key_eqb x) (l1 ++ l2) =
  existsb (Py.key_eqb x) l1 || existsb (Py.key_eqb x) l2.
Proof. apply existsb_app. Qed.

Lemma set_add_members (a : json) (acc : list json) (x : json) :
  existsb (Py.key_eqb x) (Py.set_add a acc) =
  existsb (Py.key_eqb x) acc || Py.key_eqb x a.
Proof.
  unfold Py.set_add. destruct (existsb (Py.key_eqb a) acc) eqn:Hin.
  - destruct (Py.key_eqb x a) eqn:Hxa; [ | now rewrite orb_false_r].
    rewrite orb_true_r. apply existsb_exists in Hin as [y [Hy Hay]].
    apply existsb_exists. exists y. split; [assumption | ].
    now apply key_eqb_trans with a.
  - rewrite existsb_app. simpl. now rewrite orb_false_r.
Qed.

Lemma set_of_aux_members (l acc : list json) :
  Forall (fun x => Py.hashable x = true) l ->
  exists s, Py.set_of_aux l acc = Ok s /\
            forall x, existsb (Py.key_eqb x) s =
                      existsb (Py.key_eqb x) acc || existsb (Py.key_eqb x) l.
Proof.
  intros Hl. revert acc. induction Hl as [ | a l Ha _ IH]; intros acc.
  - exists acc. split; [reflexivity | ]. intros x. simpl. now rewrite orb_false_r.
  - simpl. rewrite Ha. destruct (IH (Py.set_add a acc)) as [s [Hs Hm]].
    exists s. split; [assumption | ]. intros x.
    rewrite Hm, set_add_members. now rewrite orb_assoc.
Qed.

Lemma set_of_members (l : list json) :
  Forall (fun x => Py.hashable x = true) l ->
  exists s, Py.set_of l = Ok s /\ is_set_of s l.
Proof.
  intros Hl. destruct (set_of_aux_members l [] Hl) as [s [Hs Hm]].
  exists s. split; [assumption | ]. intros x. now rewrite Hm.
Qed.

(* ----------------------------------------------------------------- *)
(** ** The file ids of a collection detail *)

Lemma ids_of_files_set_of_aux (files ids acc : list json) :
  entries_ids files ids ->
  Forall (fun x => Py.hashable x = true) ids ->
  ids_of_files files acc = Py.set_of_aux ids acc.
Proof.
  intros He. revert acc.
  induction He as [ | f i files ids (o & -> & Hid) _ IH]; intros acc Hh.
  - reflexivity.
  - inversion Hh as [ | ? ? Hi Hrest]; subst.
    simpl. rewrite Hid. simpl. rewrite Hi. now apply IH.
Qed.

(** The two shapes of a detail response [info]: with a ['files'] list,
    the set is made of the ids of its entries, whatever else the response
    holds; without ['files'] but with an object ['data'] holding
    ['file_ids'], it is made of that list; with no ['data'], or an object
    ['data'] without ['file_ids'], it is empty. *)
Lemma collection_file_ids_two_shapes (info : obj) :
  (forall files ids,
      Py.get "files" info = Some (JList files) ->
      entries_ids files ids ->
      Forall (fun x => Py.hashable x = true) ids ->
      exists s, collection_file_ids (JDict info) = Ok s /\ is_set_of s ids)
  /\ (forall data ids,
      Py.get "files" info = None ->
      Py.get "data" info = Some (JDict data) ->
      Py.get "file_ids" data = Some (JList ids) ->
      Forall (fun x => Py.hashable x = true) ids ->
      exists s, collection_file_ids (JDict info) = Ok s /\ is_set_of s ids)
  /\ (Py.get "files" info = None ->
      Py.get "data" info = None \/
      (exists data, Py.get "data" info = Some (JDict data) /\
                    Py.get "file_ids" data = None) ->
      collection_file_ids (JDict info) = Ok []).
Proof.
  split; [ | split].
  - intros files ids Hf He Hh.
    destruct (set_of_members ids Hh) as [s [Hs Hm]].
    exists s. split; [ | assumption].
    unfold collection_file_ids. simpl. unfold Py.has_key. rewrite Hf. simpl.
    rewrite (ids_of_files_set_of_aux _ _ _ He Hh). exact Hs.
  - intros data ids Hf Hd Hi Hh.
    destruct (set_of_members ids Hh) as [s [Hs Hm]].
    exists s. split; [ | assumption].
    unfold collection_file_ids. simpl. unfold Py.has_key.
    rewrite Hf, Hd. simpl. unfold Py.has_key. rewrite Hi. simpl. exact Hs.
  - intros Hf [Hd | [data [Hd Hi]]].
    + unfold collection_file_ids. simpl. unfold Py.has_key.
      now rewrite Hf, Hd.
    + unfold collection_file_ids. simpl. unfold Py.has_key.
      rewrite Hf, Hd. simpl. unfold Py.has_key. now rewrite Hi.
Qed.

Example collection_file_ids_two_shapes_example :
  (exists s,
      collection_file_ids
        (JDict [("files", JList [JDict [("id", JStr "f1")];
                                 JDict [("id", JStr "f2")];
                                 JDict [("id", JStr "f1")]]);
                ("data", JDict [("file_ids", JList [JStr "f9"])])]) = Ok s /\
      is_set_of s [JStr "f1"; JStr "f2"; JStr "f1"])
  /\ (exists s,
      collection_file_ids
        (JDict [("data", JDict [("file_ids", JList [JStr "f3"])])]) = Ok s /\
      is_set_of s [JStr "f3"])
  /\ collection_file_ids (JDict [("name", JStr "Career Data")]) = Ok [].
Proof.
  split; [ | split].
  - apply (proj1 (collection_file_ids_two_shapes _)
             [JDict [("id", JStr "f1")]; JDict [("id", JStr "f2")];
              JDict [("id", JStr "f1")]]).
    + reflexivity.
    + repeat constructor; eexists; split; reflexivity.
    + repeat constructor.
  - apply (proj1 (proj2 (collection_file_ids_two_shapes _))
             [("file_ids", JList [JStr "f3"])]).
    + reflexivity.
    + reflexivity.
    + reflexivity.
    + repeat constructor.
  - apply (proj2 (proj2 (collection_file_ids_two_shapes _))).
    + reflexivity.
    + left. reflexivity.
Defined.

(* ----------------------------------------------------------------- *)
(** ** The local scan and directories that cannot be listed *)

Lemma rbind_ext {A B} (r : result A) (k1 k2 : A -> result B) :
  (forall a, k1 a = k2 a) -> rbind r k1 = rbind r k2.
Proof. intros H. destruct r; simpl; [apply H | reflexivity]. Qed.

Lemma walk_listable (root : list string) (es : list (string * node)) :
  walk root (Dir true es) =
  (root, filter (fun e => negb (is_dir (snd e))) es) :: walk_dirs root es.
Proof.
  simpl. f_equal. unfold walk_dirs.
  induction es as [ | [name c] r IH]; simpl; [reflexivity | ].
  now rewrite IH.
Qed.

Lemma prune_listable (es : list (string * node)) :
  prune (Dir true es) = Dir true (map (fun e => (fst e, prune (snd e))) es).
Proof.
  simpl. f_equal.
  induction es as [ | [name c] r IH]; simpl; [reflexivity | ].
  now rewrite IH.
Qed.

Lemma is_dir_prune (n : node) : is_dir (prune n) = is_dir n.
Proof. destruct n as [ | | [ | ] es]; reflexivity. Qed.

Lemma prune_not_dir (n : node) : is_dir n = false -> prune n = n.
Proof. destruct n; simpl; [reflexivity | reflexivity | discriminate]. Qed.

Lemma filter_files_prune (es : list (string * node)) :
  filter (fun e => negb (is_dir (snd e)))
         (map (fun e => (fst e, prune (snd e))) es) =
  filter (fun e => negb (is_dir (snd e))) es.
Proof.
  induction es as [ | [name c] r IH]; simpl; [reflexivity | ].
  rewrite is_dir_prune. destruct (is_dir c) eqn:Hc; simpl.
  - exact IH.
  - rewrite (prune_not_dir c Hc). now rewrite IH.
Qed.

Lemma scan_dirs_app (d : Path) (l1 l2 : list (list string * list (string * node)))
    (files : local_files_t) :
  scan_dirs d (l1 ++ l2) files = rbind (scan_dirs d l1 files) (scan_dirs d l2).
Proof.
  revert files. induction l1 as [ | [root fs] r IH]; intros files; simpl.
  - reflexivity.
  - destruct (scan_filenames d root fs files) as [files' | e]; simpl.
    + apply IH.
    + reflexivity.
Qed.

Lemma scan_walk_prune (d : Path) (n : node) :
  forall root files,
    scan_dirs d (walk root (prune n)) files = scan_dirs d (walk root n) files.
Proof.
  induction n as [r sz dg | | l es IH] using node_induction; intros root files.
  - reflexivity.
  - reflexivity.
  - destruct l.
    + rewrite prune_listable, !walk_listable. simpl.
      rewrite filter_files_prune. apply rbind_ext. clear files. intros files.
      revert files. unfold walk_dirs.
      induction IH as [ | [name c] rest Hc _ IHrest]; intros files; simpl.
      * reflexivity.
      * rewrite is_dir_prune. rewrite !scan_dirs_app.
        destruct (is_dir c).
        -- simpl in Hc. rewrite Hc. apply rbind_ext. exact IHrest.
        -- simpl. apply IHrest.
    + reflexivity.
Qed.

(** C8, as the code has it.  A walk error is not fatal to the scan: a
    directory that cannot be listed is passed over without an error, and
    the scan returns what it would return if every such directory were
    empty; for a root that is missing or cannot be listed this is the
    empty mapping. *)
Theorem get_local_files_skips_unlistable (directory : Path) (tree : node) :
  get_local_files directory tree = get_local_files directory (prune tree)
  /\ (forall es, get_local_files directory (Dir false es) = Ok [])
  /\ get_local_files directory Broken = Ok [].
Proof.
  split; [ | split].
  - unfold get_local_files. symmetry. apply scan_walk_prune.
  - reflexivity.
  - reflexivity.
Qed.

(** C8, as stated, fails: below [locked_tree] the directory [locked]
    cannot be listed, and the scan returns the rest of the tree. *)
Lemma walk_error_not_fatal :
  has_walk_error locked_tree = true
  /\ get_local_files demo_base locked_tree =
       Ok [("a.txt", mkLocal "/kb/a.txt" "h1")]
  /\ ~ walk_errors_fatal.
Proof.
  split; [reflexivity | ]. split; [reflexivity | ].
  intros H. destruct (H demo_base locked_tree eq_refl) as [e He].
  discriminate He.
Qed.

(* ----------------------------------------------------------------- *)
(** ** Reasoning about traces *)

Section TraceRules.

Context {A B : Type}.
Variable E : event -> Prop.

Lemma emits_only_ret (a : A) : emits_only (ret a) E.
Proof. intros h. exists []. simpl. now rewrite app_nil_r. Qed.

Lemma emits_only_lift (r : result A) : emits_only (lift r) E.
Proof. intros h. exists []. simpl. now rewrite app_nil_r. Qed.

Lemma emits_only_bind (m : M A) (k : A -> M B) :
  emits_only m E -> (forall a, emits_only (k a) E) -> emits_only (bind m k) E.
Proof.
  intros Hm Hk h. unfold bind. destruct (Hm h) as [n1 [H1 F1]].
  destruct (m h) as [[a | e] h1]; simpl in H1; subst h1.
  - destruct (Hk a (h ++ n1)) as [n2 [H2 F2]].
    exists (n1 ++ n2). rewrite H2, app_assoc. split; [reflexivity | ].
    apply Forall_app. now split.
  - exists n1. now split.
Qed.

End TraceRules.

Lemma emits_only_bind_lift {A B} (E : event -> Prop) (r : result A)
    (k : A -> M B) :
  (forall a, r = Ok a -> emits_only (k a) E) -> emits_only (bind (lift r) k) E.
Proof.
  intros Hk h. unfold bind, lift. destruct r as [a | e].
  - now apply Hk.
  - exists []. simpl. now rewrite app_nil_r.
Qed.

Lemma emits_only_emit (E : event -> Prop) (e : event) :
  E e -> emits_only (emit e) E.
Proof. intros He h. exists [e]. split; [reflexivity | now constructor]. Qed.

Lemma emits_only_request (E : event -> Prop) (w : world) (e : event) :
  E e -> emits_only (request w e) E.
Proof. intros He h. exists [e]. split; [reflexivity | now constructor]. Qed.

Lemma emits_only_try_log (E : event -> Prop) (m : M unit) :
  emits_only m E -> emits_only (try_log m) E.
Proof.
  intros Hm h. destruct (Hm h) as [n [H F]]. exists n. split; [ | assumption].
  unfold try_log. destruct (m h) as [[u | e] h']; exact H.
Qed.

Lemma emits_only_for_each {A} (E : event -> Prop) (body : A -> M unit)
    (l : list A) :
  (forall x, In x l -> emits_only (body x) E) ->
  emits_only (for_each body l) E.
Proof.
  induction l as [ | x r IH]; intros Hb; simpl.
  - apply emits_only_ret.
  - apply emits_only_bind.
    + apply Hb. now left.
    + intros _. apply IH. intros y Hy. apply Hb. now right.
Qed.

Lemma emits_only_weaken {A} (E F : event -> Prop) (m : M A) :
  (forall e, E e -> F e) -> emits_only m E -> emits_only m F.
Proof.
  intros HEF Hm h. destruct (Hm h) as [n [H Fa]]. exists n.
  split; [assumption | ]. eapply Forall_impl; eassumption.
Qed.

Lemma never_raises_ret {A} (a : A) : never_raises (ret a).
Proof. intros h. now exists a. Qed.

Lemma never_raises_bind {A B} (m : M A) (k : A -> M B) :
  never_raises m -> (forall a, never_raises (k a)) -> never_raises (bind m k).
Proof.
  intros Hm Hk h. unfold bind. destruct (Hm h) as [a Ha].
  destruct (m h) as [[a' | e] h1]; simpl in Ha; [ | discriminate].
  apply Hk.
Qed.

Lemma never_raises_request (w : world) (e : event) : never_raises (request w e).
Proof. intros h. now eexists. Qed.

Lemma never_raises_emit (e : event) : never_raises (emit e).
Proof. intros h. now exists tt. Qed.

Lemma never_raises_try_log (m : M unit) : never_raises (try_log m).
Proof.
  intros h. exists tt. unfold try_log. now destruct (m h) as [[u | e] h'].
Qed.

Lemma never_raises_for_each {A} (body : A -> M unit) (l : list A) :
  (forall x, In x l -> never_raises (body x)) -> never_raises (for_each body l).
Proof.
  induction l as [ | x r IH]; intros Hb; simpl.
  - apply never_raises_ret.
  - apply never_raises_bind.
    + apply Hb. now left.
    + intros _. apply IH. intros y Hy. apply Hb. now right.
Qed.

(* ----------------------------------------------------------------- *)
(** ** The remote file index *)

Lemma dict_set_truthy_keys {V} (k : json) (v : V) (d : Py.dict V) :
  Py.truthy k = true ->
  Forall (fun kv => Py.truthy (fst kv) = true) d ->
  Forall (fun kv => Py.truthy (fst kv) = true) (Py.dict_set k v d).
Proof.
  intros Hk Hd. induction Hd as [ | [k' v'] r Hk' Hr IH]; simpl.
  - now repeat constructor.
  - destruct (Py.key_eqb k k'); constructor; assumption.
Qed.

Lemma index_files_truthy_keys (files : list json) (acc d : Py.dict obj) :
  truthy_keys acc -> index_files files acc = Ok d -> truthy_keys d.
Proof.
  revert acc. induction files as [ | f rest IH]; intros acc Hacc; simpl.
  - intros [= <-]. assumption.
  - destruct f as [ | | | | | file]; try discriminate.
    destruct (Py.get "id" file) as [file_id | ]; [ | now apply IH].
    destruct (Py.truthy file_id) eqn:Ht; [ | now apply IH].
    destruct (Py.hashable file_id); [ | discriminate].
    apply IH. now apply dict_set_truthy_keys.
Qed.

(** The index built by [get_remote_files] has truthy keys only. *)
Lemma get_remote_files_truthy_keys (w : world) (h : list event) :
  forall d, fst (get_remote_files w h) = Ok d -> truthy_keys d.
Proof.
  intros d. unfold get_remote_files, get_files, bind, request, ret. simpl.
  destruct (rbind (Py.iter (unwrap_list (respond w h EListFiles)))
                  (fun l => index_files l [])) as [fd | e] eqn:Hidx.
  - intros [= <-]. destruct (Py.iter _) as [l | e]; [ | discriminate].
    simpl in Hidx. eapply index_files_truthy_keys; [ | eassumption].
    constructor.
  - intros [= <-]. constructor.
Qed.

Lemma find_existing_truthy (remote_files : Py.dict obj) (name : string)
    (fid : json) :
  truthy_keys remote_files ->
  find_existing remote_files name = Some fid -> Py.truthy fid = true.
Proof.
  intros Hk. induction Hk as [ | [k v] r Hkv _ IH]; simpl; [discriminate | ].
  destruct (_ || _); [ | assumption]. now intros [= <-].
Qed.

(* ----------------------------------------------------------------- *)
(** ** add_file_to_knowledge and sync_file *)

Lemma add_by_id (w : world) (cid fid : json) (h : list event) :
  not_a_local_file w fid ->
  snd (add_file_to_knowledge w cid fid h) = h ++ [EAttach cid fid].
Proof.
  intros Hn. unfold add_file_to_knowledge.
  destruct fid as [ | b | z | s | l | d]; try reflexivity.
  now rewrite (Hn s eq_refl).
Qed.

Lemma has_id_truthy (o : obj) (fid : json) :
  Py.get "id" o = Some fid ->
  Py.truthy (JDict o) = true /\
  Py.contains "id" (JDict o) = Ok true /\
  Py.subscript (JDict o) "id" = Ok fid.
Proof.
  intros Hid. split; [ | split].
  - destruct o; [discriminate | reflexivity].
  - unfold Py.contains, Py.has_key. now rewrite Hid.
  - unfold Py.subscript. now rewrite Hid.
Qed.

Lemma add_by_path_uploaded (w : world) (cid : json) (p : string)
    (h : list event) (o : obj) (fid : json) :
  isfile w p = true -> can_open w p = true ->
  respond w h (EUpload p) = Body (JDict o) ->
  Py.get "id" o = Some fid ->
  snd (add_file_to_knowledge w cid (JStr p) h) =
  h ++ [EUpload p; EAttach cid fid].
Proof.
  intros Hf Ho Hr Hid. destruct (has_id_truthy o fid Hid) as (Ht & Hc & Hs).
  unfold add_file_to_knowledge, upload_file.
  rewrite Hf, Ho. unfold bind, request, ret, lift. rewrite Hr.
  unfold unwrap_dict. rewrite Ht, Hc, Hs. cbv beta iota.
  unfold post_attach, bind, request, ret. cbn [negb snd].
  now rewrite <- app_assoc.
Qed.

Lemma add_by_path_failed (w : world) (cid : json) (p : string)
    (h : list event) :
  isfile w p = true -> can_open w p = true ->
  respond w h (EUpload p) = Failed \/ respond w h (EUpload p) = NotJson ->
  add_file_to_knowledge w cid (JStr p) h = (Ok false, h ++ [EUpload p]).
Proof.
  intros Hf Ho Hr. unfold add_file_to_knowledge, upload_file.
  rewrite Hf, Ho. unfold bind, request, ret, lift. simpl.
  destruct Hr as [-> | ->]; reflexivity.
Qed.

Lemma sync_file_unfold (w : world) (cid : json) (p : string)
    (rf : Py.dict obj) (h : list event) :
  sync_file w cid p rf h =
  (Ok tt,
   snd (add_file_to_knowledge w cid
          (attach_argument (find_existing rf (basename p)) p)
          (h ++ [ESyncFile cid p]))).
Proof.
  unfold sync_file, bind, emit, try_log, ret.
  destruct (add_file_to_knowledge _ _ _ _) as [[b | e] h']; reflexivity.
Qed.

Lemma find_existing_first (remote_files before after : Py.dict obj)
    (fid : json) (file_info : obj) (file_name : string) :
  remote_files = before ++ (fid, file_info) :: after ->
  (forall kv, In kv before -> names_file (snd kv) file_name = false) ->
  names_file file_info file_name = true ->
  find_existing remote_files file_name = Some fid.
Proof.
  intros -> Hbefore Hhere. induction before as [ | [k v] before IH].
  - cbn [app find_existing]. unfold names_file in Hhere. now rewrite Hhere.
  - cbn [app find_existing].
    pose proof (Hbefore (k, v) (or_introl eq_refl)) as Hkv.
    unfold names_file in Hkv. cbn [snd] in Hkv. rewrite Hkv.
    apply IH. intros kv Hin. apply Hbefore. now right.
Qed.

Lemma find_existing_none (remote_files : Py.dict obj) (file_name : string) :
  (forall kv, In kv remote_files -> names_file (snd kv) file_name = false) ->
  find_existing remote_files file_name = None.
Proof.
  induction remote_files as [ | [k v] rest IH]; intros Hnone; [reflexivity | ].
  cbn [find_existing].
  pose proof (Hnone (k, v) (or_introl eq_refl)) as Hkv.
  unfold names_file in Hkv. cbn [snd] in Hkv. rewrite Hkv.
  apply IH. intros kv Hin. apply Hnone. now right.
Qed.

Lemma first_match_or_none (remote_files : Py.dict obj) (file_name : string) :
  (exists before fid file_info after,
      remote_files = before ++ (fid, file_info) :: after /\
      (forall kv, In kv before -> names_file (snd kv) file_name = false) /\
      names_file file_info file_name = true)
  \/ (forall kv, In kv remote_files -> names_file (snd kv) file_name = false).
Proof.
  induction remote_files as [ | [k v] rest IH]; [right; intros kv [] | ].
  destruct (names_file v file_name) eqn:Hv.
  - left. exists [], k, v, rest. split; [reflexivity | ].
    split; [intros kv [] | exact Hv].
  - destruct IH as [(before & fid & info & after & -> & Hb & Hi) | Hnone].
    + left. exists ((k, v) :: before), fid, info, after.
      split; [reflexivity | ]. split; [ | exact Hi].
      intros kv [<- | Hin]; [exact Hv | now apply Hb].
    + right. intros kv [<- | Hin]; [exact Hv | now apply Hnone].
Qed.

(** C1, as the code has it.  [sync_file] never raises, and it goes
    through the whole remote index, in its order, for the first file
    whose ['filename'] or ['file_name'] is the basename of the local
    file: one of the two cases below always applies.  When the index
    reads [before ++ (fid, file_info) :: after], no file of [before]
    carries the name and [file_info] does, wherever in the index that
    is, [fid] is what [find_existing] returns and what is handed to
    [add_file_to_knowledge], which only posts the attachment (the
    collection's current file ids play no part).  When no file of the
    index carries the name, the local path is handed over, and the
    client uploads the file and then attaches the id the upload
    returned, or stops after a failed upload. *)
Theorem sync_file_attaches_or_uploads (w : world) (cid : json)
    (file_path : string) (remote_files : Py.dict obj) (h : list event) :
  truthy_keys remote_files ->
  let file_name := basename file_path in
  let h0 := h ++ [ESyncFile cid file_path] in
  let h' := snd (sync_file w cid file_path remote_files h) in
  fst (sync_file w cid file_path remote_files h) = Ok tt
  /\ ((exists before fid file_info after,
          remote_files = before ++ (fid, file_info) :: after /\
          (forall kv, In kv before -> names_file (snd kv) file_name = false) /\
          names_file file_info file_name = true)
      \/ (forall kv, In kv remote_files ->
                     names_file (snd kv) file_name = false))
  /\ (forall before fid file_info after,
        remote_files = before ++ (fid, file_info) :: after ->
        (forall kv, In kv before -> names_file (snd kv) file_name = false) ->
        names_file file_info file_name = true ->
        find_existing remote_files file_name = Some fid /\
        h' = snd (add_file_to_knowledge w cid fid h0) /\
        (not_a_local_file w fid -> h' = h0 ++ [EAttach cid fid]))
  /\ ((forall kv, In kv remote_files ->
                  names_file (snd kv) file_name = false) ->
      find_existing remote_files file_name = None /\
      h' = snd (add_file_to_knowledge w cid (JStr file_path) h0) /\
      (isfile w file_path = true -> can_open w file_path = true ->
       (forall o fid,
           respond w h0 (EUpload file_path) = Body (JDict o) ->
           Py.get "id" o = Some fid ->
           h' = h0 ++ [EUpload file_path; EAttach cid fid]) /\
       (respond w h0 (EUpload file_path) = Failed \/
        respond w h0 (EUpload file_path) = NotJson ->
        h' = h0 ++ [EUpload file_path]))).
Proof.
  intros Hk file_name h0 h'. subst file_name h0 h'. rewrite sync_file_unfold.
  split; [reflexivity | ]. cbn [snd].
  split; [apply first_match_or_none | ]. split.
  - intros before fid file_info after Hsplit Hbefore Hhere.
    pose proof (find_existing_first _ _ _ _ _ _ Hsplit Hbefore Hhere) as Hfind.
    split; [exact Hfind | ]. rewrite Hfind. unfold attach_argument.
    rewrite (find_existing_truthy _ _ _ Hk Hfind).
    split; [reflexivity | ]. intros Hn. now apply add_by_id.
  - intros Hnone. pose proof (find_existing_none _ _ Hnone) as Hfind.
    split; [exact Hfind | ]. rewrite Hfind. unfold attach_argument.
    split; [reflexivity | ]. intros Hf Ho. split.
    + intros o fid Hr Hid. now apply add_by_path_uploaded with o.
    + intros Hr. now rewrite add_by_path_failed.
Qed.

Lemma sync_file_attaches_or_uploads_witness :
  sync_file demo_world (JStr "c1") "/kb/docs/notes.txt" mixed_remote_files []
  = (Ok tt, [ESyncFile (JStr "c1") "/kb/docs/notes.txt";
             EAttach (JStr "c1") (JStr "f1")])
  /\ snd (sync_file demo_world (JStr "c1") "/kb/docs/plan.md"
                    mixed_remote_files [])
     = [ESyncFile (JStr "c1") "/kb/docs/plan.md";
        EUpload "/kb/docs/plan.md";
        EAttach (JStr "c1") (JStr "f-plan.md")].
Proof.
  assert (Hk : truthy_keys mixed_remote_files) by (repeat constructor).
  split.
  - pose proof (sync_file_attaches_or_uploads demo_world (JStr "c1")
                  "/kb/docs/notes.txt" mixed_remote_files [] Hk) as H.
    cbv zeta in H. destruct H as (Hok & _ & Hmatch & _).
    destruct (Hmatch
                [(JStr "f0", [("id", JStr "f0"); ("filename", JStr "other.txt")])]
                (JStr "f1") [("id", JStr "f1"); ("file_name", JStr "notes.txt")]
                [(JStr "f2", [("id", JStr "f2"); ("filename", JStr "a.txt");
                              ("file_name", JStr "b.txt")]);
                 (JStr "f3", [("id", JStr "f3"); ("filename", JStr "notes.txt")])]
                eq_refl) as (_ & _ & Hattach).
    + intros kv [<- | []]. reflexivity.
    + reflexivity.
    + rewrite (surjective_pairing (sync_file _ _ _ _ _)), Hok, Hattach.
      * reflexivity.
      * intros s [= <-]. reflexivity.
  - pose proof (sync_file_attaches_or_uploads demo_world (JStr "c1")
                  "/kb/docs/plan.md" mixed_remote_files [] Hk) as H.
    cbv zeta in H. destruct H as (_ & _ & _ & Hnone).
    destruct Hnone as (_ & _ & Hupload).
    + intros kv [<- | [<- | [<- | [<- | []]]]]; reflexivity.
    + destruct (Hupload eq_refl eq_refl) as [H1 _].
      apply (H1 [("id", JStr "f-plan.md"); ("filename", JStr "plan.md")]);
        reflexivity.
Defined.

(** C1, as stated, fails, in an index of several files.  No remote file
    has the ['filename'] [b.txt], yet the local file of that name is not
    uploaded: it is attached under the id of the file whose
    ['file_name'] is [b.txt].  And the local [notes.txt] is attached
    under [f1], which carries the name as ['file_name'] and comes first,
    not under [f3], the one file whose ['filename'] is [notes.txt]. *)
Lemma file_name_key_also_matches :
  find_by_filename mixed_remote_files (basename "/kb/docs/b.txt") = None
  /\ sync_file demo_world (JStr "c1") "/kb/docs/b.txt" mixed_remote_files []
     = (Ok tt, [ESyncFile (JStr "c1") "/kb/docs/b.txt";
                EAttach (JStr "c1") (JStr "f2")])
  /\ find_by_filename mixed_remote_files (basename "/kb/docs/notes.txt")
     = Some (JStr "f3")
  /\ sync_file demo_world (JStr "c1") "/kb/docs/notes.txt"
               mixed_remote_files []
     = (Ok tt, [ESyncFile (JStr "c1") "/kb/docs/notes.txt";
                EAttach (JStr "c1") (JStr "f1")])
  /\ sync_file demo_world (JStr "c1") "/kb/docs/a.txt"
               two_names_remote_files []
     = (Ok tt, [ESyncFile (JStr "c1") "/kb/docs/a.txt";
                EAttach (JStr "c1") (JStr "f2")])
  /\ sync_file demo_world (JStr "c1") "/kb/docs/notes.txt"
               legacy_remote_files []
     = (Ok tt, [ESyncFile (JStr "c1") "/kb/docs/notes.txt";
                EAttach (JStr "c1") (JStr "f1")])
  /\ ~ unmatched_filename_uploads.
Proof.
  split; [reflexivity | ]. split; [reflexivity | ].
  split; [reflexivity | ]. split; [reflexivity | ].
  split; [reflexivity | ]. split; [reflexivity | ].
  intros H.
  specialize (H demo_world (JStr "c1") "/kb/docs/b.txt"
                mixed_remote_files [] eq_refl eq_refl eq_refl).
  vm_compute in H. destruct H as [H | [H | []]]; discriminate H.
Qed.

(* ----------------------------------------------------------------- *)
(** ** A failed creation ends the run *)

(** C2, on the code.  When the creation of the first collection fails,
    [create_knowledge_collection] returns [{}], the subscript ['id'] in
    [sync_collection] raises [KeyError], nothing catches it, and the run
    stops: neither the files of [alpha] nor the directory [beta] are
    processed, and the process ends with status 1. *)
Theorem failed_create_aborts_run :
  sync_knowledge no_create_world demo_base two_dirs_tree [] =
    (Raise KeyError,
     [ EListFiles; EListCollections;
       ECreateCollection "Alpha" "Auto-created by sync script from alpha" ])
  /\ fst (main no_create_world (Some good_config) demo_base
               (Some two_dirs_tree)) = 1%Z
  /\ snd (sync_knowledge demo_world demo_base two_dirs_tree []) =
     [ EListFiles; EListCollections;
       ECreateCollection "Alpha" "Auto-created by sync script from alpha";
       EGetCollection (JStr "c-Alpha");
       ESyncFile (JStr "c-Alpha") "/kb/alpha/a.txt";
       EUpload "/kb/alpha/a.txt";
       EAttach (JStr "c-Alpha") (JStr "f-a.txt");
       ECreateCollection "Beta" "Auto-created by sync script from beta";
       EGetCollection (JStr "c-Beta");
       ESyncFile (JStr "c-Beta") "/kb/beta/b.txt";
       EUpload "/kb/beta/b.txt";
       EAttach (JStr "c-Beta") (JStr "f-b.txt") ].
Proof.
  split; [vm_compute; reflexivity | ].
  split; vm_compute; reflexivity.
Qed.

(** C3, on the code.  The collection index is empty, so [Alpha] and
    [Beta] are both absent from it, and the service would create
    [Beta]; but the creation of [Alpha] fails, the run ends there with
    the [KeyError] of the subscript ['id'], and the creation of [Beta]
    is never requested: the directory [beta] is left without its
    collection, and the process ends with status 1. *)
Theorem failed_create_leaves_directory_without_collection :
  Py.dict_mem (JStr (prettify_name "beta"))
              (collections_seen alpha_create_fails_world []) = false
  /\ (forall h desc,
        respond alpha_create_fails_world h
                (ECreateCollection (prettify_name "beta") desc)
        = Body (demo_collection "Beta"))
  /\ sync_knowledge alpha_create_fails_world demo_base two_dirs_tree []
     = (Raise KeyError,
        [ EListFiles; EListCollections;
          ECreateCollection "Alpha" "Auto-created by sync script from alpha" ])
  /\ main alpha_create_fails_world (Some good_config) demo_base
          (Some two_dirs_tree)
     = (1%Z,
        [ EListFiles; EListCollections;
          ECreateCollection "Alpha" "Auto-created by sync script from alpha" ])
  /\ (forall desc,
        ~ In (ECreateCollection (prettify_name "beta") desc)
             (snd (main alpha_create_fails_world (Some good_config) demo_base
                        (Some two_dirs_tree)))).
Proof.
  split; [reflexivity | ]. split; [reflexivity | ].
  split; [vm_compute; reflexivity | ]. split; [vm_compute; reflexivity | ].
  intros desc Hin. vm_compute in Hin.
  destruct Hin as [H | [H | [H | []]]]; discriminate H.
Qed.

(* ----------------------------------------------------------------- *)
(** ** What one collection adds to the trace *)

Lemma sync_collection_split (w : world) (name : string) (lf : local_files_t)
    (rf : Py.dict obj) (rc : Py.dict json) (base cdir : Path) :
  sync_collection w name lf rf rc base cdir =
  bind (ensure_collection w name cdir rc)
       (fun rc' => sync_existing w name lf rf rc' base cdir).
Proof. reflexivity. Qed.

Lemma ensure_collection_absent (w : world) (name : string) (cdir : Path)
    (rc : Py.dict json) (h : list event) :
  Py.dict_mem (JStr name) rc = false ->
  ensure_collection w name cdir rc h =
  (Ok (Py.dict_set (JStr name)
         (unwrap_dict (respond w h (ECreateCollection name (auto_description cdir))))
         rc),
   h ++ [ECreateCollection name (auto_description cdir)]).
Proof. intros Hm. unfold ensure_collection. rewrite Hm. reflexivity. Qed.

Lemma ensure_collection_present (w : world) (name : string) (cdir : Path)
    (rc : Py.dict json) (h : list event) :
  Py.dict_mem (JStr name) rc = true ->
  ensure_collection w name cdir rc h = (Ok rc, h).
Proof. intros Hm. unfold ensure_collection. rewrite Hm. reflexivity. Qed.

Lemma add_file_emits (E : event -> Prop) (w : world) (cid arg : json) :
  (forall p, arg = JStr p -> isfile w p = true -> can_open w p = true ->
             E (EUpload p)) ->
  (forall f, E (EAttach cid f)) ->
  emits_only (add_file_to_knowledge w cid arg) E.
Proof.
  intros Hu Ha. unfold add_file_to_knowledge.
  assert (Hpost : forall f, emits_only (post_attach w cid f) E).
  { intros f. unfold post_attach. apply emits_only_bind.
    - apply emits_only_request. apply Ha.
    - intros r. apply emits_only_ret. }
  destruct arg as [ | b | z | p | l | d]; try apply Hpost.
  destruct (isfile w p) eqn:Hf; [ | apply Hpost].
  apply emits_only_bind.
  - unfold upload_file. destruct (can_open w p) eqn:Ho.
    + apply emits_only_bind.
      * apply emits_only_request. now apply Hu.
      * intros r. apply emits_only_ret.
    + apply emits_only_ret.
  - intros file_data. destruct (negb (Py.truthy file_data)).
    + apply emits_only_ret.
    + apply emits_only_bind; [apply emits_only_lift | ].
      intros has_id. destruct (negb has_id); [apply emits_only_ret | ].
      apply emits_only_bind; [apply emits_only_lift | ].
      intros f. apply Hpost.
Qed.

Lemma sync_file_emits (E : event -> Prop) (w : world) (cid : json)
    (p : string) (rf : Py.dict obj) :
  E (ESyncFile cid p) ->
  (forall q, attach_argument (find_existing rf (basename p)) p = JStr q ->
             isfile w q = true -> can_open w q = true -> E (EUpload q)) ->
  (forall f, E (EAttach cid f)) ->
  emits_only (sync_file w cid p rf) E.
Proof.
  intros Hs Hu Ha. unfold sync_file. apply emits_only_bind.
  - now apply emits_only_emit.
  - intros _. apply emits_only_try_log. apply emits_only_bind.
    + now apply add_file_emits.
    + intros b. apply emits_only_ret.
Qed.

Lemma sync_existing_emits (E : event -> Prop) (w : world) (name : string)
    (lf : local_files_t) (rf : Py.dict obj) (rc : Py.dict json)
    (base cdir : Path) :
  (forall cid, E (EGetCollection cid)) ->
  (forall cid prefix kv,
      collection_prefix base cdir = Ok prefix ->
      In kv (select_local_files prefix lf) ->
      emits_only (sync_file w cid (li_path (snd kv)) rf) E) ->
  emits_only (sync_existing w name lf rf rc base cdir) E.
Proof.
  intros Hg Hf. unfold sync_existing.
  apply emits_only_bind; [apply emits_only_lift | ]. intros collection.
  apply emits_only_bind; [apply emits_only_lift | ]. intros cid.
  apply emits_only_bind.
  { unfold get_knowledge_collection. apply emits_only_bind.
    - apply emits_only_request. apply Hg.
    - intros r. apply emits_only_ret. }
  intros info.
  apply emits_only_bind; [apply emits_only_lift | ]. intros ids.
  apply emits_only_bind_lift. intros prefix Hp.
  apply emits_only_bind; [ | intros u; apply emits_only_ret].
  apply emits_only_for_each. intros kv Hkv. now apply Hf with prefix.
Qed.

Lemma strip_prefix_app (l r : list string) : strip_prefix l (l ++ r) = Some r.
Proof.
  induction l as [ | a l IH]; simpl; [reflexivity | ].
  now rewrite String.eqb_refl.
Qed.

Lemma collection_prefix_div (base : Path) (dname : string) :
  collection_prefix base (path_div base dname) = Ok (dname ++ "/")%string.
Proof.
  unfold collection_prefix, relative_to, path_div. simpl.
  rewrite String.eqb_refl, strip_prefix_app. reflexivity.
Qed.

(** One call of [sync_collection], for a top-level directory [dname] of
    the scan root: when its prettified name is not a key of the collection index,
    [sync_collection] first asks for the creation of that collection, and
    asks for no other creation; if moreover no scanned file lies below
    the directory, nothing of the per-file sync follows (no upload, no
    attach).  When the name is a key of the index, no creation is asked
    for. *)
Theorem sync_collection_creates_iff_absent (w : world) (dname : string)
    (lf : local_files_t) (rf : Py.dict obj) (rc : Py.dict json)
    (base : Path) (h : list event) :
  let name := prettify_name dname in
  let cdir := path_div base dname in
  let h' := snd (sync_collection w name lf rf rc base cdir h) in
  (Py.dict_mem (JStr name) rc = false ->
   exists rest,
     h' = h ++ ECreateCollection name (auto_description cdir) :: rest /\
     Forall (fun e => is_create e = false) rest /\
     (select_local_files (dname ++ "/") lf = [] ->
      Forall (fun e => is_file_event e = false) rest))
  /\ (Py.dict_mem (JStr name) rc = true ->
      exists rest,
        h' = h ++ rest /\ Forall (fun e => is_create e = false) rest).
Proof.
  intros name cdir h'. subst h'.
  set (E := fun e : event =>
              is_create e = false /\
              (select_local_files (dname ++ "/") lf = [] ->
               is_file_event e = false)).
  assert (Hex : forall rc', emits_only (sync_existing w name lf rf rc' base cdir) E).
  { intros rc'. apply sync_existing_emits.
    - intros cid. split; [reflexivity | intros _; reflexivity].
    - intros cid prefix kv Hp Hkv. subst cdir.
      rewrite collection_prefix_div in Hp. injection Hp as <-.
      assert (Hne : select_local_files (dname ++ "/") lf <> []).
      { intros Hnil. rewrite Hnil in Hkv. exact Hkv. }
      apply sync_file_emits.
      + split; [reflexivity | intros Hnil; contradiction].
      + intros q _ _ _. split; [reflexivity | intros Hnil; contradiction].
      + intros f. split; [reflexivity | intros Hnil; contradiction]. }
  rewrite sync_collection_split. unfold bind. split; intros Hmem.
  - rewrite (ensure_collection_absent _ _ _ _ _ Hmem).
    match goal with |- context [sync_existing w name lf rf ?r base cdir ?s] =>
      destruct (Hex r s) as [rest [Hrest HE]] end.
    exists rest. rewrite Hrest, <- app_assoc. split; [reflexivity | ].
    split.
    + eapply Forall_impl; [ | exact HE]. intros e [He _]. exact He.
    + intros Hnil. eapply Forall_impl; [ | exact HE].
      intros e [_ He]. now apply He.
  - rewrite (ensure_collection_present _ _ _ _ _ Hmem).
    destruct (Hex rc h) as [rest [Hrest HE]].
    exists rest. split; [exact Hrest | ].
    eapply Forall_impl; [ | exact HE]. intros e [He _]. exact He.
Qed.

Lemma sync_collection_creates_iff_absent_witness :
  (exists rest,
      snd (sync_collection demo_world (prettify_name "empty-dir")
             [("docs/a.txt", mkLocal "/kb/docs/a.txt" "h1")] [] []
             demo_base (path_div demo_base "empty-dir") [])
      = [] ++ ECreateCollection "Empty Dir"
                (auto_description (path_div demo_base "empty-dir")) :: rest /\
      Forall (fun e => is_create e = false) rest /\
      (select_local_files "empty-dir/"
         [("docs/a.txt", mkLocal "/kb/docs/a.txt" "h1")] = [] ->
       Forall (fun e => is_file_event e = false) rest))
  /\ (exists rest,
      snd (sync_collection demo_world (prettify_name "docs")
             [("docs/a.txt", mkLocal "/kb/docs/a.txt" "h1")] []
             [(JStr "Docs", demo_collection "Docs")]
             demo_base (path_div demo_base "docs") [])
      = [] ++ rest /\ Forall (fun e => is_create e = false) rest).
Proof.
  split.
  - apply (proj1 (sync_collection_creates_iff_absent demo_world "empty-dir"
                    [("docs/a.txt", mkLocal "/kb/docs/a.txt" "h1")] [] []
                    demo_base [])).
    reflexivity.
  - apply (proj2 (sync_collection_creates_iff_absent demo_world "docs"
                    [("docs/a.txt", mkLocal "/kb/docs/a.txt" "h1")] []
                    [(JStr "Docs", demo_collection "Docs")] demo_base [])).
    reflexivity.
Defined.

(* ----------------------------------------------------------------- *)
(** ** Strings and paths *)

Lemma sapp_assoc (a b c : string) : ((a ++ b) ++ c = a ++ (b ++ c))%string.
Proof. induction a as [ | x a IH]; simpl; [reflexivity | now rewrite IH]. Qed.

Lemma sapp_nil_r (a : string) : (a ++ "")%string = a.
Proof. induction a as [ | x a IH]; simpl; [reflexivity | now rewrite IH]. Qed.

Lemma sapp_inj_l (a x y : string) : (a ++ x = a ++ y)%string -> x = y.
Proof.
  induction a as [ | c a IH]; simpl; [tauto | ].
  intros [= H]. now apply IH.
Qed.

Lemma join_app (a b : list string) :
  a <> [] -> b <> [] ->
  PyStr.join "/" (a ++ b) = (PyStr.join "/" a ++ "/" ++ PyStr.join "/" b)%string.
Proof.
  intros Ha Hb. induction a as [ | x a IH]; [contradiction | ].
  destruct a as [ | y a].
  - simpl. destruct b; [contradiction | reflexivity].
  - change (PyStr.join "/" ((x :: y :: a) ++ b))
      with (x ++ "/" ++ PyStr.join "/" ((y :: a) ++ b))%string.
    rewrite IH by discriminate.
    change (PyStr.join "/" (x :: y :: a))
      with (x ++ "/" ++ PyStr.join "/" (y :: a))%string.
    now rewrite !sapp_assoc.
Qed.

Lemma path_str_under (base : Path) (rel : list string) :
  rel <> [] ->
  path_str (mkPath (anchor base) (parts base ++ rel)) =
  (base_prefix base ++ PyStr.join "/" rel)%string.
Proof.
  intros Hrel. unfold path_str, base_prefix. cbn [parts anchor].
  destruct (parts base) as [ | x ps] eqn:Hp.
  - cbn [app]. rewrite sapp_nil_r. destruct rel; [contradiction | reflexivity].
  - destruct ((x :: ps) ++ rel) eqn:Happ; [discriminate | ]. rewrite <- Happ.
    rewrite join_app by (assumption || discriminate).
    now rewrite !sapp_assoc.
Qed.

Lemma path_str_rel (rel : list string) :
  rel <> [] -> path_str (mkPath "" rel) = PyStr.join "/" rel.
Proof. intros H. unfold path_str. cbn [parts anchor]. destruct rel; [contradiction | reflexivity]. Qed.

Lemma startswith_contains (s d p : string) :
  PyStr.startswith s (d ++ p) = true -> PyStr.contains s p = true.
Proof.
  revert s. induction d as [ | c d IH]; intros s H.
  - change ("" ++ p)%string with p in H.
    destruct s; cbn [PyStr.contains]; rewrite H; reflexivity.
  - destruct s as [ | c' s]; [discriminate | ].
    cbn [append PyStr.startswith] in H. apply andb_true_iff in H as [_ H].
    apply IH in H. cbn [PyStr.contains]. rewrite H. apply orb_true_r.
Qed.

(* ----------------------------------------------------------------- *)
(** ** Invariants of the local scan *)

Lemma sdict_set_forall {V} (P : string * V -> Prop) (k : string) (v : V)
    (d : list (string * V)) :
  P (k, v) -> Forall P d -> Forall P (sdict_set k v d).
Proof.
  intros Hkv Hd. induction Hd as [ | [k' v'] r Hk' Hr IH]; simpl.
  - now repeat constructor.
  - destruct (String.eqb k k') eqn:Heq.
    + apply String.eqb_eq in Heq. subst k'. now constructor.
    + now constructor.
Qed.

Lemma sdict_set_has_key {V} (k k0 : string) (v : V) (d : list (string * V)) :
  has_key k0 d \/ k0 = k -> has_key k0 (sdict_set k v d).
Proof.
  induction d as [ | [k' v'] r IH]; simpl.
  - intros [[x []] | ->]. exists v. now left.
  - destruct (String.eqb k k') eqn:Heq.
    + apply String.eqb_eq in Heq. subst k'.
      intros [[x [Hx | Hx]] | ->].
      * injection Hx as <- <-. exists v. now left.
      * exists x. now right.
      * exists v. now left.
    + intros [[x [Hx | Hx]] | ->].
      * exists x. now left.
      * destruct IH as [y Hy]; [left; now exists x | ]. exists y. now right.
      * destruct IH as [y Hy]; [now right | ]. exists y. now right.
Qed.

Lemma scan_filenames_invariants (d : Path) (root : list string)
    (fs : list (string * node)) :
  forall files files',
    scan_filenames d root fs files = Ok files' ->
    (paths_follow_keys d files -> paths_follow_keys d files')
    /\ (forall k, has_key k files -> has_key k files')
    /\ (forall fname n,
           In (fname, n) fs ->
           is_supported_file (mkPath (anchor d) (parts d ++ root ++ [fname]))
                             (st_size n) = Ok true ->
           has_key (path_str (mkPath "" (root ++ [fname]))) files').
Proof.
  induction fs as [ | [filename n0] rest IH]; intros files files' Hscan.
  - simpl in Hscan. injection Hscan as <-.
    split; [tauto | ]. split; [tauto | ]. intros fname n [].
  - simpl in Hscan.
    destruct (is_supported_file _ (st_size n0)) as [sup | e] eqn:Hsup;
      [ | discriminate].
    simpl in Hscan. destruct sup; simpl in Hscan.
    + destruct (get_file_hash n0) as [hsh | e]; [ | discriminate].
      simpl in Hscan. destruct (IH _ _ Hscan) as (I1 & I2 & I3).
      split; [ | split].
      * intros Hp. apply I1. apply sdict_set_forall; [ | assumption].
        cbn [fst snd li_path].
        rewrite path_str_rel by (now destruct root).
        apply path_str_under. now destruct root.
      * intros k Hk. apply I2. apply sdict_set_has_key. now left.
      * intros fname n [Heq | Hin] Hs.
        -- injection Heq as <- <-. apply I2. apply sdict_set_has_key. now right.
        -- now apply I3 with n.
    + destruct (IH _ _ Hscan) as (I1 & I2 & I3).
      split; [assumption | ]. split; [assumption | ].
      intros fname n [Heq | Hin] Hs.
      * injection Heq as <- <-. congruence.
      * now apply I3 with n.
Qed.

Lemma scan_dirs_invariants (d : Path)
    (dirs : list (list string * list (string * node))) :
  forall files files',
    scan_dirs d dirs files = Ok files' ->
    (paths_follow_keys d files -> paths_follow_keys d files')
    /\ (forall k, has_key k files -> has_key k files').
Proof.
  induction dirs as [ | [root fs] rest IH]; intros files files' Hscan.
  - simpl in Hscan. injection Hscan as <-. tauto.
  - simpl in Hscan.
    destruct (scan_filenames d root fs files) as [f1 | e] eqn:H1;
      [ | discriminate].
    simpl in Hscan.
    destruct (scan_filenames_invariants _ _ _ _ _ H1) as (A1 & A2 & _).
    destruct (IH _ _ Hscan) as (B1 & B2).
    split; [tauto | ]. intros k Hk. apply B2. now apply A2.
Qed.

Lemma get_local_files_paths (d : Path) (tree : node) (lf : local_files_t) :
  get_local_files d tree = Ok lf -> paths_follow_keys d lf.
Proof.
  intros H. apply (scan_dirs_invariants _ _ _ _ H). constructor.
Qed.

Lemma get_local_files_root_file (d : Path) (es : list (string * node))
    (lf : local_files_t) (fname : string) (n : node) :
  get_local_files d (Dir true es) = Ok lf ->
  In (fname, n) es -> is_dir n = false ->
  is_supported_file (path_div d fname) (st_size n) = Ok true ->
  has_key fname lf.
Proof.
  intros H Hin Hnd Hs. unfold get_local_files in H.
  rewrite walk_listable in H. simpl in H.
  destruct (scan_filenames d [] _ []) as [f1 | e] eqn:H1; [ | discriminate].
  simpl in H.
  destruct (scan_filenames_invariants _ _ _ _ _ H1) as (_ & _ & A3).
  destruct (scan_dirs_invariants _ _ _ _ H) as (_ & B2).
  apply B2. apply (A3 fname n).
  - apply filter_In. split; [assumption | ]. simpl. now rewrite Hnd.
  - exact Hs.
Qed.

(* ----------------------------------------------------------------- *)
(** ** What a whole run adds to the trace *)

Lemma ensure_collection_emits (E : event -> Prop) (w : world) (name : string)
    (cdir : Path) (rc : Py.dict json) :
  (Py.dict_mem (JStr name) rc = false ->
   E (ECreateCollection name (auto_description cdir))) ->
  emits_only (ensure_collection w name cdir rc) E.
Proof.
  intros Hc. unfold ensure_collection.
  destruct (Py.dict_mem (JStr name) rc); simpl.
  - apply emits_only_ret.
  - apply emits_only_bind.
    + unfold create_knowledge_collection. apply emits_only_bind.
      * apply emits_only_request. now apply Hc.
      * intros r. apply emits_only_ret.
    + intros c. apply emits_only_ret.
Qed.

Lemma sync_items_emits (E : event -> Prop) (w : world)
    (lf : local_files_t) (rf : Py.dict obj) (base : Path)
    (items : list (string * node)) :
  (forall cid, E (EGetCollection cid)) ->
  (forall n d, E (ECreateCollection n d)) ->
  (forall cid dname n kv,
      In (dname, n) items -> is_dir n = true ->
      In kv (select_local_files (dname ++ "/") lf) ->
      emits_only (sync_file w cid (li_path (snd kv)) rf) E) ->
  forall rc, emits_only (sync_items w items lf rf rc base) E.
Proof.
  intros Hg Hc. induction items as [ | [dname n] rest IH]; intros Hf rc.
  - apply emits_only_ret.
  - simpl. destruct (is_dir n) eqn:Hd.
    + apply emits_only_bind.
      * rewrite sync_collection_split. apply emits_only_bind.
        -- apply ensure_collection_emits. intros _. apply Hc.
        -- intros rc'. apply sync_existing_emits; [assumption | ].
           intros cid prefix kv Hp Hkv.
           rewrite collection_prefix_div in Hp. injection Hp as <-.
           apply (Hf cid dname n kv); [now left | assumption | assumption].
      * intros rc'. apply IH. intros cid d' n' kv Hin. apply Hf. now right.
    + apply IH. intros cid d' n' kv Hin. apply Hf. now right.
Qed.

Lemma get_remote_files_run (w : world) (h : list event) :
  exists rf, get_remote_files w h = (Ok rf, h ++ [EListFiles]).
Proof. unfold get_remote_files, get_files, bind, request, ret. now eexists. Qed.

Lemma get_remote_collections_run (w : world) (h : list event) :
  exists rc, get_remote_collections w h = (Ok rc, h ++ [EListCollections]).
Proof.
  unfold get_remote_collections, get_knowledge_collections, bind, request, ret.
  now eexists.
Qed.

(** A run whose scan and directory listing succeed: the two snapshots
    are taken, then the loop over the entries of the root runs. *)
Lemma sync_knowledge_unfold (w : world) (base : Path) (tree : node)
    (lf : local_files_t) (items : list (string * node)) (h : list event) :
  get_local_files base tree = Ok lf ->
  iterdir tree = Ok items ->
  exists rf rc,
    get_remote_files w h = (Ok rf, h ++ [EListFiles]) /\
    get_remote_collections w (h ++ [EListFiles]) =
      (Ok rc, h ++ [EListFiles; EListCollections]) /\
    sync_knowledge w base tree h =
      sync_items w items lf rf rc base (h ++ [EListFiles; EListCollections]).
Proof.
  intros Hlf Hit.
  destruct (get_remote_files_run w h) as [rf Hrf].
  destruct (get_remote_collections_run w (h ++ [EListFiles])) as [rc Hrc].
  rewrite <- app_assoc in Hrc. simpl in Hrc.
  exists rf, rc. split; [assumption | ]. split; [assumption | ].
  unfold sync_knowledge. rewrite Hlf, Hit. unfold bind at 1. unfold lift at 1.
  unfold bind at 1. rewrite Hrf. unfold bind at 1. rewrite Hrc.
  reflexivity.
Qed.

Lemma find_existing_in (rf : Py.dict obj) (name : string) (fid : json) :
  find_existing rf name = Some fid -> In fid (map fst rf).
Proof.
  induction rf as [ | [k v] r IH]; simpl; [discriminate | ].
  destruct (_ || _).
  - intros [= <-]. now left.
  - intros H. right. now apply IH.
Qed.

(** The uploads of [sync_file] are of the local path it was given, as
    long as no id of the index names a local file. *)
Lemma attach_argument_upload (w : world) (rf : Py.dict obj) (p q : string) :
  ids_not_local w rf ->
  attach_argument (find_existing rf (basename p)) p = JStr q ->
  isfile w q = true -> q = p.
Proof.
  intros Hids Harg Hq. unfold attach_argument in Harg.
  destruct (find_existing rf (basename p)) as [fid | ] eqn:Hfind.
  - destruct (Py.truthy fid).
    + subst fid. apply find_existing_in in Hfind.
      apply in_map_iff in Hfind as [kv [Hk Hin]].
      unfold ids_not_local in Hids. rewrite Forall_forall in Hids.
      specialize (Hids kv Hin q). rewrite Hk in Hids.
      rewrite (Hids eq_refl) in Hq. discriminate.
    + now injection Harg as <-.
  - now injection Harg as <-.
Qed.

(* ----------------------------------------------------------------- *)
(** ** Files lying directly in the scan root *)

Lemma selected_path_differs (base : Path) (lf : local_files_t)
    (dname fname : string) (kv : string * local_info) :
  paths_follow_keys base lf ->
  PyStr.contains fname "/" = false ->
  In kv (select_local_files (dname ++ "/") lf) ->
  li_path (snd kv) <> path_str (path_div base fname).
Proof.
  intros Hp Hsep Hkv. apply filter_In in Hkv as [Hin Hpre].
  unfold paths_follow_keys in Hp. rewrite Forall_forall in Hp.
  rewrite (Hp kv Hin). unfold path_div.
  rewrite path_str_under by discriminate. cbn [PyStr.join].
  intros Heq. apply sapp_inj_l in Heq. rewrite Heq in Hpre.
  apply startswith_contains in Hpre. congruence.
Qed.

(** C9, as the code has it.  A supported file lying directly in the scan
    root (its relative
    path holds no separator) is a key of the scan result, with its path;
    it is selected for no collection directory; no run of the reconciler
    starts a per-file sync for it, and, as long as the ids of the remote
    listing are not themselves names of local files, no run uploads
    it. *)
Theorem root_file_scanned_never_synced (w : world) (base : Path)
    (es : list (string * node)) (fname : string) (n : node)
    (lf : local_files_t) (h : list event) :
  In (fname, n) es -> is_dir n = false ->
  PyStr.contains fname "/" = false ->
  is_supported_file (path_div base fname) (st_size n) = Ok true ->
  get_local_files base (Dir true es) = Ok lf ->
  let target := path_str (path_div base fname) in
  (exists info, In (fname, info) lf /\ li_path info = target)
  /\ (forall dname info,
         ~ In (fname, info) (select_local_files (dname ++ "/") lf))
  /\ exists new,
       snd (sync_knowledge w base (Dir true es) h) = h ++ new /\
       (forall cid, ~ In (ESyncFile cid target) new) /\
       (listed_ids_not_local w -> ~ In (EUpload target) new).
Proof.
  intros Hin Hnd Hsep Hsup Hlf target.
  pose proof (get_local_files_paths _ _ _ Hlf) as Hpaths.
  split; [ | split].
  - destruct (get_local_files_root_file _ _ _ _ _ Hlf Hin Hnd Hsup) as [info Hi].
    exists info. split; [assumption | ].
    unfold paths_follow_keys in Hpaths. rewrite Forall_forall in Hpaths.
    pose proof (Hpaths _ Hi) as Hpi. cbn [fst snd] in Hpi. rewrite Hpi.
    subst target. unfold path_div.
    now rewrite path_str_under by discriminate.
  - intros dname info Hsel. apply filter_In in Hsel as [_ Hpre].
    cbn [fst] in Hpre. apply startswith_contains in Hpre. congruence.
  - destruct (sync_knowledge_unfold w base (Dir true es) lf es h Hlf eq_refl)
      as (rf & rc & Hrf & Hrc & Hrun).
    set (E := fun e : event =>
                (forall cid, e <> ESyncFile cid target) /\
                (listed_ids_not_local w -> e <> EUpload target)).
    assert (Hem : emits_only (sync_items w es lf rf rc base) E).
    { apply sync_items_emits.
      - intros cid. split; [intros c | intros _]; discriminate.
      - intros a b. split; [intros c | intros _]; discriminate.
      - intros cid dname n' kv Hi Hd Hkv.
        pose proof (selected_path_differs _ _ _ _ _ Hpaths Hsep Hkv) as Hne.
        apply sync_file_emits.
        + split; [ | intros _; discriminate].
          intros c [= _ Heq]. contradiction.
        + intros q Harg Hq _. split; [intros c; discriminate | ].
          intros Hids [= Heq]. apply Hne. subst q.
          assert (Hrf' : fst (get_remote_files w h) = Ok rf) by now rewrite Hrf.
          now rewrite <- (attach_argument_upload w rf _ _ (Hids _ _ Hrf') Harg Hq).
        + intros f. split; [intros c | intros _]; discriminate. }
    destruct (Hem (h ++ [EListFiles; EListCollections])) as [new [Hnew HE]].
    exists ([EListFiles; EListCollections] ++ new).
    rewrite Hrun, Hnew, <- app_assoc. split; [reflexivity | ].
    rewrite Forall_forall in HE. split.
    + intros cid [H1 | [H1 | H1]]; try discriminate.
      now apply (proj1 (HE _ H1) cid).
    + intros Hids [H1 | [H1 | H1]]; try discriminate.
      now apply (proj2 (HE _ H1) Hids).
Qed.

(* ----------------------------------------------------------------- *)
(** ** Runs that return normally *)

Lemma total_ret {A} (a : A) (Q : A -> list event -> Prop) :
  Q a [] -> total (ret a) Q.
Proof. intros HQ h. exists a, []. now rewrite app_nil_r. Qed.

Lemma total_bind {A B} (m : M A) (k : A -> M B)
    (Q1 : A -> list event -> Prop) (Q : B -> list event -> Prop) :
  total m Q1 ->
  (forall a n1, Q1 a n1 -> total (k a) (fun b n2 => Q b (n1 ++ n2))) ->
  total (bind m k) Q.
Proof.
  intros Hm Hk h. destruct (Hm h) as (a & n1 & Hrun & H1).
  destruct (Hk a n1 H1 (h ++ n1)) as (b & n2 & Hrun2 & H2).
  exists b, (n1 ++ n2). unfold bind. rewrite Hrun, Hrun2, app_assoc.
  now split.
Qed.

Lemma total_lift {A} (r : result A) (a : A) (Q : A -> list event -> Prop) :
  r = Ok a -> Q a [] -> total (lift r) Q.
Proof. intros -> HQ h. exists a, []. unfold lift. now rewrite app_nil_r. Qed.

Lemma total_weaken {A} (m : M A) (Q R : A -> list event -> Prop) :
  (forall a n, Q a n -> R a n) -> total m Q -> total m R.
Proof.
  intros HQR Hm h. destruct (Hm h) as (a & n & Hrun & HQ).
  exists a, n. split; [assumption | now apply HQR].
Qed.

(** A computation that only emits events of [E] and returns normally. *)
Lemma total_of_emits {A} (m : M A) (E : event -> Prop) :
  never_raises m -> emits_only m E -> total m (fun _ new => Forall E new).
Proof.
  intros Hn He h. destruct (Hn h) as [a Ha]. destruct (He h) as (n & Hs & HE).
  exists a, n. split; [ | assumption].
  rewrite (surjective_pairing (m h)). now rewrite Ha, Hs.
Qed.

Lemma extensible_l (L : string -> list event -> Prop) (p : string)
    (a n : list event) :
  extensible L -> L p n -> L p (a ++ n).
Proof. intros HL Hn. rewrite <- (app_nil_r n). now apply HL. Qed.

Lemma extensible_r (L : string -> list event -> Prop) (p : string)
    (n b : list event) :
  extensible L -> L p n -> L p (n ++ b).
Proof. intros HL Hn. now apply (HL p [] n b). Qed.

Lemma total_for_each {A} (E : event -> Prop) (L : string -> list event -> Prop)
    (key : A -> string) (body : A -> M unit) (l : list A) :
  extensible L ->
  (forall x, In x l ->
     total (body x) (fun _ new => Forall E new /\ L (key x) new)) ->
  total (for_each body l)
        (fun _ new => Forall E new /\ forall x, In x l -> L (key x) new).
Proof.
  intros HL. induction l as [ | x r IH]; intros Hb.
  - apply total_ret. split; [constructor | intros x []].
  - simpl. eapply total_bind.
    + apply Hb. now left.
    + intros u n1 [HE1 Hx]. cbv beta.
      eapply total_weaken; [ | apply IH; intros y Hy; apply Hb; now right].
      intros _ n2 [HE2 Hr]. split.
      * apply Forall_app. now split.
      * intros y [<- | Hy].
        -- now apply extensible_r.
        -- apply extensible_l; [assumption | now apply Hr].
Qed.

(** [sync_file] returns normally; what holds of the events it adds from
    every trace holds of the events of the run. *)
Lemma sync_file_total (E : event -> Prop) (L : list event -> Prop)
    (w : world) (cid : json) (p : string) (rf : Py.dict obj) :
  emits_only (sync_file w cid p rf) E ->
  (forall h new, snd (sync_file w cid p rf h) = h ++ new -> L new) ->
  total (sync_file w cid p rf) (fun _ new => Forall E new /\ L new).
Proof.
  intros He HL h. destruct (He h) as (n & Hs & HE).
  exists tt, n. split; [ | split; [assumption | now apply (HL h)]].
  rewrite (surjective_pairing (sync_file w cid p rf h)), Hs.
  now rewrite sync_file_unfold.
Qed.

Lemma sync_file_enters (w : world) (cid : json) (p : string)
    (rf : Py.dict obj) (h new : list event) :
  snd (sync_file w cid p rf h) = h ++ new -> In (ESyncFile cid p) new.
Proof.
  rewrite sync_file_unfold. cbn [snd].
  destruct (add_file_emits (fun _ => True) w cid
              (attach_argument (find_existing rf (basename p)) p)
              (fun _ _ _ _ => I) (fun _ => I) (h ++ [ESyncFile cid p]))
    as (n' & -> & _).
  rewrite <- app_assoc. intros Hs. apply app_inv_head in Hs. subst new.
  now left.
Qed.

(* ----------------------------------------------------------------- *)
(** ** The collection index *)

Lemma dict_get_set_same {V} (name : string) (v : V) (d : Py.dict V) :
  Py.dict_get (JStr name) (Py.dict_set (JStr name) v d) = Some v.
Proof.
  induction d as [ | [k' v'] r IH]; cbn [Py.dict_set Py.dict_get].
  - cbn [Py.key_eqb]. now rewrite String.eqb_refl.
  - destruct (Py.key_eqb (JStr name) k') eqn:Hk;
      cbn [Py.dict_get]; rewrite Hk.
    + reflexivity.
    + exact IH.
Qed.

Lemma dict_mem_set_mono {V} (k0 k : json) (v : V) (d : Py.dict V) :
  Py.dict_mem k0 d = true -> Py.dict_mem k0 (Py.dict_set k v d) = true.
Proof.
  unfold Py.dict_mem.
  induction d as [ | [k' v'] r IH]; cbn [Py.dict_set Py.dict_get].
  - discriminate.
  - destruct (Py.key_eqb k k'); cbn [Py.dict_get];
      destruct (Py.key_eqb k0 k'); auto.
Qed.

Lemma dict_mem_set_inv {V} (n0 n : string) (v : V) (d : Py.dict V) :
  Py.dict_mem (JStr n0) (Py.dict_set (JStr n) v d) = true ->
  Py.dict_mem (JStr n0) d = true \/ n0 = n.
Proof.
  unfold Py.dict_mem.
  induction d as [ | [k' v'] r IH]; cbn [Py.dict_set Py.dict_get].
  - cbn [Py.key_eqb]. destruct (String.eqb n0 n) eqn:Heq; [ | discriminate].
    intros _. right. now apply String.eqb_eq.
  - destruct (Py.key_eqb (JStr n) k'); cbn [Py.dict_get];
      destruct (Py.key_eqb (JStr n0) k'); auto.
Qed.

Lemma have_ids_set (k c : json) (rc : Py.dict json) :
  have_ids rc -> (exists cid, Py.subscript c "id" = Ok cid) ->
  have_ids (Py.dict_set k c rc).
Proof.
  intros Hrc Hc.
  induction Hrc as [ | [k' v'] r Hk' Hr IH]; cbn [Py.dict_set].
  - now repeat constructor.
  - destruct (Py.key_eqb k k'); constructor; assumption.
Qed.

Lemma have_ids_get (k : json) (rc : Py.dict json) (c : json) :
  have_ids rc -> Py.dict_get k rc = Some c ->
  exists cid, Py.subscript c "id" = Ok cid.
Proof.
  intros Hrc. induction Hrc as [ | [k' v'] r Hk' Hr IH]; cbn [Py.dict_get].
  - discriminate.
  - destruct (Py.key_eqb k k'); [ | assumption]. now intros [= <-].
Qed.

(** The first half of [sync_collection] on a healthy service: the name
    is a key of the index afterwards and its collection has an id; the
    only key that may be new is that name, and then its creation is in
    the trace. *)
Lemma ensure_collection_total (E : event -> Prop) (w : world) (name : string)
    (cdir : Path) (rc : Py.dict json) :
  creates_succeed w -> have_ids rc ->
  (Py.dict_mem (JStr name) rc = false ->
   E (ECreateCollection name (auto_description cdir))) ->
  total (ensure_collection w name cdir rc)
        (fun rc' new =>
           Forall E new /\ have_ids rc' /\
           (exists c cid, Py.dict_get (JStr name) rc' = Some c /\
                          Py.subscript c "id" = Ok cid) /\
           (forall k, Py.dict_mem k rc = true -> Py.dict_mem k rc' = true) /\
           (forall n0, Py.dict_mem (JStr n0) rc' = true ->
                       Py.dict_mem (JStr n0) rc = true \/ n0 = name) /\
           (Py.dict_mem (JStr name) rc = true \/
            In (ECreateCollection name (auto_description cdir)) new)).
Proof.
  intros Hcr Hrc HE h.
  destruct (Py.dict_mem (JStr name) rc) eqn:Hmem.
  - rewrite (ensure_collection_present _ _ _ _ _ Hmem).
    exists rc, []. rewrite app_nil_r. split; [reflexivity | ].
    split; [constructor | ]. split; [assumption | ].
    split; [ | split; [tauto | split; [tauto | now left]]].
    unfold Py.dict_mem in Hmem.
    destruct (Py.dict_get (JStr name) rc) as [c | ] eqn:Hget; [ | discriminate].
    destruct (have_ids_get _ _ _ Hrc Hget) as [cid Hcid]. now exists c, cid.
  - rewrite (ensure_collection_absent _ _ _ _ _ Hmem).
    destruct (Hcr h name (auto_description cdir)) as [cid Hcid].
    eexists _, _. split; [reflexivity | ].
    split; [constructor; [now apply HE | constructor] | ].
    split; [apply have_ids_set; [assumption | now exists cid] | ].
    split; [ | split; [ | split]].
    + eexists _, cid. split; [apply dict_get_set_same | exact Hcid].
    + intros k. apply dict_mem_set_mono.
    + intros n0. apply dict_mem_set_inv.
    + right. now left.
Qed.

(** The second half: the detail is fetched and every selected file is
    handed to [sync_file]. *)
Lemma sync_existing_total (E : event -> Prop)
    (L : string -> list event -> Prop) (w : world) (name dname : string)
    (lf : local_files_t) (rf : Py.dict obj) (rc : Py.dict json)
    (base : Path) :
  extensible L ->
  details_well_formed w ->
  (exists c cid, Py.dict_get (JStr name) rc = Some c /\
                 Py.subscript c "id" = Ok cid) ->
  (forall cid, E (EGetCollection cid)) ->
  (forall cid kv,
      In kv (select_local_files (dname ++ "/") lf) ->
      total (sync_file w cid (li_path (snd kv)) rf)
            (fun _ new => Forall E new /\ L (li_path (snd kv)) new)) ->
  total (sync_existing w name lf rf rc base (path_div base dname))
        (fun rc' new =>
           rc' = rc /\ Forall E new /\
           forall kv, In kv (select_local_files (dname ++ "/") lf) ->
                      L (li_path (snd kv)) new).
Proof.
  intros HL Hdet (c & cid & Hget & Hcid) Hg Hf. unfold sync_existing.
  rewrite Hget.
  eapply total_bind;
    [apply total_lift with (a := c) (Q := fun a n => a = c /\ n = []);
     [reflexivity | now split] | ].
  intros a n1 [-> ->]. cbn [app]. rewrite Hcid.
  eapply total_bind;
    [apply total_lift with (a := cid) (Q := fun a n => a = cid /\ n = []);
     [reflexivity | now split] | ].
  intros a n1 [-> ->]. cbn [app].
  eapply total_bind with
    (Q1 := fun info n => n = [EGetCollection cid] /\
                         exists ids, collection_file_ids info = Ok ids).
  { intros h. unfold get_knowledge_collection, bind, request, ret.
    eexists _, _. split; [reflexivity | ]. split; [reflexivity | apply Hdet]. }
  intros info n1 [-> [ids Hids]]. rewrite Hids.
  eapply total_bind;
    [apply total_lift with (a := ids) (Q := fun _ n => n = []); reflexivity | ].
  intros ids' n1 ->. rewrite collection_prefix_div.
  eapply total_bind;
    [apply total_lift with (a := (dname ++ "/")%string)
                           (Q := fun a n => a = (dname ++ "/")%string /\ n = []);
     [reflexivity | now split] | ].
  intros pre n2 [-> ->].
  eapply total_bind.
  { apply (total_for_each E L (fun kv => li_path (snd kv))); [assumption | ].
    intros kv Hkv. now apply Hf. }
  intros u n3 [HE Hlive]. apply total_ret. rewrite !app_nil_r. cbn [app].
  split; [reflexivity | ]. split.
  - constructor; [apply Hg | assumption].
  - intros kv Hkv. apply (extensible_l L _ [EGetCollection cid]);
      [assumption | now apply Hlive].
Qed.

Lemma sync_collection_total (E : event -> Prop)
    (L : string -> list event -> Prop) (w : world) (dname : string)
    (lf : local_files_t) (rf : Py.dict obj) (rc : Py.dict json)
    (base : Path) :
  extensible L ->
  creates_succeed w -> details_well_formed w -> have_ids rc ->
  (forall cid, E (EGetCollection cid)) ->
  (Py.dict_mem (JStr (prettify_name dname)) rc = false ->
   forall desc, E (ECreateCollection (prettify_name dname) desc)) ->
  (forall cid kv,
      In kv (select_local_files (dname ++ "/") lf) ->
      total (sync_file w cid (li_path (snd kv)) rf)
            (fun _ new => Forall E new /\ L (li_path (snd kv)) new)) ->
  total (sync_collection w (prettify_name dname) lf rf rc base
                         (path_div base dname))
        (fun rc' new =>
           Forall E new /\ have_ids rc' /\
           (forall k, Py.dict_mem k rc = true -> Py.dict_mem k rc' = true) /\
           (forall n0, Py.dict_mem (JStr n0) rc' = true ->
                       Py.dict_mem (JStr n0) rc = true \/
                       n0 = prettify_name dname) /\
           (Py.dict_mem (JStr (prettify_name dname)) rc = true \/
            exists desc,
              In (ECreateCollection (prettify_name dname) desc) new) /\
           forall kv, In kv (select_local_files (dname ++ "/") lf) ->
                      L (li_path (snd kv)) new).
Proof.
  intros HL Hcr Hdet Hrc Hg Hc Hf. rewrite sync_collection_split.
  eapply total_bind.
  - apply (ensure_collection_total E); [assumption | assumption | ].
    intros Hmem. now apply Hc.
  - intros rc' n1 (HE1 & Hids & Hget & Hmono & Hinv & Hcreated). cbv beta.
    eapply total_weaken;
      [ | apply (sync_existing_total E L w (prettify_name dname) dname);
          eassumption].
    intros rc'' n2 (-> & HE2 & Hlive).
    split; [ | split; [ | split; [ | split; [ | split]]]].
    + apply Forall_app. now split.
    + assumption.
    + assumption.
    + assumption.
    + destruct Hcreated as [Hm | Hin]; [now left | right].
      eexists. apply in_or_app. left. exact Hin.
    + intros kv Hkv. apply extensible_l; [assumption | now apply Hlive].
Qed.

(** The loop over the entries of the root on a healthy service: it
    returns normally; the name of every directory entry was a key of the
    index or its creation is in the trace; and what [sync_file] ensures
    for a file holds for every file selected for a directory entry. *)
Lemma sync_items_total (E : event -> Prop)
    (L : string -> list event -> Prop) (w : world)
    (lf : local_files_t) (rf : Py.dict obj) (base : Path)
    (items : list (string * node)) :
  extensible L ->
  creates_succeed w -> details_well_formed w ->
  (forall cid, E (EGetCollection cid)) ->
  (forall cid dname n kv,
      In (dname, n) items -> is_dir n = true ->
      In kv (select_local_files (dname ++ "/") lf) ->
      total (sync_file w cid (li_path (snd kv)) rf)
            (fun _ new => Forall E new /\ L (li_path (snd kv)) new)) ->
  forall rc,
    have_ids rc ->
    (forall dname n,
        In (dname, n) items -> is_dir n = true ->
        Py.dict_mem (JStr (prettify_name dname)) rc = false ->
        forall desc, E (ECreateCollection (prettify_name dname) desc)) ->
    total (sync_items w items lf rf rc base)
          (fun _ new =>
             Forall E new /\
             (forall dname n,
                 In (dname, n) items -> is_dir n = true ->
                 Py.dict_mem (JStr (prettify_name dname)) rc = true \/
                 exists desc,
                   In (ECreateCollection (prettify_name dname) desc) new) /\
             forall dname n kv,
               In (dname, n) items -> is_dir n = true ->
               In kv (select_local_files (dname ++ "/") lf) ->
               L (li_path (snd kv)) new).
Proof.
  intros HL Hcr Hdet Hg.
  induction items as [ | [dname n] rest IH]; intros Hf rc Hrc Hc.
  - apply total_ret. split; [constructor | ].
    split; [intros d n [] | intros d n kv []].
  - simpl. destruct (is_dir n) eqn:Hd.
    + eapply total_bind.
      * apply (sync_collection_total E L); try assumption.
        -- intros Hmem. apply (Hc dname n); [now left | assumption | assumption].
        -- intros cid kv Hkv.
           apply (Hf cid dname n); [now left | assumption | assumption].
      * intros rc' n1 (HE1 & Hids & Hmono & Hinv & Hcreated & Hlive). cbv beta.
        eapply total_weaken;
          [ | apply (IH (fun cid d' n' kv Hin => Hf cid d' n' kv (or_intror Hin))
                        rc' Hids)].
        -- intros _ n2 (HE2 & Hc2 & Hl2). split; [ | split].
           ++ apply Forall_app. now split.
           ++ intros d' n' [Heq | Hin] Hd'.
              ** injection Heq as <- <-.
                 destruct Hcreated as [Hm | [desc Hin]]; [now left | right].
                 exists desc. apply in_or_app. now left.
              ** destruct (Hc2 d' n' Hin Hd') as [Hm | [desc Hdesc]].
                 --- destruct (Hinv _ Hm) as [Hm0 | Heq]; [now left | ].
                     rewrite Heq.
                     destruct Hcreated as [Hm1 | [desc Hin1]]; [now left | right].
                     exists desc. apply in_or_app. now left.
                 --- right. exists desc. apply in_or_app. now right.
           ++ intros d' n' kv [Heq | Hin] Hd' Hkv.
              ** injection Heq as <- <-. apply extensible_r; [assumption | ].
                 now apply Hlive.
              ** apply extensible_l; [assumption | ]. now apply (Hl2 d' n').
        -- intros d' n' Hin Hd' Hmem.
           apply (Hc d' n'); [now right | assumption | ].
           destruct (Py.dict_mem (JStr (prettify_name d')) rc) eqn:Hm;
             [ | reflexivity].
           apply Hmono in Hm. congruence.
    + eapply total_weaken;
        [ | apply (IH (fun cid d' n' kv Hin => Hf cid d' n' kv (or_intror Hin))
                      rc Hrc)].
      * intros _ n2 (HE2 & Hc2 & Hl2). split; [assumption | split].
        -- intros d' n' [Heq | Hin] Hd'.
           ++ injection Heq as <- <-. congruence.
           ++ now apply (Hc2 d' n').
        -- intros d' n' kv [Heq | Hin] Hd' Hkv.
           ++ injection Heq as <- <-. congruence.
           ++ now apply (Hl2 d' n').
      * intros d' n' Hin. apply Hc. now right.
Qed.

(* ----------------------------------------------------------------- *)
(** ** A failed upload does not stop the run *)

Lemma sync_file_emits_anything (w : world) (cid : json) (p : string)
    (rf : Py.dict obj) :
  emits_only (sync_file w cid p rf) (fun _ => True).
Proof. apply sync_file_emits; intros; exact I. Qed.

Lemma add_by_path_uploads (w : world) (cid : json) (p : string)
    (h : list event) :
  isfile w p = true -> can_open w p = true ->
  exists rest,
    snd (add_file_to_knowledge w cid (JStr p) h) = h ++ EUpload p :: rest.
Proof.
  intros Hf Ho. unfold add_file_to_knowledge, upload_file. rewrite Hf, Ho.
  unfold bind, request, ret, lift, post_attach. cbv beta iota.
  set (fd := unwrap_dict (respond w h (EUpload p))).
  destruct (negb (Py.truthy fd)); [now exists [] | ].
  destruct (Py.contains "id" fd) as [b | e]; [ | now exists []].
  destruct (negb b); [now exists [] | ].
  destruct (Py.subscript fd "id") as [fid | e]; [ | now exists []].
  exists [EAttach cid fid]. unfold bind, request, ret. cbn [snd].
  now rewrite <- app_assoc.
Qed.

Lemma sync_file_requests (w : world) (cid : json) (p : string)
    (rf : Py.dict obj) (h new : list event) :
  truthy_keys rf ->
  snd (sync_file w cid p rf h) = h ++ new -> requested w rf cid p new.
Proof.
  intros Hk. rewrite sync_file_unfold. cbn [snd]. intros Hrun. split.
  - intros before fid file_info after Hsplit Hbefore Hhere Hlocal.
    pose proof (find_existing_first _ _ _ _ _ _ Hsplit Hbefore Hhere) as Hfind.
    rewrite Hfind in Hrun. unfold attach_argument in Hrun.
    rewrite (find_existing_truthy _ _ _ Hk Hfind) in Hrun.
    rewrite (add_by_id _ _ _ _ Hlocal), <- app_assoc in Hrun.
    apply app_inv_head in Hrun. subst new. right. now left.
  - intros Hnone. rewrite (find_existing_none _ _ Hnone) in Hrun.
    unfold attach_argument in Hrun. split.
    + intros Hfile Hopen.
      destruct (add_by_path_uploads w cid p (h ++ [ESyncFile cid p])
                  Hfile Hopen) as [rest Hrest].
      rewrite Hrest, <- app_assoc in Hrun.
      apply app_inv_head in Hrun. subst new. right. now left.
    + intros Hfile.
      rewrite (add_by_id w cid (JStr p)), <- app_assoc in Hrun.
      * apply app_inv_head in Hrun. subst new. right. now left.
      * intros q [= <-]. exact Hfile.
Qed.

Lemma requested_extensible (w : world) (rf : Py.dict obj) :
  extensible (fun p new =>
                exists cid, In (ESyncFile cid p) new /\ requested w rf cid p new).
Proof.
  assert (Hin : forall (e : event) a n b, In e n -> In e (a ++ n ++ b)).
  { intros e a n b H. apply in_or_app. right. apply in_or_app. now left. }
  intros p a n b (cid & Henter & Hmatch & Hnone).
  exists cid. split; [now apply Hin | ]. split.
  - intros before fid file_info after H1 H2 H3 H4. apply Hin.
    now apply (Hmatch before fid file_info after).
  - intros H. destruct (Hnone H) as [Hup Hatt].
    split; intros; apply Hin; auto.
Qed.

(** C7.  Whatever the service answers to uploads and attachments (every
    upload may fail), the loop over the files of a collection returns
    normally, hands every file to [sync_file] and sends the request of
    every file: the attachment of the remote file matched by name, or
    the upload of the local file when nothing matches and it can be
    opened.  On a service that answers creations and detail requests
    properly, the whole run then returns normally, the same has been
    done for every local file selected for any directory of the root,
    against the index the run started with, and the process ends with
    status 0. *)
Theorem failed_uploads_do_not_stop_run (w : world) :
  (forall (cid : json) (rf : Py.dict obj) (files : local_files_t)
          (h : list event),
      exists new,
        for_each (fun kv => sync_file w cid (li_path (snd kv)) rf) files h
        = (Ok tt, h ++ new) /\
        forall kv, In kv files ->
                   In (ESyncFile cid (li_path (snd kv))) new /\
                   (truthy_keys rf ->
                    requested w rf cid (li_path (snd kv)) new))
  /\ (forall (base : Path) (es : list (string * node)) (lf : local_files_t)
             (config : json) (h : list event),
      get_local_files base (Dir true es) = Ok lf ->
      creates_succeed w ->
      details_well_formed w ->
      listed_collections_have_ids w ->
      client_init config = Ok tt ->
      (exists new,
          sync_knowledge w base (Dir true es) h = (Ok tt, h ++ new) /\
          forall dname n kv,
            In (dname, n) es -> is_dir n = true ->
            In kv (select_local_files (dname ++ "/") lf) ->
            exists cid,
              In (ESyncFile cid (li_path (snd kv))) new /\
              requested w (files_seen w h) cid (li_path (snd kv)) new)
      /\ fst (main w (Some config) base (Some (Dir true es))) = 0%Z).
Proof.
  assert (Hin : forall (e : event) a n b, In e n -> In e (a ++ n ++ b)).
  { intros e a n b H. apply in_or_app. right. apply in_or_app. now left. }
  split.
  - intros cid rf files h.
    destruct (total_for_each (fun _ => True)
                (fun p new => In (ESyncFile cid p) new /\
                              (truthy_keys rf -> requested w rf cid p new))
                (fun kv : string * local_info => li_path (snd kv))
                (fun kv => sync_file w cid (li_path (snd kv)) rf) files)
      with (h := h) as (u & new & Hrun & _ & Hlive).
    + intros p a n b [Henter Hreq]. split; [now apply Hin | ].
      intros Hk. destruct (Hreq Hk) as [Hmatch Hnone]. split.
      * intros before fid file_info after H1 H2 H3 H4. apply Hin.
        now apply (Hmatch before fid file_info after).
      * intros H. destruct (Hnone H) as [Hup Hatt].
        split; intros; apply Hin; auto.
    + intros kv _. apply sync_file_total.
      * apply sync_file_emits_anything.
      * intros h1 new Hs. split; [now apply sync_file_enters in Hs | ].
        intros Hk. now apply (sync_file_requests w cid _ rf h1).
    + exists new. destruct u. now split.
  - intros base es lf config h Hlf Hcr Hdet Hlist Hcfg.
    assert (Hrun : forall h0, exists new,
               sync_knowledge w base (Dir true es) h0 = (Ok tt, h0 ++ new) /\
               forall dname n kv,
                 In (dname, n) es -> is_dir n = true ->
                 In kv (select_local_files (dname ++ "/") lf) ->
                 exists cid,
                   In (ESyncFile cid (li_path (snd kv))) new /\
                   requested w (files_seen w h0) cid (li_path (snd kv)) new).
    { intros h0.
      destruct (sync_knowledge_unfold w base (Dir true es) lf es h0 Hlf eq_refl)
        as (rf & rc & Hrf & Hrc & Hrun).
      unfold files_seen. rewrite Hrf. cbn [fst].
      assert (Hk : truthy_keys rf).
      { apply (get_remote_files_truthy_keys w h0). now rewrite Hrf. }
      assert (Hids : have_ids rc).
      { apply (Hlist (h0 ++ [EListFiles])). now rewrite Hrc. }
      destruct (sync_items_total (fun _ => True)
                  (fun p new => exists cid, In (ESyncFile cid p) new /\
                                            requested w rf cid p new)
                  w lf rf base es (requested_extensible w rf) Hcr Hdet
                  (fun _ => I)) with (rc := rc)
                  (h := h0 ++ [EListFiles; EListCollections])
        as (u & new & Hitems & _ & _ & Hlive).
      - intros cid dname n kv _ _ _. apply sync_file_total.
        + apply sync_file_emits_anything.
        + intros h1 new Hs. exists cid.
          split; [now apply sync_file_enters in Hs | ].
          now apply (sync_file_requests w cid _ rf h1).
      - assumption.
      - intros; exact I.
      - exists ([EListFiles; EListCollections] ++ new).
        rewrite Hrun, Hitems, <- app_assoc. destruct u. split; [reflexivity | ].
        intros dname n kv Hi Hd Hkv.
        pose proof (requested_extensible w rf (li_path (snd kv))
                      [EListFiles; EListCollections] new []
                      (Hlive dname n kv Hi Hd Hkv)) as Hext.
        now rewrite app_nil_r in Hext. }
    split; [apply Hrun | ].
    unfold main. rewrite Hcfg. destruct (Hrun []) as (new & -> & _).
    reflexivity.
Qed.

Lemma demo_collections_shape (h : list event) (c : json) :
  In c (demo_collections h) -> exists name, c = demo_collection name.
Proof.
  induction h as [ | e r IH]; simpl; [intros [] | ].
  destruct e; try assumption.
  intros [<- | Hin]; [now eexists | now apply IH].
Qed.

Lemma index_collections_have_ids (response : list json) :
  (forall c, In c response -> exists cid, Py.subscript c "id" = Ok cid) ->
  forall acc, have_ids acc -> have_ids (index_collections response acc).
Proof.
  induction response as [ | c rest IH]; intros Hall acc Hacc.
  - exact Hacc.
  - cbn [index_collections].
    destruct (Py.subscript c "name") as [name | e]; [ | assumption].
    destruct (Py.hashable name); [ | assumption].
    apply IH.
    + intros c' Hc'. apply Hall. now right.
    + apply have_ids_set; [assumption | ]. apply Hall. now left.
Qed.

Lemma flaky_world_healthy :
  creates_succeed flaky_world /\ details_well_formed flaky_world /\
  listed_collections_have_ids flaky_world.
Proof.
  split; [ | split].
  - intros h name desc. now eexists.
  - intros h cid. now eexists.
  - intros h rc. unfold get_remote_collections, get_knowledge_collections,
      bind, request, ret. cbn [fst flaky_world respond demo_respond unwrap_list Py.iter].
    intros [= <-]. apply index_collections_have_ids; [ | constructor].
    intros c Hc. apply demo_collections_shape in Hc as [name ->]. now eexists.
Qed.

Lemma failed_uploads_do_not_stop_run_witness :
  (exists new,
      for_each (fun kv => sync_file flaky_world (JStr "c-Alpha")
                            (li_path (snd kv)) [])
               two_dirs_files [] = (Ok tt, [] ++ new) /\
      forall kv, In kv two_dirs_files ->
                 In (ESyncFile (JStr "c-Alpha") (li_path (snd kv))) new /\
                 (truthy_keys [] ->
                  requested flaky_world [] (JStr "c-Alpha")
                            (li_path (snd kv)) new))
  /\ (exists new,
      sync_knowledge flaky_world demo_base two_dirs_tree [] = (Ok tt, [] ++ new) /\
      forall dname n kv,
        In (dname, n)
           [ ("alpha", Dir true [("a.txt", File true 3 "h1")]);
             ("beta", Dir true [("b.txt", File true 4 "h2")]) ] ->
        is_dir n = true ->
        In kv (select_local_files (dname ++ "/") two_dirs_files) ->
        exists cid,
          In (ESyncFile cid (li_path (snd kv))) new /\
          requested flaky_world (files_seen flaky_world []) cid
                    (li_path (snd kv)) new)
  /\ fst (main flaky_world (Some good_config) demo_base (Some two_dirs_tree))
     = 0%Z.
Proof.
  destruct flaky_world_healthy as (H1 & H2 & H3).
  split.
  - apply (proj1 (failed_uploads_do_not_stop_run flaky_world)).
  - apply (proj2 (failed_uploads_do_not_stop_run flaky_world) demo_base _
             two_dirs_files good_config []); try assumption; reflexivity.
Defined.

Example flaky_run_trace :
  snd (sync_knowledge flaky_world demo_base two_dirs_tree []) =
  [ EListFiles; EListCollections;
    ECreateCollection "Alpha" "Auto-created by sync script from alpha";
    EGetCollection (JStr "c-Alpha");
    ESyncFile (JStr "c-Alpha") "/kb/alpha/a.txt";
    EUpload "/kb/alpha/a.txt";
    ECreateCollection "Beta" "Auto-created by sync script from beta";
    EGetCollection (JStr "c-Beta");
    ESyncFile (JStr "c-Beta") "/kb/beta/b.txt";
    EUpload "/kb/beta/b.txt";
    EAttach (JStr "c-Beta") (JStr "f-b.txt") ].
Proof. vm_compute. reflexivity. Qed.

Lemma root_file_scanned_never_synced_witness :
  (exists info,
      In ("readme.md", info)
         [ ("readme.md", mkLocal "/kb/readme.md" "h0");
           ("docs/a.txt", mkLocal "/kb/docs/a.txt" "h1") ] /\
      li_path info = path_str (path_div demo_base "readme.md"))
  /\ (forall dname info,
         ~ In ("readme.md", info)
              (select_local_files (dname ++ "/")
                 [ ("readme.md", mkLocal "/kb/readme.md" "h0");
                   ("docs/a.txt", mkLocal "/kb/docs/a.txt" "h1") ]))
  /\ exists new,
       snd (sync_knowledge demo_world demo_base
              (Dir true
                 [ ("readme.md", File true 7 "h0");
                   ("docs", Dir true [("a.txt", File true 3 "h1")]) ]) [])
       = [] ++ new /\
       (forall cid,
           ~ In (ESyncFile cid (path_str (path_div demo_base "readme.md"))) new) /\
       (listed_ids_not_local demo_world ->
        ~ In (EUpload (path_str (path_div demo_base "readme.md"))) new).
Proof.
  apply (root_file_scanned_never_synced demo_world demo_base
           [ ("readme.md", File true 7 "h0");
             ("docs", Dir true [("a.txt", File true 3 "h1")]) ]
           "readme.md" (File true 7 "h0")).
  - left. reflexivity.
  - reflexivity.
  - reflexivity.
  - reflexivity.
  - reflexivity.
Defined.

(** C9, as stated, fails: when the remote listing holds a file named
    [a.txt] whose id is the path of the root file [/kb/readme.md], the
    sync of [docs/a.txt] takes that id for a path, and the run uploads
    the root file and attaches it to the collection [Docs]. *)
Lemma listed_path_id_uploads_root_file :
  PyStr.contains "readme.md" "/" = false
  /\ is_supported_file (path_div demo_base "readme.md")
                       (st_size (File true 7 "h0")) = Ok true
  /\ path_str (path_div demo_base "readme.md") = "/kb/readme.md"
  /\ get_local_files demo_base root_file_tree
     = Ok [ ("readme.md", mkLocal "/kb/readme.md" "h0");
            ("docs/a.txt", mkLocal "/kb/docs/a.txt" "h1") ]
  /\ sync_knowledge root_id_world demo_base root_file_tree []
     = (Ok tt,
        [ EListFiles; EListCollections;
          ECreateCollection "Docs" "Auto-created by sync script from docs";
          EGetCollection (JStr "c-Docs");
          ESyncFile (JStr "c-Docs") "/kb/docs/a.txt";
          EUpload "/kb/readme.md";
          EAttach (JStr "c-Docs") (JStr "f-readme.md") ])
  /\ In (EUpload (path_str (path_div demo_base "readme.md")))
        (snd (sync_knowledge root_id_world demo_base root_file_tree [])).
Proof.
  split; [reflexivity | ]. split; [reflexivity | ]. split; [reflexivity | ].
  split; [reflexivity | ]. split; [vm_compute; reflexivity | ].
  vm_compute. do 5 right. now left.
Qed.

(* ----------------------------------------------------------------- *)
(** ** Running the reconciler twice *)


Lemma uploaded_if_unmatched_extensible (w : world) (rf : Py.dict obj) :
  extensible (uploaded_if_unmatched w rf).
Proof.
  intros p a n b H Hnone Hf Ho.
  apply in_or_app. right. apply in_or_app. left. now apply H.
Qed.

Lemma sync_file_uploads_unmatched (w : world) (cid : json) (p : string)
    (rf : Py.dict obj) (h new : list event) :
  snd (sync_file w cid p rf h) = h ++ new -> uploaded_if_unmatched w rf p new.
Proof.
  intros Hs Hnone Hf Ho. rewrite sync_file_unfold in Hs. cbn [snd] in Hs.
  rewrite Hnone in Hs. cbn [attach_argument] in Hs.
  destruct (add_by_path_uploads w cid p (h ++ [ESyncFile cid p]) Hf Ho)
    as [rest Hrest].
  rewrite Hrest, <- app_assoc in Hs. apply app_inv_head in Hs. subst new.
  right. now left.
Qed.



Lemma collections_seen_run (w : world) (h : list event) (rc : Py.dict json)
    (h' : list event) :
  get_remote_collections w (h ++ [EListFiles]) = (Ok rc, h') ->
  collections_seen w h = rc.
Proof. intros H. unfold collections_seen. now rewrite H. Qed.








Example demo_second_run_trace :
  snd (sync_knowledge demo_world demo_base two_dirs_tree two_dirs_first_run) =
  two_dirs_first_run ++
  [ EListFiles; EListCollections;
    EGetCollection (JStr "c-Alpha");
    ESyncFile (JStr "c-Alpha") "/kb/alpha/a.txt";
    EAttach (JStr "c-Alpha") (JStr "f-a.txt");
    EGetCollection (JStr "c-Beta");
    ESyncFile (JStr "c-Beta") "/kb/beta/b.txt";
    EAttach (JStr "c-Beta") (JStr "f-b.txt") ].
Proof. vm_compute. reflexivity. Qed.

(* ----------------------------------------------------------------- *)
(** ** A detail whose ['data'] is null *)

(** C5, on the code.  For a detail answer without ['files'] whose
    ['data'] member is [null], the test ['file_ids' in
    collection_info['data']] raises [TypeError] instead of leaving the
    set empty; the same happens for a ['files'] member that is [null].
    Nothing catches the exception: the run stops at the first
    collection. *)
Theorem null_data_detail_raises :
  collection_file_ids (null_data_detail (JStr "c-Alpha")) = Raise TypeError
  /\ collection_file_ids (JDict [("id", JStr "c-Alpha"); ("files", JNull)])
     = Raise TypeError
  /\ sync_knowledge null_data_world demo_base two_dirs_tree [] =
       (Raise TypeError,
        [ EListFiles; EListCollections;
          ECreateCollection "Alpha" "Auto-created by sync script from alpha";
          EGetCollection (JStr "c-Alpha") ]).
Proof.
  split; [reflexivity | ]. split; [reflexivity | ].
  vm_compute. reflexivity.
Qed.

(* ================================================================= *)
(** * Further properties *)

(* ----------------------------------------------------------------- *)
(** ** prettify_name *)

Lemma sall_app (P : ascii -> bool) (a b : string) :
  sall P (a ++ b) = sall P a && sall P b.
Proof.
  induction a as [ | c a IH]; simpl; [reflexivity | ].
  now rewrite IH, andb_assoc.
Qed.

Lemma sall_of_list (P : ascii -> bool) (l : list ascii) :
  sall P (string_of_list_ascii l) = forallb P l.
Proof. induction l as [ | c l IH]; simpl; [reflexivity | now rewrite IH]. Qed.

Lemma forallb_rev {A} (P : A -> bool) (l : list A) :
  forallb P (rev l) = forallb P l.
Proof.
  induction l as [ | x l IH]; simpl; [reflexivity | ].
  rewrite forallb_app, IH. simpl. rewrite andb_true_r. apply andb_comm.
Qed.

Lemma sall_impl (P Q : ascii -> bool) (s : string) :
  (forall c, P c = true -> Q c = true) -> sall P s = true -> sall Q s = true.
Proof.
  intros H. induction s as [ | c s IH]; simpl; [reflexivity | ].
  rewrite !andb_true_iff. intros [Hc Hs]. split; [now apply H | now apply IH].
Qed.

Lemma sall_map_chars (P : ascii -> bool) (f : ascii -> ascii) (s : string) :
  sall P (PyStr.map_chars f s) = sall (fun c => P (f c)) s.
Proof. induction s as [ | c s IH]; simpl; [reflexivity | now rewrite IH]. Qed.

Lemma map_chars_id (f : ascii -> ascii) (s : string) :
  sall (fun c => Ascii.eqb (f c) c) s = true -> PyStr.map_chars f s = s.
Proof.
  induction s as [ | c s IH]; simpl; [reflexivity | ].
  rewrite andb_true_iff. intros [Hc Hs]. apply Ascii.eqb_eq in Hc.
  now rewrite Hc, IH.
Qed.

Lemma map_chars_map_chars (f g : ascii -> ascii) (s : string) :
  PyStr.map_chars f (PyStr.map_chars g s) = PyStr.map_chars (fun c => f (g c)) s.
Proof. induction s as [ | c s IH]; simpl; [reflexivity | now rewrite IH]. Qed.

Lemma map_chars_ext (f g : ascii -> ascii) (s : string) :
  (forall c, f c = g c) -> PyStr.map_chars f s = PyStr.map_chars g s.
Proof.
  intros H. induction s as [ | c s IH]; simpl; [reflexivity | ].
  now rewrite H, IH.
Qed.

(** Facts about single characters, checked on all of them. *)
Lemma upper_char_idem (c : ascii) :
  PyStr.upper_char (PyStr.upper_char c) = PyStr.upper_char c.
Proof. destruct c as [[] [] [] [] [] [] [] []]; reflexivity. Qed.

Lemma lower_char_idem (c : ascii) :
  PyStr.lower_char (PyStr.lower_char c) = PyStr.lower_char c.
Proof. destruct c as [[] [] [] [] [] [] [] []]; reflexivity. Qed.

Lemma upper_char_separator (c : ascii) :
  is_separator (PyStr.upper_char c) = is_separator c.
Proof. destruct c as [[] [] [] [] [] [] [] []]; reflexivity. Qed.

Lemma lower_char_separator (c : ascii) :
  is_separator (PyStr.lower_char c) = is_separator c.
Proof. destruct c as [[] [] [] [] [] [] [] []]; reflexivity. Qed.

Lemma replaced_is_space (c : ascii) :
  PyStr.is_space
    ((fun c => if Ascii.eqb c "_" then " "%char else c)
       ((fun c => if Ascii.eqb c "-" then " "%char else c) c))
  = is_separator c.
Proof. destruct c as [[] [] [] [] [] [] [] []]; reflexivity. Qed.

Lemma not_separator_kept (c : ascii) :
  is_separator c = false ->
  (if Ascii.eqb c "_" then " "%char else
     if Ascii.eqb c "-" then " "%char else c) = c
  /\ PyStr.is_space c = false.
Proof. destruct c as [[] [] [] [] [] [] [] []]; simpl; intros H; (discriminate H || now split). Qed.

Lemma split_ws_aux_nil (cur : list ascii) :
  PyStr.split_ws_aux "" cur = flush_word cur [].
Proof. reflexivity. Qed.

Lemma split_ws_aux_cons (c : ascii) (r : string) (cur : list ascii) :
  PyStr.split_ws_aux (String c r) cur =
  if PyStr.is_space c then flush_word cur (PyStr.split_ws_aux r [])
  else PyStr.split_ws_aux r (c :: cur).
Proof. reflexivity. Qed.

Lemma unseparate_spec (c : ascii) :
  PyStr.is_space (unseparate c) = is_separator c
  /\ (is_separator c = false -> unseparate c = c)
  /\ is_separator (unseparate c) = is_separator c
  /\ (PyStr.is_space (unseparate c) = false ->
      is_separator (unseparate c) = false).
Proof.
  destruct c as [[] [] [] [] [] [] [] []]; cbv;
    (repeat split; intros; (reflexivity || discriminate)).
Qed.

Lemma replaced_is_unseparate (name : string) :
  PyStr.replace_char "_" " " (PyStr.replace_char "-" " " name) =
  PyStr.map_chars unseparate name.
Proof.
  unfold PyStr.replace_char. rewrite map_chars_map_chars.
  apply map_chars_ext. intros c. reflexivity.
Qed.

(** The words [split] returns are clean when the text holds no hyphen
    and no underscore. *)
Lemma split_ws_aux_clean (s : string) :
  forall cur,
    sall (fun c => PyStr.is_space c || negb (is_separator c)) s = true ->
    forallb (fun c => negb (is_separator c)) cur = true ->
    Forall (fun w => clean_word w = true) (PyStr.split_ws_aux s cur).
Proof.
  assert (Hflush : forall cur k,
             forallb (fun c => negb (is_separator c)) cur = true ->
             Forall (fun w => clean_word w = true) k ->
             Forall (fun w => clean_word w = true) (flush_word cur k)).
  { intros cur k Hcur Hk. destruct cur as [ | c cur]; [exact Hk | ].
    cbn [flush_word]. constructor; [ | exact Hk].
    unfold clean_word. rewrite sall_of_list, forallb_rev, Hcur, andb_true_r.
    destruct (rev (c :: cur)) eqn:Hrev; [ | reflexivity].
    apply (f_equal (@List.length ascii)) in Hrev.
    rewrite length_rev in Hrev. discriminate. }
  induction s as [ | c r IH]; intros cur Hs Hcur.
  - rewrite split_ws_aux_nil. now apply Hflush.
  - rewrite split_ws_aux_cons. cbn [sall] in Hs.
    apply andb_true_iff in Hs as [Hc Hr].
    destruct (PyStr.is_space c) eqn:Hsp.
    + apply Hflush; [assumption | now apply IH].
    + apply IH; [assumption | ]. cbn [forallb]. simpl in Hc.
      now rewrite Hc, Hcur.
Qed.

Lemma split_ws_aux_word (w rest : string) (cur : list ascii) :
  sall (fun c => negb (is_separator c)) w = true ->
  PyStr.split_ws_aux (w ++ rest) cur =
  PyStr.split_ws_aux rest (rev (list_ascii_of_string w) ++ cur).
Proof.
  revert cur. induction w as [ | c w IH]; intros cur Hw; [reflexivity | ].
  cbn [sall] in Hw. apply andb_true_iff in Hw as [Hc Hw].
  cbn [append]. rewrite split_ws_aux_cons.
  apply negb_true_iff in Hc.
  destruct (not_separator_kept c Hc) as [_ Hsp]. rewrite Hsp.
  rewrite (IH _ Hw). cbn [list_ascii_of_string rev].
  now rewrite <- app_assoc.
Qed.

Lemma flush_whole_word (w : string) (k : list string) :
  w <> "" -> flush_word (rev (list_ascii_of_string w) ++ []) k = w :: k.
Proof.
  intros Hw. rewrite app_nil_r. unfold flush_word.
  destruct (rev (list_ascii_of_string w)) eqn:Hrev.
  - apply (f_equal (@rev ascii)) in Hrev. rewrite rev_involutive in Hrev.
    apply (f_equal string_of_list_ascii) in Hrev.
    rewrite string_of_list_ascii_of_string in Hrev. contradiction.
  - rewrite <- Hrev, rev_involutive, string_of_list_ascii_of_string.
    reflexivity.
Qed.

(** Splitting what [join] made of clean words gives the words back. *)
Lemma split_join_clean (ws : list string) :
  Forall (fun w => clean_word w = true) ws ->
  PyStr.split_ws (PyStr.join " " ws) = ws.
Proof.
  unfold PyStr.split_ws. intros Hws.
  induction Hws as [ | w ws Hw Hrest IH]; [reflexivity | ].
  unfold clean_word in Hw. apply andb_true_iff in Hw as [Hne Hclean].
  apply negb_true_iff, String.eqb_neq in Hne.
  destruct ws as [ | y ws].
  - cbn [PyStr.join]. rewrite <- (sapp_nil_r w) at 1.
    rewrite (split_ws_aux_word _ _ _ Hclean), split_ws_aux_nil.
    now apply flush_whole_word.
  - change (PyStr.join " " (w :: y :: ws))
      with (w ++ String " " (PyStr.join " " (y :: ws)))%string.
    rewrite (split_ws_aux_word _ _ _ Hclean), split_ws_aux_cons.
    cbn [PyStr.is_space]. rewrite IH.
    change (PyStr.is_space " ") with true. cbv iota.
    now apply flush_whole_word.
Qed.

Lemma capitalize_clean (w : string) :
  clean_word w = true -> clean_word (PyStr.capitalize w) = true.
Proof.
  unfold clean_word. destruct w as [ | c r]; [discriminate | ].
  cbn [PyStr.capitalize sall]. unfold PyStr.lower.
  rewrite sall_map_chars, upper_char_separator. cbn [String.eqb negb andb].
  intros H. apply andb_true_iff in H as [Hc Hr]. rewrite Hc. cbn [andb].
  erewrite sall_impl; [reflexivity | | exact Hr].
  intros x Hx. now rewrite lower_char_separator.
Qed.

Lemma capitalize_idem (w : string) :
  PyStr.capitalize (PyStr.capitalize w) = PyStr.capitalize w.
Proof.
  destruct w as [ | c r]; [reflexivity | ].
  cbn [PyStr.capitalize]. unfold PyStr.lower.
  rewrite upper_char_idem, map_chars_map_chars. f_equal.
  apply map_chars_ext. apply lower_char_idem.
Qed.

Lemma sall_join (Q : ascii -> bool) (ws : list string) :
  Q " "%char = true ->
  Forall (fun w => sall Q w = true) ws -> sall Q (PyStr.join " " ws) = true.
Proof.
  intros Hsp Hws. induction Hws as [ | w ws Hw Hrest IH]; [reflexivity | ].
  destruct ws as [ | y ws]; [exact Hw | ].
  change (PyStr.join " " (w :: y :: ws))
    with (w ++ String " " (PyStr.join " " (y :: ws)))%string.
  rewrite sall_app. cbn [sall]. now rewrite Hw, Hsp, IH.
Qed.

(** The words of a prettified name. *)
Lemma prettify_words (name : string) :
  exists ws,
    prettify_name name = PyStr.join " " ws /\
    Forall (fun w => clean_word w = true) ws /\
    map PyStr.capitalize ws = ws /\
    (ws = [] <-> sall is_separator name = true).
Proof.
  unfold prettify_name. rewrite replaced_is_unseparate.
  exists (map PyStr.capitalize
            (PyStr.split_ws (PyStr.map_chars unseparate name))).
  assert (Hclean : Forall (fun w => clean_word w = true)
                     (PyStr.split_ws (PyStr.map_chars unseparate name))).
  { apply split_ws_aux_clean; [ | reflexivity].
    rewrite sall_map_chars.
    assert (Hall : forall s, sall (fun c => PyStr.is_space (unseparate c)
                             || negb (is_separator (unseparate c))) s = true).
    { induction s as [ | c s IH]; [reflexivity | ]. cbn [sall]. rewrite IH.
      destruct (unseparate_spec c) as (_ & _ & _ & H4).
      destruct (PyStr.is_space (unseparate c)); [reflexivity | ].
      now rewrite H4. }
    apply Hall. }
  split; [reflexivity | ]. split; [ | split].
  - rewrite Forall_forall in *. intros w Hw.
    apply in_map_iff in Hw as [w0 [<- Hw0]]. apply capitalize_clean.
    now apply Hclean.
  - rewrite map_map. apply map_ext. apply capitalize_idem.
  - clear Hclean. unfold PyStr.split_ws.
    assert (Hnil : forall s cur,
               PyStr.split_ws_aux (PyStr.map_chars unseparate s) cur = [] <->
               cur = [] /\ sall is_separator s = true).
    { induction s as [ | c s IH]; intros cur.
      - cbn [PyStr.map_chars sall]. rewrite split_ws_aux_nil.
        destruct cur; cbn [flush_word]; split; intros H;
          try tauto; try discriminate; destruct H; discriminate.
      - cbn [PyStr.map_chars sall]. rewrite split_ws_aux_cons.
        destruct (unseparate_spec c) as (H1 & _). rewrite H1.
        destruct (is_separator c).
        + destruct cur; cbn [flush_word andb]; [apply IH | ].
          split; intros H; [discriminate | destruct H; discriminate].
        + rewrite IH. cbn [andb]. split; intros H; destruct H; discriminate. }
    specialize (Hnil name []).
    split; intros H.
    + apply map_eq_nil in H. apply Hnil in H. tauto.
    + destruct Hnil as [_ Hn]. rewrite Hn; [reflexivity | now split].
Qed.

Lemma unseparate_join_clean (ws : list string) :
  Forall (fun w => clean_word w = true) ws ->
  PyStr.map_chars unseparate (PyStr.join " " ws) = PyStr.join " " ws.
Proof.
  intros Hws. apply map_chars_id. apply sall_join; [reflexivity | ].
  apply Forall_impl with (2 := Hws). intros w Hw.
  unfold clean_word in Hw. apply andb_true_iff in Hw as [_ Hw].
  apply sall_impl with (2 := Hw). intros c Hc.
  apply negb_true_iff in Hc.
  destruct (unseparate_spec c) as (_ & Hkeep & _).
  rewrite (Hkeep Hc). apply Ascii.eqb_refl.
Qed.

Lemma ascii_char_kept (c : ascii) :
  is_ascii_char c = true ->
  is_ascii_char (PyStr.upper_char c) = true
  /\ is_ascii_char (PyStr.lower_char c) = true
  /\ is_ascii_char (unseparate c) = true.
Proof.
  destruct c as [[] [] [] [] [] [] [] []]; cbv; intros H;
    (discriminate H || now repeat split).
Qed.

Lemma split_ws_aux_sall (P : ascii -> bool) (s : string) :
  forall cur,
    sall P s = true -> forallb P cur = true ->
    Forall (fun w => sall P w = true) (PyStr.split_ws_aux s cur).
Proof.
  assert (Hflush : forall cur k,
             forallb P cur = true ->
             Forall (fun w => sall P w = true) k ->
             Forall (fun w => sall P w = true) (flush_word cur k)).
  { intros cur k Hcur Hk. destruct cur as [ | c cur]; [exact Hk | ].
    cbn [flush_word]. constructor; [ | exact Hk].
    now rewrite sall_of_list, forallb_rev. }
  induction s as [ | c r IH]; intros cur Hs Hcur.
  - rewrite split_ws_aux_nil. now apply Hflush.
  - rewrite split_ws_aux_cons. cbn [sall] in Hs.
    apply andb_true_iff in Hs as [Hc Hr].
    destruct (PyStr.is_space c).
    + apply Hflush; [assumption | now apply IH].
    + apply IH; [assumption | ]. cbn [forallb]. now rewrite Hc, Hcur.
Qed.

Lemma prettify_name_ascii (name : string) :
  is_ascii name = true -> is_ascii (prettify_name name) = true.
Proof.
  unfold is_ascii, prettify_name. intros Hname.
  rewrite replaced_is_unseparate.
  apply sall_join; [reflexivity | ].
  apply Forall_forall. intros word Hword.
  apply in_map_iff in Hword as [w0 [<- Hw0]].
  assert (Hwords : Forall (fun w => sall is_ascii_char w = true)
                     (PyStr.split_ws (PyStr.map_chars unseparate name))).
  { apply split_ws_aux_sall; [ | reflexivity]. rewrite sall_map_chars.
    apply sall_impl with (2 := Hname). intros c Hc.
    now apply ascii_char_kept. }
  rewrite Forall_forall in Hwords. specialize (Hwords w0 Hw0).
  destruct w0 as [ | c r]; [reflexivity | ].
  cbn [PyStr.capitalize sall] in *. unfold PyStr.lower.
  apply andb_true_iff in Hwords as [Hc Hr].
  rewrite sall_map_chars.
  destruct (ascii_char_kept c Hc) as (-> & _). cbn [andb].
  apply sall_impl with (2 := Hr). intros x Hx. now apply ascii_char_kept.
Qed.

(** X1 -- on names of ASCII characters, where this model of
    [str.capitalize] and [str.split] is Python's, [prettify_name] is
    idempotent: its result is again such a name, and a name that is
    already a prettified name is left as it is. *)
Theorem prettify_name_idempotent (name : string) :
  is_ascii name = true ->
  is_ascii (prettify_name name) = true
  /\ prettify_name (prettify_name name) = prettify_name name.
Proof.
  intros Hname. split; [now apply prettify_name_ascii | ].
  destruct (prettify_words name) as (ws & Heq & Hclean & Hcap & _).
  rewrite Heq. unfold prettify_name. rewrite replaced_is_unseparate.
  rewrite (unseparate_join_clean _ Hclean), (split_join_clean _ Hclean).
  now rewrite Hcap.
Qed.

Lemma prettify_name_idempotent_witness :
  is_ascii (prettify_name "my-folder_NAME  x") = true
  /\ prettify_name (prettify_name "my-folder_NAME  x")
     = prettify_name "my-folder_NAME  x".
Proof. apply (prettify_name_idempotent "my-folder_NAME  x"). reflexivity. Defined.

(** X2 -- on names of ASCII characters, [prettify_name] returns the
    empty string exactly for the names made only of hyphens,
    underscores and white space (the empty name among them): such a
    directory gets the empty collection name. *)
Theorem prettify_name_empty_iff (name : string) :
  is_ascii name = true ->
  (prettify_name name = "" <-> sall is_separator name = true).
Proof.
  intros _.
  destruct (prettify_words name) as (ws & Heq & Hclean & _ & Hnil).
  rewrite Heq, <- Hnil. split; intros H; [ | now subst ws].
  destruct Hclean as [ | w ws Hw Hrest]; [reflexivity | exfalso].
  unfold clean_word in Hw. apply andb_true_iff in Hw as [Hne _].
  destruct w as [ | c w]; [discriminate | ].
  destruct ws; discriminate.
Qed.

Lemma prettify_name_empty_iff_witness :
  (prettify_name "-_ -" = "" <-> sall is_separator "-_ -" = true)
  /\ (prettify_name "-a_" = "" <-> sall is_separator "-a_" = true).
Proof.
  split.
  - apply (prettify_name_empty_iff "-_ -"). reflexivity.
  - apply (prettify_name_empty_iff "-a_"). reflexivity.
Defined.

(** X3 -- on names of ASCII characters, a prettified name holds ASCII
    characters only, and among them no hyphen, no underscore and no
    white space other than the single space: every character is a space
    or a character that is no separator. *)
Theorem prettify_name_has_no_separator (name : string) :
  is_ascii name = true ->
  sall (fun c => is_ascii_char c
                 && (Ascii.eqb c " " || negb (is_separator c)))
       (prettify_name name) = true.
Proof.
  intros Hname. pose proof (prettify_name_ascii name Hname) as Hascii.
  unfold is_ascii in Hascii.
  destruct (prettify_words name) as (ws & Heq & Hclean & _).
  assert (Hsep : sall (fun c => Ascii.eqb c " " || negb (is_separator c))
                      (prettify_name name) = true).
  { rewrite Heq. apply sall_join; [reflexivity | ].
    apply Forall_impl with (2 := Hclean). intros w Hw.
    unfold clean_word in Hw. apply andb_true_iff in Hw as [_ Hw].
    apply sall_impl with (2 := Hw). intros c Hc. rewrite Hc.
    apply orb_true_r. }
  revert Hascii Hsep. generalize (prettify_name name). intros s.
  induction s as [ | c s IH]; [reflexivity | ]. cbn [sall].
  rewrite !andb_true_iff. intros [H1 H2] [H3 H4].
  split; [now split | now apply IH].
Qed.

Lemma prettify_name_has_no_separator_witness :
  sall (fun c => is_ascii_char c
                 && (Ascii.eqb c " " || negb (is_separator c)))
       (prettify_name "career-data_2024") = true.
Proof.
  apply (prettify_name_has_no_separator "career-data_2024"). reflexivity.
Defined.

(* ----------------------------------------------------------------- *)
(** ** The local scan: when it fails and what it returns *)

Lemma is_supported_file_by_name (a : string) (pre : list string)
    (filename : string) (stat : result N) :
  is_supported_file (mkPath a (pre ++ [filename])) stat =
  if name_passes filename then
    match stat with
    | Raise e => Raise e
    | Ok sz => Ok (negb (N.eqb sz 0))
    end
  else Ok false.
Proof.
  unfold is_supported_file, name_passes, path_suffix, path_name.
  cbn [parts]. rewrite last_last. cbn [last].
  destruct (PyStr.startswith filename "."); [reflexivity | ].
  cbn [negb andb].
  destruct (in_extensions _); cbn [negb]; [ | reflexivity].
  destruct stat as [sz | e]; [ | reflexivity]. now destruct (N.eqb sz 0).
Qed.

Lemma walk_yields_files (n : node) :
  forall root,
    Forall (fun d => Forall (fun e => is_dir (snd e) = false) (snd d))
           (walk root n).
Proof.
  induction n as [r sz dg | | l es IH] using node_induction; intros root.
  - constructor.
  - constructor.
  - destruct l; [ | constructor]. rewrite walk_listable. constructor.
    + cbn [snd]. apply Forall_forall. intros e He.
      apply filter_In in He as [_ He]. now apply negb_true_iff in He.
    + unfold walk_dirs. clear -IH.
      induction IH as [ | [name c] rest Hc _ IHrest]; [constructor | ].
      cbn [flat_map fst snd]. apply Forall_app. split; [ | exact IHrest].
      destruct (is_dir c); [apply Hc | constructor].
Qed.

Lemma scan_filenames_outcome (d : Path) (root : list string)
    (fs : list (string * node)) :
  Forall (fun e => is_dir (snd e) = false) fs ->
  forall files,
    match scan_filenames d root fs files with
    | Ok _ => existsb stops_scan fs = false
    | Raise e => e = OSError /\ existsb stops_scan fs = true
    end.
Proof.
  induction 1 as [ | [filename n] rest Hn _ IH]; intros files.
  - reflexivity.
  - cbn [scan_filenames existsb]. rewrite app_assoc, is_supported_file_by_name.
    unfold stops_scan at 1 3. cbn [fst snd].
    destruct (name_passes filename); cbn [andb orb].
    + destruct n as [r sz dg | | l es]; cbn [st_size rbind].
      * destruct (N.eqb sz 0); cbn [negb].
        -- rewrite andb_false_r. apply IH.
        -- destruct r; cbn [get_file_hash rbind negb andb orb];
             [apply IH | now split].
      * now split.
      * discriminate Hn.
    + cbn [rbind negb]. apply IH.
Qed.

Lemma scan_dirs_outcome (d : Path)
    (dirs : list (list string * list (string * node))) :
  Forall (fun dr => Forall (fun e => is_dir (snd e) = false) (snd dr)) dirs ->
  forall files,
    match scan_dirs d dirs files with
    | Ok _ => scan_stops dirs = false
    | Raise e => e = OSError /\ scan_stops dirs = true
    end.
Proof.
  induction 1 as [ | [root fs] rest Hfs _ IH]; intros files.
  - reflexivity.
  - cbn [scan_dirs scan_stops existsb snd].
    pose proof (scan_filenames_outcome d root fs Hfs files) as Hout.
    destruct (scan_filenames d root fs files) as [files' | e]; cbn [rbind].
    + rewrite Hout. cbn [orb]. apply IH.
    + destruct Hout as [-> ->]. now split.
Qed.

(** X4 -- the scan of the local tree fails exactly when the walk meets a
    file with a passing name (no leading dot, supported extension) whose
    size cannot be read, or which is not empty and cannot be opened; the
    error is then an [OSError].  Unreadable files with another name, or
    empty ones, do no harm. *)
Theorem get_local_files_fails_exactly (directory : Path) (tree : node) :
  match get_local_files directory tree with
  | Ok _ => scan_stops (walk [] tree) = false
  | Raise e => e = OSError /\ scan_stops (walk [] tree) = true
  end.
Proof.
  unfold get_local_files. apply scan_dirs_outcome. apply walk_yields_files.
Qed.

Lemma scanned_from_mono (d : Path)
    (dirs dirs' : list (list string * list (string * node)))
    (kv : string * local_info) :
  (forall x, In x dirs -> In x dirs') ->
  scanned_from d dirs kv -> scanned_from d dirs' kv.
Proof.
  intros Hsub (root & fs & name & sz & dg & H1 & H).
  exists root, fs, name, sz, dg. split; [now apply Hsub | exact H].
Qed.

Lemma scan_filenames_sound (d : Path) (root : list string)
    (all : list (string * node))
    (dirs : list (list string * list (string * node)))
    (fs : list (string * node)) :
  In (root, all) dirs -> (forall e, In e fs -> In e all) ->
  forall files files',
    scan_filenames d root fs files = Ok files' ->
    Forall (scanned_from d dirs) files -> Forall (scanned_from d dirs) files'.
Proof.
  intros Hroot. induction fs as [ | [filename n] rest IH];
    intros Hsub files files' Hscan Hfiles.
  - cbn [scan_filenames] in Hscan. now injection Hscan as <-.
  - cbn [scan_filenames] in Hscan.
    rewrite app_assoc, is_supported_file_by_name in Hscan.
    assert (Hrest : forall e, In e rest -> In e all)
      by (intros e He; apply Hsub; now right).
    destruct (name_passes filename) eqn:Hname;
      [ | cbn [rbind negb] in Hscan; now apply (IH Hrest _ _ Hscan)].
    destruct (st_size n) as [sz | e] eqn:Hsz; [ | discriminate].
    cbn [rbind] in Hscan.
    destruct (N.eqb sz 0) eqn:Hzero; cbn [negb] in Hscan;
      [now apply (IH Hrest _ _ Hscan) | ].
    destruct n as [r sz' dg | | l es]; try discriminate.
    + destruct r; [ | discriminate]. cbn [get_file_hash rbind] in Hscan.
      apply (IH Hrest _ _ Hscan). apply sdict_set_forall; [ | assumption].
      exists root, all, filename, sz', dg. cbn [st_size] in Hsz.
      injection Hsz as ->. apply N.eqb_neq in Hzero.
      repeat split; try assumption.
      * apply Hsub. now left.
      * cbn [snd]. now rewrite app_assoc.
Qed.

Lemma scan_dirs_sound (d : Path)
    (all dirs : list (list string * list (string * node))) :
  (forall x, In x dirs -> In x all) ->
  forall files files',
    scan_dirs d dirs files = Ok files' ->
    Forall (scanned_from d all) files -> Forall (scanned_from d all) files'.
Proof.
  induction dirs as [ | [root fs] rest IH]; intros Hsub files files' Hscan Hf.
  - cbn [scan_dirs] in Hscan. now injection Hscan as <-.
  - cbn [scan_dirs] in Hscan.
    destruct (scan_filenames d root fs files) as [f1 | e] eqn:H1;
      [ | discriminate].
    cbn [rbind] in Hscan. apply (IH (fun x Hx => Hsub x (or_intror Hx)) _ _ Hscan).
    apply (scan_filenames_sound d root fs all fs) with (files := files);
      [apply Hsub; now left | tauto | assumption | assumption].
Qed.

Lemma scan_dirs_complete (d : Path)
    (dirs : list (list string * list (string * node))) :
  forall files files',
    scan_dirs d dirs files = Ok files' ->
    forall root fs name sz dg,
      In (root, fs) dirs -> In (name, File true sz dg) fs ->
      name_passes name = true -> sz <> 0%N ->
      has_key (path_str (mkPath "" (root ++ [name]))) files'.
Proof.
  induction dirs as [ | [root0 fs0] rest IH];
    intros files files' Hscan root fs name sz dg Hin Hname Hpass Hsz.
  - destruct Hin.
  - cbn [scan_dirs] in Hscan.
    destruct (scan_filenames d root0 fs0 files) as [f1 | e] eqn:H1;
      [ | discriminate].
    cbn [rbind] in Hscan. destruct Hin as [Heq | Hin].
    + injection Heq as -> ->.
      destruct (scan_filenames_invariants _ _ _ _ _ H1) as (_ & _ & A3).
      destruct (scan_dirs_invariants _ _ _ _ Hscan) as (_ & B2).
      apply B2. apply (A3 name (File true sz dg) Hname).
      rewrite app_assoc, is_supported_file_by_name, Hpass. cbn [st_size].
      apply N.eqb_neq in Hsz. now rewrite Hsz.
    + now apply (IH _ _ Hscan root fs name sz dg).
Qed.

(** X5 -- what a successful scan returns: every entry stands for a
    readable, non-empty regular file with a passing name that the walk
    met, keyed by its path relative to the directory and holding its
    full path and digest; and every such file has its key in the
    result.  Files in hidden directories are among them: only the file
    name is tested for a leading dot. *)
Theorem get_local_files_entries_exactly (directory : Path) (tree : node)
    (local_files : local_files_t) :
  get_local_files directory tree = Ok local_files ->
  Forall (scanned_from directory (walk [] tree)) local_files
  /\ (forall root fs name size digest,
        In (root, fs) (walk [] tree) ->
        In (name, File true size digest) fs ->
        name_passes name = true -> size <> 0%N ->
        has_key (path_str (mkPath "" (root ++ [name]))) local_files).
Proof.
  unfold get_local_files. intros Hscan. split.
  - apply (scan_dirs_sound directory (walk [] tree) (walk [] tree)
             (fun x Hx => Hx) [] local_files Hscan). constructor.
  - apply (scan_dirs_complete directory _ _ _ Hscan).
Qed.

Lemma get_local_files_entries_exactly_witness :
  get_local_files demo_base mixed_tree
  = Ok [ ("top.txt", mkLocal "/kb/top.txt" "h5");
         ("docs/a.md", mkLocal "/kb/docs/a.md" "h1") ]
  /\ Forall (scanned_from demo_base (walk [] mixed_tree))
            [ ("top.txt", mkLocal "/kb/top.txt" "h5");
              ("docs/a.md", mkLocal "/kb/docs/a.md" "h1") ].
Proof.
  split; [reflexivity | ].
  apply (get_local_files_entries_exactly demo_base mixed_tree). reflexivity.
Defined.

(* ----------------------------------------------------------------- *)
(** ** The remote snapshots and malformed listings *)

Lemma index_files_breaks (files : list json) :
  existsb breaks_index files = true ->
  forall file_dict, exists e, index_files files file_dict = Raise e.
Proof.
  induction files as [ | file rest IH]; [discriminate | ].
  cbn [existsb]. intros Hbreak file_dict.
  destruct file as [ | b | z | s | l | f];
    try (exists AttributeError; reflexivity).
  cbn [index_files breaks_index] in *.
  destruct (Py.get "id" f) as [file_id | ].
  - destruct (Py.truthy file_id); cbn [andb] in Hbreak.
    + destruct (Py.hashable file_id); cbn [negb orb] in Hbreak.
      * now apply IH.
      * now exists TypeError.
    + now apply IH.
  - now apply IH.
Qed.

(** X6 -- the index of remote files is all or nothing: when the decoded
    listing cannot be iterated, or holds a single element that is no
    object or whose truthy id is a list or an object, [get_remote_files]
    returns the empty index, dropping the good entries too, after its
    one request. *)
Theorem get_remote_files_all_or_nothing (w : world) (h : list event) :
  index_lost (unwrap_list (respond w h EListFiles)) = true ->
  get_remote_files w h = (Ok [], h ++ [EListFiles]).
Proof.
  unfold index_lost, get_remote_files, get_files, request, bind, ret.
  intros Hlost. f_equal. f_equal.
  destruct (Py.iter (unwrap_list (respond w h EListFiles))) as [l | e];
    cbn [rbind]; [ | reflexivity].
  destruct (index_files_breaks l Hlost []) as [e ->]. reflexivity.
Qed.

Lemma get_remote_files_all_or_nothing_witness :
  get_remote_files null_entry_world [] = (Ok [], [EListFiles]).
Proof. apply (get_remote_files_all_or_nothing null_entry_world []). reflexivity. Defined.

Lemma index_collections_stops (good : list json) (bad : json)
    (rest : list json) :
  named bad = false ->
  forall collections,
    index_collections (good ++ bad :: rest) collections =
    index_collections good collections.
Proof.
  intros Hbad. induction good as [ | c good IH]; intros collections.
  - cbn [app index_collections]. unfold named in Hbad.
    destruct (Py.subscript bad "name") as [name | e]; [ | reflexivity].
    now rewrite Hbad.
  - cbn [app index_collections].
    destruct (Py.subscript c "name") as [name | e]; [ | reflexivity].
    destruct (Py.hashable name); [apply IH | reflexivity].
Qed.

(** X7 -- the index of remote collections keeps what was read before the
    first malformed entry: an entry without a usable ['name'] ends the
    loop, the entries before it stay, and whatever the listing holds
    after it is dropped. *)
Theorem get_remote_collections_keeps_prefix (w : world) (h : list event)
    (good : list json) (bad : json) (rest : list json) :
  unwrap_list (respond w h EListCollections) = JList (good ++ bad :: rest) ->
  named bad = false ->
  get_remote_collections w h =
  (Ok (index_collections good []), h ++ [EListCollections]).
Proof.
  unfold get_remote_collections, get_knowledge_collections, request, bind, ret.
  intros -> Hbad. cbn [Py.iter]. now rewrite index_collections_stops.
Qed.

Lemma get_remote_collections_keeps_prefix_witness :
  get_remote_collections null_entry_world [] =
  (Ok [(JStr "Alpha", demo_collection "Alpha")], [EListCollections]).
Proof.
  apply (get_remote_collections_keeps_prefix null_entry_world []
           [demo_collection "Alpha"] JNull [demo_collection "Beta"]);
    reflexivity.
Defined.

Lemma null_entry_world_healthy :
  creates_succeed null_entry_world /\ details_well_formed null_entry_world /\
  listed_collections_have_ids null_entry_world.
Proof.
  split; [ | split].
  - intros h name desc. now eexists.
  - intros h cid. now eexists.
  - intros h rc. unfold get_remote_collections, get_knowledge_collections,
      bind, request, ret.
    cbn [fst null_entry_world respond unwrap_list Py.iter].
    intros [= <-]. repeat constructor. now eexists.
Qed.

(** X8 -- a lost index costs every file an upload: in a run whose file
    listing cannot be turned into an index, every local file of
    every collection directory that can be opened is uploaded again,
    whether or not the service already lists a file of that name. *)
Theorem lost_index_uploads_every_file (w : world) (base : Path)
    (es : list (string * node)) (lf : local_files_t) (h : list event) :
  get_local_files base (Dir true es) = Ok lf ->
  creates_succeed w ->
  details_well_formed w ->
  listed_collections_have_ids w ->
  index_lost (unwrap_list (respond w h EListFiles)) = true ->
  exists new,
    sync_knowledge w base (Dir true es) h = (Ok tt, h ++ new)
    /\ forall dname n kv,
         In (dname, n) es -> is_dir n = true ->
         In kv (select_local_files (dname ++ "/") lf) ->
         isfile w (li_path (snd kv)) = true ->
         can_open w (li_path (snd kv)) = true ->
         In (EUpload (li_path (snd kv))) new.
Proof.
  intros Hlf Hcr Hdet Hlist Hlost.
  destruct (sync_knowledge_unfold w base (Dir true es) lf es h Hlf eq_refl)
    as (rf & rc & Hrf & Hrc & Hrun).
  assert (Hempty : rf = []).
  { revert Hrf. unfold get_remote_files, get_files, request, bind, ret.
    unfold index_lost in Hlost.
    destruct (Py.iter (unwrap_list (respond w h EListFiles))) as [l | e];
      cbn [rbind]; [ | now intros [= <-]].
    destruct (index_files_breaks l Hlost []) as [e ->]. now intros [= <-]. }
  subst rf.
  assert (Hids : have_ids rc).
  { apply (Hlist (h ++ [EListFiles])). now rewrite Hrc. }
  destruct (sync_items_total (fun _ => True) (uploaded_if_unmatched w [])
              w lf [] base es (uploaded_if_unmatched_extensible w [])
              Hcr Hdet (fun _ => I)) with (rc := rc)
              (h := h ++ [EListFiles; EListCollections])
    as (u & n1 & Hitems & _ & _ & Hup).
  { intros cid dname n kv _ _ _. apply sync_file_total.
    - apply sync_file_emits_anything.
    - intros h0 new. apply sync_file_uploads_unmatched. }
  { assumption. }
  { intros; exact I. }
  exists ([EListFiles; EListCollections] ++ n1).
  rewrite Hrun, Hitems, <- app_assoc. destruct u. split; [reflexivity | ].
  intros dname n kv Hin Hd Hkv Hfile Hopen. apply in_or_app. right.
  now apply (Hup dname n kv Hin Hd Hkv).
Qed.

Lemma lost_index_uploads_every_file_witness :
  exists new,
    sync_knowledge null_entry_world demo_base two_dirs_tree [] = (Ok tt, new)
    /\ In (EUpload "/kb/alpha/a.txt") new
    /\ In (EUpload "/kb/beta/b.txt") new.
Proof.
  destruct null_entry_world_healthy as (Hcr & Hdet & Hlist).
  destruct (lost_index_uploads_every_file null_entry_world demo_base
              [ ("alpha", Dir true [("a.txt", File true 3 "h1")]);
                ("beta", Dir true [("b.txt", File true 4 "h2")]) ]
              two_dirs_files [] eq_refl Hcr Hdet Hlist eq_refl)
    as (new & Hrun & Hup).
  exists new. split; [exact Hrun | ]. split.
  - apply (Hup "alpha" (Dir true [("a.txt", File true 3 "h1")])
             ("alpha/a.txt", mkLocal "/kb/alpha/a.txt" "h1"));
      try reflexivity; [now left | now left].
  - apply (Hup "beta" (Dir true [("b.txt", File true 4 "h2")])
             ("beta/b.txt", mkLocal "/kb/beta/b.txt" "h2"));
      try reflexivity; [right; now left | now left].
Defined.

(** X9 -- a truncated collection index costs a creation: in a run whose
    collection listing holds an entry without a usable name, a
    creation is requested for every directory whose collection is not
    among the entries before it, even when the listing names that
    collection further on. *)
Theorem truncated_listing_creates_again (w : world) (base : Path)
    (es : list (string * node)) (lf : local_files_t) (h : list event)
    (good : list json) (bad : json) (rest : list json) :
  get_local_files base (Dir true es) = Ok lf ->
  creates_succeed w ->
  details_well_formed w ->
  listed_collections_have_ids w ->
  unwrap_list (respond w (h ++ [EListFiles]) EListCollections)
  = JList (good ++ bad :: rest) ->
  named bad = false ->
  exists new,
    sync_knowledge w base (Dir true es) h = (Ok tt, h ++ new)
    /\ forall dname n,
         In (dname, n) es -> is_dir n = true ->
         Py.dict_mem (JStr (prettify_name dname)) (index_collections good [])
         = false ->
         exists desc, In (ECreateCollection (prettify_name dname) desc) new.
Proof.
  intros Hlf Hcr Hdet Hlist Hresp Hbad.
  destruct (sync_knowledge_unfold w base (Dir true es) lf es h Hlf eq_refl)
    as (rf & rc & Hrf & Hrc & Hrun).
  assert (Hprefix : rc = index_collections good []).
  { revert Hrc. unfold get_remote_collections, get_knowledge_collections,
      request, bind, ret. rewrite Hresp. cbn [Py.iter].
    rewrite (index_collections_stops good bad rest Hbad). now intros [= <-]. }
  assert (Hids : have_ids rc).
  { apply (Hlist (h ++ [EListFiles])). now rewrite Hrc. }
  destruct (sync_items_total (fun _ => True) (fun _ _ => True)
              w lf rf base es (fun _ _ _ _ _ => I)
              Hcr Hdet (fun _ => I)) with (rc := rc)
              (h := h ++ [EListFiles; EListCollections])
    as (u & n1 & Hitems & _ & Hmade & _).
  { intros cid dname n kv _ _ _. apply sync_file_total.
    - apply sync_file_emits_anything.
    - intros; exact I. }
  { assumption. }
  { intros; exact I. }
  exists ([EListFiles; EListCollections] ++ n1).
  rewrite Hrun, Hitems, <- app_assoc. destruct u. split; [reflexivity | ].
  intros dname n Hin Hd Habsent.
  destruct (Hmade dname n Hin Hd) as [Hm | [desc Hdesc]].
  - rewrite Hprefix in Hm. congruence.
  - exists desc. apply in_or_app. now right.
Qed.

Lemma truncated_listing_creates_again_witness :
  exists new,
    sync_knowledge null_entry_world demo_base two_dirs_tree [] = (Ok tt, new)
    /\ exists desc, In (ECreateCollection "Beta" desc) new.
Proof.
  destruct null_entry_world_healthy as (Hcr & Hdet & Hlist).
  destruct (truncated_listing_creates_again null_entry_world demo_base
              [ ("alpha", Dir true [("a.txt", File true 3 "h1")]);
                ("beta", Dir true [("b.txt", File true 4 "h2")]) ]
              two_dirs_files [] [demo_collection "Alpha"] JNull
              [demo_collection "Beta"] eq_refl Hcr Hdet Hlist eq_refl eq_refl)
    as (new & Hrun & Hmade).
  exists new. split; [exact Hrun | ].
  apply (Hmade "beta" (Dir true [("b.txt", File true 4 "h2")]));
    [right; now left | reflexivity | reflexivity].
Defined.

(* ----------------------------------------------------------------- *)
(** ** add_file_to_knowledge *)

Lemma post_attach_run (w : world) (cid fid : json) (h : list event) :
  post_attach w cid fid h =
  (Ok (match respond w h (EAttach cid fid) with Failed => false | _ => true end),
   h ++ [EAttach cid fid]).
Proof. reflexivity. Qed.

Lemma attach_is_last (w : world) (cid fid : json) (h pre0 : list event) :
  match respond w (h ++ pre0) (EAttach cid fid) with
  | Failed => false
  | _ => true
  end = true <->
  exists pre fid',
    pre0 ++ [EAttach cid fid] = pre ++ [EAttach cid fid'] /\
    respond w (h ++ pre) (EAttach cid fid') <> Failed.
Proof.
  split.
  - intros H. exists pre0, fid. split; [reflexivity | ].
    intros Hf. rewrite Hf in H. discriminate.
  - intros (pre & fid' & Heq & Hne). apply app_inj_tail in Heq as [-> Heq].
    injection Heq as ->.
    destruct (respond w (h ++ pre) (EAttach cid fid')); congruence.
Qed.

Lemma no_attach_at_end (cid : json) (new : list event) :
  new = [] \/ (exists p, new = [EUpload p]) ->
  ~ exists pre fid, new = pre ++ [EAttach cid fid].
Proof.
  intros [-> | [p ->]] (pre & fid & Heq).
  - now apply app_cons_not_nil in Heq.
  - change [EUpload p] with ([] ++ [EUpload p]) in Heq.
    apply app_inj_tail in Heq as [_ Heq]. discriminate.
Qed.

(** X10 -- what one call of [add_file_to_knowledge] does: it sends at
    most two requests; it returns [True] exactly when its last request
    is the attachment and that request did not fail; it uploads only
    the file its argument names, when that is an existing file that can
    be opened; and after an upload an attachment follows exactly when
    the answer to the upload is truthy and holds an ['id'], and it is
    the attachment of that id.  So nothing is attached after an upload
    that failed or returned no id. *)
Theorem add_file_to_knowledge_outcomes (w : world) (cid arg : json)
    (h : list event) :
  exists new,
    snd (add_file_to_knowledge w cid arg h) = h ++ new
    /\ (List.length new <= 2)%nat
    /\ (fst (add_file_to_knowledge w cid arg h) = Ok true <->
        exists pre fid,
          new = pre ++ [EAttach cid fid] /\
          respond w (h ++ pre) (EAttach cid fid) <> Failed)
    /\ (forall p, In (EUpload p) new ->
          arg = JStr p /\ isfile w p = true /\ can_open w p = true)
    /\ (forall p fid,
          In (EUpload p) new ->
          (In (EAttach cid fid) new <->
           Py.truthy (unwrap_dict (respond w h (EUpload p))) = true /\
           Py.contains "id" (unwrap_dict (respond w h (EUpload p))) = Ok true /\
           Py.subscript (unwrap_dict (respond w h (EUpload p))) "id" = Ok fid)).
Proof.
  set (G := fun x : result bool * list event =>
    exists new,
      snd x = h ++ new
      /\ (List.length new <= 2)%nat
      /\ (fst x = Ok true <->
          exists pre fid,
            new = pre ++ [EAttach cid fid] /\
            respond w (h ++ pre) (EAttach cid fid) <> Failed)
      /\ (forall p, In (EUpload p) new ->
            arg = JStr p /\ isfile w p = true /\ can_open w p = true)
      /\ (forall p fid,
            In (EUpload p) new ->
            (In (EAttach cid fid) new <->
             Py.truthy (unwrap_dict (respond w h (EUpload p))) = true /\
             Py.contains "id" (unwrap_dict (respond w h (EUpload p))) = Ok true /\
             Py.subscript (unwrap_dict (respond w h (EUpload p))) "id" = Ok fid))).
  change (G (add_file_to_knowledge w cid arg h)).
  assert (Hdirect : forall a, G (post_attach w cid a h)).
  { intros a. exists [EAttach cid a]. rewrite post_attach_run. cbn [fst snd].
    split; [reflexivity | ]. split; [simpl; lia | ]. split; [ | split].
    - rewrite <- (attach_is_last w cid a h []). cbn [app].
      rewrite app_nil_r. split; [now intros [= ->] | now intros ->].
    - intros p [Hp | []]. discriminate.
    - intros p fid [Hp | []]. discriminate. }
  unfold add_file_to_knowledge.
  destruct arg as [ | b | z | p | l | d]; try apply Hdirect.
  destruct (isfile w p) eqn:Hfile; [ | apply Hdirect].
  unfold upload_file. destruct (can_open w p) eqn:Hopen.
  - set (fd := unwrap_dict (respond w h (EUpload p))).
    assert (Hup : forall q, In (EUpload q) [EUpload p] ->
               JStr p = JStr q /\ isfile w q = true /\ can_open w q = true).
    { intros q [[= <-] | []]. now repeat split. }
    assert (Hone : forall r : result bool,
               r <> Ok true ->
               (forall fid, ~ (Py.truthy fd = true /\
                               Py.contains "id" fd = Ok true /\
                               Py.subscript fd "id" = Ok fid)) ->
               G (r, h ++ [EUpload p])).
    { intros r Hr Hno. exists [EUpload p]. cbn [fst snd].
      split; [reflexivity | ]. split; [simpl; lia | ].
      split; [ | split; [exact Hup | ]].
      - split; [contradiction | ]. intros (pre & fid & Heq & _). exfalso.
        apply (no_attach_at_end cid [EUpload p]);
          [right; now exists p | now exists pre, fid].
      - intros q fid [[= <-] | []]. fold fd. split.
        + intros [H | []]. discriminate.
        + intros H. exfalso. now apply (Hno fid). }
    unfold bind, request, ret, lift. cbv beta iota. fold fd.
    destruct (Py.truthy fd) eqn:Ht; cbn [negb].
    2:{ apply Hone; [discriminate | ]. intros fid (H & _). discriminate. }
    destruct (Py.contains "id" fd) as [has_id | e] eqn:Hc.
    2:{ apply Hone; [discriminate | ]. intros fid (_ & H & _). discriminate. }
    destruct has_id; cbn [negb].
    2:{ apply Hone; [discriminate | ]. intros fid (_ & H & _). discriminate. }
    destruct (Py.subscript fd "id") as [fid | e] eqn:Hs.
    2:{ apply Hone; [discriminate | ]. intros fid (_ & _ & H). discriminate. }
    rewrite post_attach_run.
    exists [EUpload p; EAttach cid fid]. cbn [fst snd].
    split; [now rewrite <- app_assoc | ].
    split; [simpl; lia | ]. split; [ | split].
    + change [EUpload p; EAttach cid fid]
        with ([EUpload p] ++ [EAttach cid fid]).
      rewrite <- (attach_is_last w cid fid h [EUpload p]).
      split; [now intros [= ->] | now intros ->].
    + intros q [[= <-] | [Hq | []]]; [now repeat split | discriminate].
    + intros q fid' [[= <-] | [Hq | []]]; [ | discriminate]. fold fd.
      rewrite Hs. split.
      * intros [H | [[= <-] | []]]; [discriminate | now repeat split].
      * intros (_ & _ & [= <-]). right. now left.
  - unfold ret. exists []. cbn [fst snd]. rewrite app_nil_r.
    split; [reflexivity | ]. split; [simpl; lia | ].
    split; [ | split; [intros q [] | intros q fid []]].
    split; [discriminate | ]. intros (pre & fid & Heq & _).
    now apply app_cons_not_nil in Heq.
Qed.

(** X11 -- an id that is also a path is taken for the path: when the
    remote file matched by name has a non-empty string id that names an existing
    local file which can be opened, [sync_file] uploads the file at that
    path instead of attaching the remote file; the only attachment that
    can follow is of the id the upload returned. *)
Theorem sync_file_uploads_file_named_by_id (w : world) (cid : json)
    (p i : string) (rf : Py.dict obj) (h : list event) :
  find_existing rf (basename p) = Some (JStr i) -> i <> "" ->
  isfile w i = true -> can_open w i = true ->
  exists rest,
    snd (sync_file w cid p rf h) = h ++ ESyncFile cid p :: EUpload i :: rest
    /\ (rest = [] \/
        exists fid,
          rest = [EAttach cid fid] /\
          Py.subscript
            (unwrap_dict (respond w (h ++ [ESyncFile cid p]) (EUpload i)))
            "id" = Ok fid).
Proof.
  intros Hfind Hne Hfile Hopen. rewrite sync_file_unfold, Hfind. cbn [snd].
  assert (Harg : attach_argument (Some (JStr i)) p = JStr i).
  { unfold attach_argument, Py.truthy.
    destruct i as [ | c i]; [contradiction | reflexivity]. }
  rewrite Harg. unfold add_file_to_knowledge, upload_file.
  rewrite Hfile, Hopen. unfold bind, request, ret, lift, post_attach.
  cbv beta iota.
  set (h1 := h ++ [ESyncFile cid p]).
  set (fd := unwrap_dict (respond w h1 (EUpload i))).
  assert (Hh : h1 ++ [EUpload i] = h ++ [ESyncFile cid p; EUpload i]).
  { unfold h1. now rewrite <- app_assoc. }
  assert (Hstop : forall r : result bool,
             exists rest,
               snd (r, h1 ++ [EUpload i])
               = h ++ ESyncFile cid p :: EUpload i :: rest
               /\ (rest = [] \/
                   exists fid,
                     rest = [EAttach cid fid] /\ Py.subscript fd "id" = Ok fid)).
  { intros r. exists []. split; [exact Hh | now left]. }
  destruct (negb (Py.truthy fd)); [apply Hstop | ].
  destruct (Py.contains "id" fd) as [b | e]; [ | apply Hstop].
  destruct (negb b); [apply Hstop | ].
  destruct (Py.subscript fd "id") as [fid | e] eqn:Hid; [ | apply Hstop].
  exists [EAttach cid fid]. unfold bind, request, ret. cbn [snd].
  split; [ | right; now exists fid].
  rewrite Hh, <- app_assoc. reflexivity.
Qed.

Lemma sync_file_uploads_file_named_by_id_witness :
  exists rest,
    snd (sync_file id_is_path_world (JStr "c-1") "/kb/docs/a.txt"
           id_is_path_files [])
    = [] ++ ESyncFile (JStr "c-1") "/kb/docs/a.txt" :: EUpload "notes.txt" :: rest
    /\ (rest = [] \/
        exists fid,
          rest = [EAttach (JStr "c-1") fid] /\
          Py.subscript
            (unwrap_dict (respond id_is_path_world
                            ([] ++ [ESyncFile (JStr "c-1") "/kb/docs/a.txt"])
                            (EUpload "notes.txt")))
            "id" = Ok fid).
Proof.
  apply (sync_file_uploads_file_named_by_id id_is_path_world (JStr "c-1")
           "/kb/docs/a.txt" "notes.txt" id_is_path_files []);
    (reflexivity || discriminate).
Defined.

(* ----------------------------------------------------------------- *)
(** ** The whole run: start-up, listings, creations *)

Lemma main_run (w : world) (c : json) (base : Path) (l : bool)
    (es : list (string * node)) (lf : local_files_t) :
  client_init c = Ok tt ->
  get_local_files base (Dir l es) = Ok lf ->
  exists rf rc,
    main w (Some c) base (Some (Dir l es)) =
    if l then
      match sync_items w es lf rf rc base [EListFiles; EListCollections] with
      | (Ok _, h) => (0%Z, h)
      | (Raise _, h) => (1%Z, h)
      end
    else (1%Z, [EListFiles; EListCollections]).
Proof.
  intros Hc Hlf.
  destruct (get_remote_files_run w []) as [rf Hrf].
  destruct (get_remote_collections_run w ([] ++ [EListFiles])) as [rc Hrc].
  exists rf, rc. unfold main. rewrite Hc. unfold sync_knowledge.
  unfold bind at 1. unfold lift at 1. rewrite Hlf.
  unfold bind at 1. rewrite Hrf. unfold bind at 1. rewrite Hrc.
  unfold bind, lift. destruct l; reflexivity.
Qed.

Lemma main_stops_early (w : world) (config : option json) (base : Path)
    (at_base : option node) :
  main w config base at_base = (1%Z, []) \/
  exists c l es lf,
    config = Some c /\ at_base = Some (Dir l es) /\
    client_init c = Ok tt /\ get_local_files base (Dir l es) = Ok lf.
Proof.
  destruct config as [c | ]; [ | now left]. unfold main.
  destruct (client_init c) as [[] | e] eqn:Hc; [ | now left].
  destruct at_base as [[r sz dg | | l es] | ]; try (now left).
  destruct (get_local_files base (Dir l es)) as [lf | e] eqn:Hlf.
  - right. now exists c, l, es, lf.
  - left. unfold sync_knowledge, bind, lift. now rewrite Hlf.
Qed.

(** X12 -- a base directory that exists but cannot be listed: the scan
    silently finds nothing, the two listings are still requested, and
    only then does the run end with status 1, having created and
    uploaded nothing. *)
Theorem main_unlistable_base_dir (w : world) (c : json) (base : Path)
    (es : list (string * node)) :
  client_init c = Ok tt ->
  main w (Some c) base (Some (Dir false es))
  = (1%Z, [EListFiles; EListCollections]).
Proof.
  intros Hc.
  destruct (main_run w c base false es [] Hc eq_refl) as (rf & rc & Hmain).
  exact Hmain.
Qed.

Lemma main_unlistable_base_dir_witness :
  main demo_world (Some good_config) demo_base
       (Some (Dir false [("alpha", Dir true [("a.txt", File true 3 "h1")])]))
  = (1%Z, [EListFiles; EListCollections]).
Proof.
  apply (main_unlistable_base_dir demo_world good_config demo_base). reflexivity.
Defined.

(** X13 -- a file that stops the scan stops the run before it starts:
    when the walk of the base directory meets such a file, the process
    ends with status 1 without having sent a single request, whatever
    the other directories hold. *)
Theorem main_blocked_scan_sends_nothing (w : world) (config : option json)
    (base : Path) (tree : node) :
  scan_stops (walk [] tree) = true ->
  main w config base (Some tree) = (1%Z, []).
Proof.
  intros Hstop.
  destruct (main_stops_early w config base (Some tree))
    as [Hearly | (c & l & es & lf & _ & Htree & _ & Hlf)]; [exact Hearly | ].
  injection Htree as ->.
  pose proof (scan_dirs_outcome base (walk [] (Dir l es))
                (walk_yields_files (Dir l es) []) []) as Hout.
  unfold get_local_files in Hlf. rewrite Hlf in Hout. congruence.
Qed.

Lemma main_blocked_scan_sends_nothing_witness :
  main demo_world (Some good_config) demo_base (Some blocked_tree) = (1%Z, []).
Proof.
  apply (main_blocked_scan_sends_nothing demo_world (Some good_config)
           demo_base blocked_tree).
  reflexivity.
Defined.

Lemma sync_items_never_lists (w : world) (lf : local_files_t)
    (rf : Py.dict obj) (base : Path) (items : list (string * node))
    (rc : Py.dict json) :
  emits_only (sync_items w items lf rf rc base)
             (fun e => is_listing e = false).
Proof.
  apply sync_items_emits; try reflexivity.
  intros cid dname n kv _ _ _. apply sync_file_emits; reflexivity.
Qed.

(** X14 -- a run asks for each listing once, at its start: the trace of
    [main] is empty, or it begins with the request for the files and the
    request for the collections, in this order, and holds no further
    listing request.  Nothing is created, uploaded or attached before
    both snapshots are taken, and they are never refreshed. *)
Theorem main_lists_once_at_start (w : world) (config : option json)
    (base : Path) (at_base : option node) :
  snd (main w config base at_base) = [] \/
  exists rest,
    snd (main w config base at_base) = EListFiles :: EListCollections :: rest
    /\ Forall (fun e => is_listing e = false) rest.
Proof.
  destruct (main_stops_early w config base at_base)
    as [-> | (c & l & es & lf & -> & -> & Hc & Hlf)]; [now left | right].
  destruct (main_run w c base l es lf Hc Hlf) as (rf & rc & ->).
  destruct l; [ | now exists []].
  destruct (sync_items_never_lists w lf rf base es rc
              [EListFiles; EListCollections]) as (new & Hnew & Hnone).
  exists new. split; [ | exact Hnone].
  destruct (sync_items w es lf rf rc base [EListFiles; EListCollections])
    as [[u | e] h']; cbn [snd] in *; exact Hnew.
Qed.

Lemma created_app (a b : list event) : created (a ++ b) = created a ++ created b.
Proof.
  induction a as [ | e a IH]; [reflexivity | ].
  destruct e; cbn [app created]; rewrite IH; reflexivity.
Qed.

Lemma created_none (new : list event) :
  Forall (fun e => is_create e = false) new -> created new = [].
Proof.
  induction 1 as [ | e new He _ IH]; [reflexivity | ].
  destruct e; try discriminate; exact IH.
Qed.

Lemma sync_existing_creates_nothing (w : world) (name : string)
    (lf : local_files_t) (rf : Py.dict obj) (rc : Py.dict json)
    (base cdir : Path) (h : list event) :
  exists new,
    snd (sync_existing w name lf rf rc base cdir h) = h ++ new
    /\ created new = []
    /\ forall rc', fst (sync_existing w name lf rf rc base cdir h) = Ok rc' ->
                   rc' = rc.
Proof.
  destruct (sync_existing_emits (fun e => is_create e = false) w name lf rf rc
              base cdir (fun _ => eq_refl)) with (h := h) as (new & Hnew & Hnone).
  { intros cid prefix kv _ _. apply sync_file_emits; reflexivity. }
  exists new. split; [exact Hnew | ]. split; [now apply created_none | ].
  unfold sync_existing, bind, lift, ret.
  destruct (Py.dict_get (JStr name) rc) as [c | ]; [ | discriminate].
  destruct (Py.subscript c "id") as [cid | e]; [ | discriminate].
  destruct (get_knowledge_collection w cid h) as [[info | e] h1];
    [ | discriminate].
  destruct (collection_file_ids info) as [ids | e]; [ | discriminate].
  destruct (collection_prefix base cdir) as [prefix | e]; [ | discriminate].
  destruct (for_each _ _ h1) as [[u | e] h2]; [ | discriminate].
  now intros rc' [= <-].
Qed.

Lemma sync_collection_creates (w : world) (name : string)
    (lf : local_files_t) (rf : Py.dict obj) (rc : Py.dict json)
    (base cdir : Path) (h : list event) :
  exists new,
    snd (sync_collection w name lf rf rc base cdir h) = h ++ new
    /\ created new = (if Py.dict_mem (JStr name) rc then [] else [name])
    /\ forall rc',
         fst (sync_collection w name lf rf rc base cdir h) = Ok rc' ->
         Py.dict_mem (JStr name) rc' = true /\
         forall k, Py.dict_mem k rc = true -> Py.dict_mem k rc' = true.
Proof.
  rewrite sync_collection_split. unfold bind.
  destruct (Py.dict_mem (JStr name) rc) eqn:Hmem.
  - rewrite (ensure_collection_present _ _ _ _ _ Hmem).
    destruct (sync_existing_creates_nothing w name lf rf rc base cdir h)
      as (new & Hnew & Hnone & Hsame).
    exists new. split; [exact Hnew | ]. split; [exact Hnone | ].
    intros rc' Hok. apply Hsame in Hok. subst rc'. now split.
  - rewrite (ensure_collection_absent _ _ _ _ _ Hmem).
    set (rc1 := Py.dict_set (JStr name) _ rc).
    set (h1 := h ++ [ECreateCollection name (auto_description cdir)]).
    destruct (sync_existing_creates_nothing w name lf rf rc1 base cdir h1)
      as (new & Hnew & Hnone & Hsame).
    exists (ECreateCollection name (auto_description cdir) :: new).
    split; [ | split].
    + rewrite Hnew. unfold h1. now rewrite <- app_assoc.
    + cbn [created]. now rewrite Hnone.
    + intros rc' Hok. apply Hsame in Hok. subst rc'. split.
      * unfold rc1, Py.dict_mem. now rewrite dict_get_set_same.
      * intros k Hk. unfold rc1. now apply dict_mem_set_mono.
Qed.

Lemma sync_items_creates_once (w : world) (lf : local_files_t)
    (rf : Py.dict obj) (base : Path) (items : list (string * node)) :
  forall rc h,
  exists new,
    snd (sync_items w items lf rf rc base h) = h ++ new
    /\ NoDup (created new)
    /\ forall name, In name (created new) ->
                    Py.dict_mem (JStr name) rc = false.
Proof.
  induction items as [ | [dname n] rest IH]; intros rc h.
  - exists []. cbn [sync_items ret snd]. rewrite app_nil_r.
    split; [reflexivity | ]. split; [constructor | intros name []].
  - cbn [sync_items]. destruct (is_dir n); [ | apply IH].
    unfold bind.
    destruct (sync_collection_creates w (prettify_name dname) lf rf rc base
                (path_div base dname) h) as (new1 & Hnew1 & Hc1 & Hok).
    destruct (sync_collection w (prettify_name dname) lf rf rc base
                (path_div base dname) h) as [[rc' | e] h1]; cbn [fst snd] in *.
    + destruct (Hok rc' eq_refl) as [Hin Hmono].
      destruct (IH rc' h1) as (new2 & Hnew2 & Hnd2 & Hfresh2).
      exists (new1 ++ new2). split; [ | split].
      * rewrite Hnew2, Hnew1. now rewrite app_assoc.
      * rewrite created_app, Hc1.
        destruct (Py.dict_mem (JStr (prettify_name dname)) rc);
          [exact Hnd2 | ].
        cbn [app]. constructor; [ | exact Hnd2].
        intros Hdup. apply Hfresh2 in Hdup. congruence.
      * intros name. rewrite created_app, Hc1. intros Hname.
        apply in_app_or in Hname as [Hname | Hname].
        -- destruct (Py.dict_mem (JStr (prettify_name dname)) rc) eqn:Hm;
             [destruct Hname | ].
           destruct Hname as [<- | []]. exact Hm.
        -- apply Hfresh2 in Hname.
           destruct (Py.dict_mem (JStr name) rc) eqn:Hm; [ | reflexivity].
           apply Hmono in Hm. congruence.
    + exists new1. split; [exact Hnew1 | ]. rewrite Hc1.
      destruct (Py.dict_mem (JStr (prettify_name dname)) rc) eqn:Hm.
      * split; [constructor | intros name []].
      * split; [repeat constructor; intros [] | ].
        intros name [<- | []]. exact Hm.
Qed.

(** X15 -- no collection is created twice in a run: the names of the
    creations requested by [main] are pairwise different, also when
    several directories give the same collection name, in which case
    they share the collection the first of them made. *)
Theorem main_creates_each_name_once (w : world) (config : option json)
    (base : Path) (at_base : option node) :
  NoDup (created (snd (main w config base at_base))).
Proof.
  destruct (main_stops_early w config base at_base)
    as [-> | (c & l & es & lf & -> & -> & Hc & Hlf)]; [constructor | ].
  destruct (main_run w c base l es lf Hc Hlf) as (rf & rc & ->).
  destruct l; [ | constructor].
  destruct (sync_items_creates_once w lf rf base es rc
              [EListFiles; EListCollections]) as (new & Hnew & Hnd & _).
  destruct (sync_items w es lf rf rc base [EListFiles; EListCollections])
    as [[u | e] h']; cbn [snd] in *; subst h'; exact Hnd.
Qed.

Example same_name_run_creates_once :
  created (snd (main demo_world (Some good_config) demo_base
                     (Some same_name_tree))) = ["My Data"].
Proof. reflexivity. Qed.

(* ----------------------------------------------------------------- *)
(** ** The base URL and the domain *)

Lemma after_last_sub_none (sep s : string) :
  PyStr.contains s sep = false -> after_last_sub sep s = None.
Proof.
  induction s as [ | c r IH]; [reflexivity | ].
  cbn [PyStr.contains after_last_sub]. intros H.
  apply orb_false_iff in H as [Hstart Hrest].
  now rewrite (IH Hrest), Hstart.
Qed.

Lemma after_last_sub_prefix (sep a s t : string) :
  after_last_sub sep s = Some t -> after_last_sub sep (a ++ s) = Some t.
Proof.
  intros H. induction a as [ | c a IH]; [exact H | ].
  cbn [append after_last_sub]. now rewrite IH.
Qed.

Lemma strip_scheme_last (scheme t : string) :
  PyStr.contains t "://" = false ->
  strip_scheme (scheme ++ "://" ++ t) = t.
Proof.
  intros H. unfold strip_scheme.
  rewrite (after_last_sub_prefix "://" scheme ("://" ++ t) t); [reflexivity | ].
  cbn [append after_last_sub]. rewrite (after_last_sub_none _ _ H).
  cbn. now destruct t.
Qed.

Lemma no_scheme_after_host (host rest : string) :
  sall (fun c => negb (ends_host c)) host = true ->
  PyStr.contains rest "://" = false ->
  PyStr.contains (host ++ rest) "://" = false.
Proof.
  intros Hhost Hrest. induction host as [ | c host IH]; [exact Hrest | ].
  cbn [sall] in Hhost. apply andb_true_iff in Hhost as [Hc Hhost].
  cbn [append PyStr.contains]. rewrite (IH Hhost), orb_false_r.
  cbn [PyStr.startswith]. unfold ends_host in Hc.
  apply negb_true_iff, orb_false_iff in Hc as [_ Hc].
  now rewrite Ascii.eqb_sym, Hc.
Qed.

Lemma before_first_app (c : ascii) (a t : string) :
  sall (fun x => negb (Ascii.eqb x c)) a = true ->
  before_first c (a ++ t) = (a ++ before_first c t)%string.
Proof.
  induction a as [ | x a IH]; [reflexivity | ].
  cbn [sall append before_first]. intros H.
  apply andb_true_iff in H as [Hx Ha]. apply negb_true_iff in Hx.
  now rewrite Hx, (IH Ha).
Qed.

Lemma before_first_absent (c : ascii) (s : string) :
  sall (fun x => negb (Ascii.eqb x c)) s = true -> before_first c s = s.
Proof.
  intros H. rewrite <- (sapp_nil_r s) at 1.
  rewrite (before_first_app c s "" H). apply sapp_nil_r.
Qed.

Lemma before_first_sall (P : ascii -> bool) (c : ascii) (s : string) :
  sall P s = true -> sall P (before_first c s) = true.
Proof.
  induction s as [ | x s IH]; [reflexivity | ].
  cbn [sall before_first]. intros H. apply andb_true_iff in H as [Hx Hs].
  destruct (Ascii.eqb x c); [reflexivity | ]. cbn [sall].
  now rewrite Hx, (IH Hs).
Qed.

Lemma before_first_free (c : ascii) (s : string) :
  sall (fun x => negb (Ascii.eqb x c)) (before_first c s) = true.
Proof.
  induction s as [ | x s IH]; [reflexivity | ].
  cbn [before_first]. destruct (Ascii.eqb x c) eqn:Hx; [reflexivity | ].
  cbn [sall]. now rewrite Hx, IH.
Qed.

(** X16 -- for a URL of the usual form, a scheme, [://], a host with no
    slash and no colon, then nothing, a port or a path, with no further
    [://], [_extract_domain] returns the host. *)
Theorem extract_domain_of_usual_url (scheme host rest : string) :
  sall (fun c => negb (ends_host c)) host = true ->
  after_host rest = true ->
  PyStr.contains rest "://" = false ->
  _extract_domain (scheme ++ "://" ++ host ++ rest) = host.
Proof.
  intros Hhost Hafter Hrest. unfold _extract_domain.
  rewrite (strip_scheme_last scheme (host ++ rest)
             (no_scheme_after_host host rest Hhost Hrest)).
  assert (Hslash : sall (fun x => negb (Ascii.eqb x "/")) host = true).
  { apply sall_impl with (2 := Hhost). intros c Hc. unfold ends_host in Hc.
    apply negb_true_iff, orb_false_iff in Hc as [Hc _]. now rewrite Hc. }
  assert (Hcolon : sall (fun x => negb (Ascii.eqb x ":")) host = true).
  { apply sall_impl with (2 := Hhost). intros c Hc. unfold ends_host in Hc.
    apply negb_true_iff, orb_false_iff in Hc as [_ Hc]. now rewrite Hc. }
  rewrite (before_first_app "/" host rest Hslash).
  rewrite (before_first_app ":" host _ Hcolon).
  destruct rest as [ | c rest]; [apply sapp_nil_r | ].
  cbn [after_host] in Hafter. unfold ends_host in Hafter.
  cbn [before_first]. destruct (Ascii.eqb c "/") eqn:Hc.
  - apply sapp_nil_r.
  - cbn [orb] in Hafter. cbn [before_first]. rewrite Hafter.
    apply sapp_nil_r.
Qed.

Lemma extract_domain_of_usual_url_witness :
  _extract_domain "https://owui.example.com:8080/api" = "owui.example.com".
Proof.
  apply (extract_domain_of_usual_url "https" "owui.example.com" ":8080/api");
    reflexivity.
Defined.

(** X17 -- whatever the URL, the domain [_extract_domain] returns holds
    no slash and no colon, and extracting the domain of a domain gives
    it back. *)
Theorem extract_domain_is_bare (url : string) :
  sall (fun c => negb (ends_host c)) (_extract_domain url) = true
  /\ _extract_domain (_extract_domain url) = _extract_domain url.
Proof.
  assert (Hbare : sall (fun c => negb (ends_host c)) (_extract_domain url)
                  = true).
  { unfold _extract_domain.
    set (d := before_first "/" (strip_scheme url)).
    pose proof (before_first_sall _ ":" d (before_first_free "/" _)) as Hslash.
    pose proof (before_first_free ":" d) as Hcolon.
    fold d in Hslash. revert Hslash Hcolon.
    generalize (before_first ":" d). intros s.
    induction s as [ | c s IH]; [reflexivity | ]. cbn [sall].
    rewrite !andb_true_iff. intros [H1 H2] [H3 H4]. split; [ | now apply IH].
    unfold ends_host. apply negb_true_iff in H1, H3. now rewrite H1, H3. }
  split; [exact Hbare | ].
  set (d := _extract_domain url) in *.
  assert (Hslash : sall (fun x => negb (Ascii.eqb x "/")) d = true).
  { apply sall_impl with (2 := Hbare). intros c Hc. unfold ends_host in Hc.
    apply negb_true_iff, orb_false_iff in Hc as [Hc _]. now rewrite Hc. }
  assert (Hcolon : sall (fun x => negb (Ascii.eqb x ":")) d = true).
  { apply sall_impl with (2 := Hbare). intros c Hc. unfold ends_host in Hc.
    apply negb_true_iff, orb_false_iff in Hc as [_ Hc]. now rewrite Hc. }
  unfold _extract_domain at 1. unfold strip_scheme.
  rewrite (after_last_sub_none "://" d).
  - now rewrite (before_first_absent "/" d Hslash), (before_first_absent ":" d Hcolon).
  - rewrite <- (sapp_nil_r d). now apply no_scheme_after_host.
Qed.

Lemma rstrip_slashes (s : string) :
  ends_with "/" (rstrip "/" s) = false
  /\ exists n, s = (rstrip "/" s ++ slashes n)%string.
Proof.
  induction s as [ | a r [IHend [n IHn]]]; [split; [reflexivity | now exists O] | ].
  cbn [rstrip]. destruct (rstrip "/" r) as [ | b t] eqn:Hr.
  - cbn [append] in IHn. subst r. destruct (Ascii.eqb a "/") eqn:Ha.
    + apply Ascii.eqb_eq in Ha. subst a. split; [reflexivity | ].
      now exists (S n).
    + split; [cbn [ends_with]; exact Ha | now exists n].
  - split; [exact IHend | ]. exists n. cbn [append]. now rewrite IHn at 1.
Qed.

(** X18 -- the client accepts every non-empty base URL.  What it stores
    as its base URL is the given one when that starts with [http://] or
    [https://], and [https://] followed by the given one otherwise, less
    all the slashes at its end: the stored URL never ends with a slash.
    The domain it stores is extracted from the same text, before the
    slashes are removed. *)
Theorem init_base_url_strips_slashes (base_url : string) :
  base_url <> "" ->
  exists stored n,
    init_base_url base_url
    = Ok (stored,
          _extract_domain
            (if PyStr.startswith base_url "http://"
                || PyStr.startswith base_url "https://"
             then base_url
             else ("https://" ++ base_url)%string))
    /\ ends_with "/" stored = false
    /\ (stored ++ slashes n)%string
       = (if PyStr.startswith base_url "http://"
             || PyStr.startswith base_url "https://"
          then base_url
          else ("https://" ++ base_url)%string).
Proof.
  intros Hne. unfold init_base_url.
  apply String.eqb_neq in Hne. rewrite Hne.
  destruct (PyStr.startswith base_url "http://"
            || PyStr.startswith base_url "https://"); cbn [negb].
  - destruct (rstrip_slashes base_url) as [Hend [n Hn]].
    exists (rstrip "/" base_url), n.
    split; [reflexivity | ]. split; [exact Hend | now rewrite <- Hn].
  - destruct (rstrip_slashes ("https://" ++ base_url)) as [Hend [n Hn]].
    exists (rstrip "/" ("https://" ++ base_url)), n.
    split; [reflexivity | ]. split; [exact Hend | now rewrite <- Hn].
Qed.

Lemma init_base_url_strips_slashes_witness :
  (exists stored n,
      init_base_url "owui.example.com//"
      = Ok (stored, _extract_domain "https://owui.example.com//")
      /\ ends_with "/" stored = false
      /\ (stored ++ slashes n)%string = "https://owui.example.com//")
  /\ (exists stored n,
        init_base_url "http://owui.example.com:8080/"
        = Ok (stored, _extract_domain "http://owui.example.com:8080/")
        /\ ends_with "/" stored = false
        /\ (stored ++ slashes n)%string = "http://owui.example.com:8080/").
Proof.
  split.
  - apply (init_base_url_strips_slashes "owui.example.com//"). discriminate.
  - apply (init_base_url_strips_slashes "http://owui.example.com:8080/").
    discriminate.
Defined.

(* ----------------------------------------------------------------- *)
(** ** The transport: retries and what escapes *)

Lemma store_token_outcome (r : Transport.response) :
  match Transport.store_token r with
  | Ok _ =>
      Z.eqb (Transport.status_code r) 200
      && match Transport.body r with
         | Some token_data => Transport.breaks_token token_data
         | None => false
         end = false
  | Raise e =>
      e = TypeError /\
      Z.eqb (Transport.status_code r) 200
      && match Transport.body r with
         | Some token_data => Transport.breaks_token token_data
         | None => false
         end = true
  end.
Proof.
  unfold Transport.store_token.
  destruct (Z.eqb (Transport.status_code r) 200); [ | reflexivity].
  destruct (Transport.body r) as [j | ]; [ | reflexivity]. cbn [andb].
  destruct j as [ | b | z | s | l | d]; cbn [Py.contains rbind Transport.breaks_token];
    try (split; reflexivity).
  - destruct (PyStr.contains s "token"); cbn [Py.subscript rbind];
      [now split | reflexivity].
  - destruct (existsb _ l); cbn [Py.subscript rbind]; [now split | reflexivity].
  - unfold Py.has_key. cbn [Py.subscript].
    destruct (Py.get "token" d); reflexivity.
Qed.

(** X19 -- one [_make_request] sends the request once or twice, and
    twice only after the two authentication GETs: the exchanges it adds
    are the request alone, the request and the token GET, these and the
    certs GET, or all three followed by the request again.  Without
    both credentials it is the request alone.  A response it returns is
    the answer to the last request sent. *)
Theorem make_request_exchanges (cf_client_id cf_client_secret : json)
    (net : list Transport.wire -> Transport.wire -> option Transport.response)
    (h : list Transport.wire) :
  exists new,
    snd (Transport._make_request cf_client_id cf_client_secret net h) = h ++ new
    /\ (new = [Transport.WRequest]
        \/ new = [Transport.WRequest; Transport.WToken]
        \/ new = [Transport.WRequest; Transport.WToken; Transport.WCerts]
        \/ new = [Transport.WRequest; Transport.WToken; Transport.WCerts;
                  Transport.WRequest])
    /\ (Py.truthy cf_client_id && Py.truthy cf_client_secret = false ->
        new = [Transport.WRequest])
    /\ (forall r,
          fst (Transport._make_request cf_client_id cf_client_secret net h)
          = Transport.Done r ->
          exists pre post,
            new = pre ++ Transport.WRequest :: post /\
            ~ In Transport.WRequest post /\
            net (h ++ pre) Transport.WRequest = Some r).
Proof.
  unfold Transport._make_request.
  destruct (net h Transport.WRequest) as [first | ] eqn:Hfirst.
  2:{ exists [Transport.WRequest]. cbn [fst snd].
      split; [reflexivity | ]. split; [now left | ]. split; [reflexivity | ].
      intros r [=]. }
  unfold Transport._handle_cloudflare_redirect.
  assert (Hone :
    exists new,
      snd (Transport.Done first, h ++ [Transport.WRequest]) = h ++ new
      /\ (new = [Transport.WRequest]
          \/ new = [Transport.WRequest; Transport.WToken]
          \/ new = [Transport.WRequest; Transport.WToken; Transport.WCerts]
          \/ new = [Transport.WRequest; Transport.WToken; Transport.WCerts;
                    Transport.WRequest])
      /\ (Py.truthy cf_client_id && Py.truthy cf_client_secret = false ->
          new = [Transport.WRequest])
      /\ (forall r,
            fst (Transport.Done first, h ++ [Transport.WRequest])
            = Transport.Done r ->
            exists pre post,
              new = pre ++ Transport.WRequest :: post /\
              ~ In Transport.WRequest post /\
              net (h ++ pre) Transport.WRequest = Some r)).
  { exists [Transport.WRequest]. cbn [fst snd].
    split; [reflexivity | ]. split; [now left | ]. split; [reflexivity | ].
    intros r [= <-]. exists [], []. rewrite app_nil_r.
    split; [reflexivity | ]. split; [intros [] | exact Hfirst]. }
  destruct (Transport.is_cloudflare_redirect first); [ | exact Hone].
  unfold Transport._authenticate_cloudflare_access.
  destruct (Py.truthy cf_client_id && Py.truthy cf_client_secret) eqn:Hcred.
  2:{ apply andb_false_iff in Hcred.
      destruct Hcred as [-> | ->]; cbn [negb orb]; [exact Hone | ].
      rewrite orb_true_r. exact Hone. }
  apply andb_true_iff in Hcred as [-> ->]. cbn [negb orb].
  set (h1 := h ++ [Transport.WRequest]).
  assert (Hh2 : h1 ++ [Transport.WToken]
                = h ++ [Transport.WRequest; Transport.WToken]).
  { unfold h1. now rewrite <- app_assoc. }
  assert (Hh3 : h1 ++ [Transport.WToken; Transport.WCerts]
                = h ++ [Transport.WRequest; Transport.WToken; Transport.WCerts]).
  { unfold h1. now rewrite <- app_assoc. }
  destruct (net h1 Transport.WToken) as [token_response | ].
  2:{ exists [Transport.WRequest; Transport.WToken]. cbn [fst snd].
      split; [exact Hh2 | ]. split; [right; now left | ].
      split; [discriminate | ].
      intros r [= <-]. exists [], [Transport.WToken]. rewrite app_nil_r.
      split; [reflexivity | ]. split; [ | exact Hfirst].
      intros [H | []]. discriminate. }
  destruct (Transport.store_token token_response) as [u | e].
  2:{ exists [Transport.WRequest; Transport.WToken]. cbn [fst snd].
      split; [exact Hh2 | ]. split; [right; now left | ].
      split; [discriminate | intros r [=]]. }
  destruct (net (h1 ++ [Transport.WToken]) Transport.WCerts)
    as [certs_response | ].
  2:{ exists [Transport.WRequest; Transport.WToken; Transport.WCerts].
      cbn [fst snd]. split; [exact Hh3 | ]. split; [right; right; now left | ].
      split; [discriminate | ].
      intros r [= <-]. exists [], [Transport.WToken; Transport.WCerts].
      rewrite app_nil_r. split; [reflexivity | ]. split; [ | exact Hfirst].
      intros [H | [H | []]]; discriminate. }
  destruct (Z.eqb (Transport.status_code token_response) 200
            || Z.eqb (Transport.status_code certs_response) 200).
  - exists [Transport.WRequest; Transport.WToken; Transport.WCerts;
            Transport.WRequest].
    assert (Hh4 : (h1 ++ [Transport.WToken; Transport.WCerts])
                  ++ [Transport.WRequest]
                  = h ++ [Transport.WRequest; Transport.WToken;
                          Transport.WCerts; Transport.WRequest]).
    { rewrite Hh3. now rewrite <- app_assoc. }
    destruct (net (h1 ++ [Transport.WToken; Transport.WCerts])
                  Transport.WRequest) as [retried | ] eqn:Hretry;
      cbn [fst snd]; (split; [exact Hh4 | ]);
      (split; [right; right; now right | ]); (split; [discriminate | ]).
    + intros r [= <-].
      exists [Transport.WRequest; Transport.WToken; Transport.WCerts], [].
      split; [reflexivity | ]. split; [intros [] | ].
      rewrite <- Hh3. exact Hretry.
    + intros r [=].
  - exists [Transport.WRequest; Transport.WToken; Transport.WCerts].
    cbn [fst snd]. split; [exact Hh3 | ]. split; [right; right; now left | ].
    split; [discriminate | ].
    intros r [= <-]. exists [], [Transport.WToken; Transport.WCerts].
    rewrite app_nil_r. split; [reflexivity | ]. split; [ | exact Hfirst].
    intros [H | [H | []]]; discriminate.
Qed.

Lemma make_request_outcome (cf_client_id cf_client_secret : json)
    (net : list Transport.wire -> Transport.wire -> option Transport.response)
    (h : list Transport.wire) :
  match fst (Transport._make_request cf_client_id cf_client_secret net h) with
  | Transport.Crash e =>
      e = TypeError /\
      Transport.token_crash cf_client_id cf_client_secret net h = true
  | _ => Transport.token_crash cf_client_id cf_client_secret net h = false
  end.
Proof.
  unfold Transport._make_request, Transport.token_crash.
  destruct (net h Transport.WRequest) as [first | ]; [ | reflexivity].
  unfold Transport._handle_cloudflare_redirect.
  destruct (Transport.is_cloudflare_redirect first); [ | reflexivity].
  unfold Transport._authenticate_cloudflare_access.
  destruct (Py.truthy cf_client_id); [ | reflexivity].
  destruct (Py.truthy cf_client_secret); [ | reflexivity].
  cbn [negb orb andb].
  destruct (net (h ++ [Transport.WRequest]) Transport.WToken)
    as [token_response | ]; [ | reflexivity].
  pose proof (store_token_outcome token_response) as Htoken.
  destruct (Transport.store_token token_response) as [u | e];
    [ | exact Htoken].
  rewrite Htoken.
  destruct (net _ Transport.WCerts) as [certs_response | ]; [ | reflexivity].
  destruct (Z.eqb (Transport.status_code token_response) 200
            || Z.eqb (Transport.status_code certs_response) 200);
    [ | reflexivity].
  now destruct (net _ Transport.WRequest).
Qed.

(** X20 -- what escapes a client method: over this transport
    [get_knowledge_collection] never ends with a [RequestException],
    and it ends with another exception, a [TypeError], exactly when the
    request was redirected to Cloudflare Access, both credentials are
    set, and the token endpoint answered 200 with a JSON body that is no
    object and on which the test for ['token'] fails or holds.  In every
    other case it returns a value. *)
Theorem get_knowledge_collection_escapes (cf_client_id cf_client_secret : json)
    (net : list Transport.wire -> Transport.wire -> option Transport.response)
    (h : list Transport.wire) :
  match fst (Transport.get_knowledge_collection cf_client_id cf_client_secret
               net h) with
  | Transport.Done _ =>
      Transport.token_crash cf_client_id cf_client_secret net h = false
  | Transport.RequestException => False
  | Transport.Crash e =>
      e = TypeError /\
      Transport.token_crash cf_client_id cf_client_secret net h = true
  end.
Proof.
  pose proof (make_request_outcome cf_client_id cf_client_secret net h)
    as Hout.
  unfold Transport.get_knowledge_collection.
  destruct (Transport._make_request cf_client_id cf_client_secret net h)
    as [[r | | e] h']; cbn [fst] in *.
  - now destruct (Transport.is_http_error r).
  - exact Hout.
  - exact Hout.
Qed.

Example redirect_with_number_token :
  Transport.get_knowledge_collection (JStr "id") (JStr "secret")
    Transport.redirecting_net []
  = (Transport.Crash TypeError, [Transport.WRequest; Transport.WToken])
  /\ Transport.get_knowledge_collection JNull JNull
       Transport.redirecting_net []
     = (Transport.Done (JDict []), [Transport.WRequest]).
Proof. split; reflexivity. Qed.

(* ----------------------------------------------------------------- *)
(** ** create_config *)

Lemma get_sdict_set (k k0 : string) (v : json) (d : obj) :
  Py.get k0 (sdict_set k v d) =
  if String.eqb k0 k
  then Some v
  else Py.get k0 d.
Proof.
  induction d as [ | [k' v'] r IH]; cbn [sdict_set Py.get].
  - now destruct (String.eqb k0 k).
  - destruct (String.eqb k k') eqn:Hk; cbn [Py.get].
    + apply String.eqb_eq in Hk. subst k'.
      now destruct (String.eqb k0 k).
    + rewrite IH. destruct (String.eqb k0 k') eqn:H0; [ | reflexivity].
      apply String.eqb_eq in H0. subst k'.
      now rewrite String.eqb_sym, Hk.
Qed.

Lemma sdict_set_keys (k : string) (v : json) (d : obj) :
  Py.has_key k d = true -> map fst (sdict_set k v d) = map fst d.
Proof.
  unfold Py.has_key. induction d as [ | [k' v'] r IH]; [discriminate | ].
  cbn [sdict_set Py.get]. destruct (String.eqb k k'); [reflexivity | ].
  intros H. cbn [map fst]. now rewrite (IH H).
Qed.

Lemma overlay_object (env : string -> option string) (variable key : string)
    (d : obj) :
  overlay env variable key (JDict d) =
  match Py.get key d with
  | Some default =>
      Ok (JDict (sdict_set key
                   (match env variable with
                    | Some v => JStr v
                    | None => default
                    end) d))
  | None => Raise KeyError
  end.
Proof.
  unfold overlay, Py.subscript. now destruct (Py.get key d).
Qed.

(** X21 -- [create_config] succeeds exactly when the template is an
    object that holds all five keys, whatever the environment: a key
    missing from the template makes the script fail even when its
    environment variable is set. *)
Theorem create_config_needs_all_keys (env : string -> option string)
    (template : json) :
  is_ok (create_config env template) =
  match template with
  | JDict d => forallb (fun key => Py.has_key key d) config_keys
  | _ => false
  end.
Proof.
  destruct template as [ | b | z | s | l | d]; try reflexivity.
  unfold create_config, config_keys. cbn [forallb]. unfold Py.has_key.
  rewrite overlay_object.
  destruct (Py.get "base_url" d) as [v1 | ]; [ | reflexivity].
  cbn [rbind andb]. rewrite overlay_object, get_sdict_set. cbn [String.eqb Ascii.eqb Bool.eqb].
  destruct (Py.get "api_key" d) as [v2 | ]; [ | reflexivity].
  cbn [rbind andb]. rewrite overlay_object, !get_sdict_set.
  cbn [String.eqb Ascii.eqb Bool.eqb].
  destruct (Py.get "jwt_token" d) as [v3 | ]; [ | reflexivity].
  cbn [rbind andb]. rewrite overlay_object, !get_sdict_set.
  cbn [String.eqb Ascii.eqb Bool.eqb].
  destruct (Py.get "cf_client_id" d) as [v4 | ]; [ | reflexivity].
  cbn [rbind andb]. rewrite overlay_object, !get_sdict_set.
  cbn [String.eqb Ascii.eqb Bool.eqb].
  destruct (Py.get "cf_client_secret" d) as [v5 | ]; reflexivity.
Qed.

(** X22 -- what [create_config] writes: an object with the keys of the
    template, in the order of the template, in which each of the five
    keys holds the value of its environment variable when that is set
    and the value of the template otherwise; every other key keeps its
    value. *)
Theorem create_config_overlays (env : string -> option string) (d : obj)
    (config : json) :
  create_config env (JDict d) = Ok config ->
  exists d',
    config = JDict d'
    /\ map fst d' = map fst d
    /\ forall key, Py.get key d' = overlaid env d key.
Proof.
  unfold create_config. rewrite overlay_object.
  destruct (Py.get "base_url" d) as [v1 | ] eqn:H1; [ | discriminate].
  cbn [rbind]. rewrite overlay_object, get_sdict_set.
  cbn [String.eqb Ascii.eqb Bool.eqb].
  destruct (Py.get "api_key" d) as [v2 | ] eqn:H2; [ | discriminate].
  cbn [rbind]. rewrite overlay_object, !get_sdict_set.
  cbn [String.eqb Ascii.eqb Bool.eqb].
  destruct (Py.get "jwt_token" d) as [v3 | ] eqn:H3; [ | discriminate].
  cbn [rbind]. rewrite overlay_object, !get_sdict_set.
  cbn [String.eqb Ascii.eqb Bool.eqb].
  destruct (Py.get "cf_client_id" d) as [v4 | ] eqn:H4; [ | discriminate].
  cbn [rbind]. rewrite overlay_object, !get_sdict_set.
  cbn [String.eqb Ascii.eqb Bool.eqb].
  destruct (Py.get "cf_client_secret" d) as [v5 | ] eqn:H5; [ | discriminate].
  intros [= <-]. eexists. split; [reflexivity | ]. split.
  - rewrite !sdict_set_keys; try reflexivity;
      unfold Py.has_key; rewrite ?get_sdict_set;
      cbn [String.eqb Ascii.eqb Bool.eqb];
      rewrite ?H1, ?H2, ?H3, ?H4, ?H5; reflexivity.
  - intros key. rewrite !get_sdict_set. unfold overlaid, variable_of.
    destruct (String.eqb key "cf_client_secret") eqn:E5.
    { apply String.eqb_eq in E5. subst key. cbn [String.eqb Ascii.eqb Bool.eqb].
      rewrite H5. now destruct (env "CF_ACCESS_CLIENT_SECRET"). }
    destruct (String.eqb key "cf_client_id") eqn:E4.
    { apply String.eqb_eq in E4. subst key. cbn [String.eqb Ascii.eqb Bool.eqb].
      rewrite H4. now destruct (env "CF_ACCESS_CLIENT_ID"). }
    destruct (String.eqb key "jwt_token") eqn:E3.
    { apply String.eqb_eq in E3. subst key. cbn [String.eqb Ascii.eqb Bool.eqb].
      rewrite H3. now destruct (env "OWUI_JWT_TOKEN"). }
    destruct (String.eqb key "api_key") eqn:E2.
    { apply String.eqb_eq in E2. subst key. cbn [String.eqb Ascii.eqb Bool.eqb].
      rewrite H2. now destruct (env "OWUI_API_KEY"). }
    destruct (String.eqb key "base_url") eqn:E1; [ | reflexivity].
    apply String.eqb_eq in E1. subst key.
    rewrite H1. now destruct (env "OWUI_BASE_URL").
Qed.

Lemma create_config_overlays_witness :
  exists d',
    JDict [ ("base_url", JStr "owui.example.com");
            ("api_key", JStr "your-api-key");
            ("jwt_token", JStr "your-jwt-token");
            ("cf_client_id", JStr "");
            ("cf_client_secret", JStr "") ] = JDict d'
    /\ map fst d' = map fst demo_template
    /\ forall key, Py.get key d' = overlaid demo_env demo_template key.
Proof.
  apply (create_config_overlays demo_env demo_template). reflexivity.
Defined.

Lemma create_config_object (env : string -> option string) (d : obj)
    (config : json) :
  create_config env (JDict d) = Ok config ->
  exists v1 v2 v3 v4 v5,
    Py.get "base_url" d = Some v1 /\ Py.get "api_key" d = Some v2 /\
    Py.get "jwt_token" d = Some v3 /\
    config =
    JDict
      (sdict_set "cf_client_secret"
         (match env "CF_ACCESS_CLIENT_SECRET" with Some v => JStr v | None => v5 end)
      (sdict_set "cf_client_id"
         (match env "CF_ACCESS_CLIENT_ID" with Some v => JStr v | None => v4 end)
      (sdict_set "jwt_token"
         (match env "OWUI_JWT_TOKEN" with Some v => JStr v | None => v3 end)
      (sdict_set "api_key"
         (match env "OWUI_API_KEY" with Some v => JStr v | None => v2 end)
      (sdict_set "base_url"
         (match env "OWUI_BASE_URL" with Some v => JStr v | None => v1 end)
         d))))).
Proof.
  unfold create_config. rewrite overlay_object.
  destruct (Py.get "base_url" d) as [v1 | ] eqn:H1; [ | discriminate].
  cbn [rbind]. rewrite overlay_object, get_sdict_set.
  cbn [String.eqb Ascii.eqb Bool.eqb].
  destruct (Py.get "api_key" d) as [v2 | ] eqn:H2; [ | discriminate].
  cbn [rbind]. rewrite overlay_object, !get_sdict_set.
  cbn [String.eqb Ascii.eqb Bool.eqb].
  destruct (Py.get "jwt_token" d) as [v3 | ] eqn:H3; [ | discriminate].
  cbn [rbind]. rewrite overlay_object, !get_sdict_set.
  cbn [String.eqb Ascii.eqb Bool.eqb].
  destruct (Py.get "cf_client_id" d) as [v4 | ] eqn:H4; [ | discriminate].
  cbn [rbind]. rewrite overlay_object, !get_sdict_set.
  cbn [String.eqb Ascii.eqb Bool.eqb].
  destruct (Py.get "cf_client_secret" d) as [v5 | ] eqn:H5; [ | discriminate].
  intros [= <-]. now exists v1, v2, v3, v4, v5.
Qed.

(** X23 -- a config written with the base URL taken from a non-empty
    [OWUI_BASE_URL] is one the sync script can start from: the three
    settings [main] reads are there and the client can be built. *)
Theorem created_config_starts_client (env : string -> option string)
    (template config : json) (base_url : string) :
  create_config env template = Ok config ->
  env "OWUI_BASE_URL" = Some base_url -> base_url <> "" ->
  client_init config = Ok tt.
Proof.
  intros Hcreate Henv Hne.
  destruct template as [ | b | z | s | l | d]; try discriminate.
  destruct (create_config_object env d config Hcreate)
    as (v1 & v2 & v3 & v4 & v5 & H1 & H2 & H3 & ->).
  unfold client_init, Py.subscript. rewrite !get_sdict_set.
  cbn [String.eqb Ascii.eqb Bool.eqb rbind]. rewrite Henv.
  cbn [Py.truthy]. apply String.eqb_neq in Hne. now rewrite Hne.
Qed.

Lemma created_config_starts_client_witness :
  client_init (JDict [ ("base_url", JStr "owui.example.com");
                       ("api_key", JStr "your-api-key");
                       ("jwt_token", JStr "your-jwt-token");
                       ("cf_client_id", JStr "");
                       ("cf_client_secret", JStr "") ]) = Ok tt.
Proof.
  apply (created_config_starts_client demo_env (JDict demo_template) _
           "owui.example.com");
    (reflexivity || discriminate).
Defined.

(* ----------------------------------------------------------------- *)
(** ** tests/test_upload *)

Lemma upload_file_run (w : world) (p : string) (h : list event) :
  upload_file w p h =
  if can_open w p
  then (Ok (unwrap_dict (respond w h (EUpload p))), h ++ [EUpload p])
  else (Ok (JDict []), h).
Proof. unfold upload_file. now destruct (can_open w p). Qed.

(** X24 -- the upload test sends at most one request, the upload, and
    it ends with status 0 exactly when the config could be loaded, the
    client could be built, the file exists and can be opened, and the
    service answered the upload with a JSON object that has an ['id'].
    An answer of another JSON type never counts as a success, not even
    a text that contains [id]. *)
Theorem test_upload_succeeds_exactly (w : world) (config : option json)
    (file_path : string) (file_exists : bool) :
  (snd (TestUpload.main w config file_path file_exists) = [] \/
   snd (TestUpload.main w config file_path file_exists) = [EUpload file_path])
  /\ (fst (TestUpload.main w config file_path file_exists) = 0%Z <->
      exists c d,
        config = Some c /\ client_init c = Ok tt /\ file_exists = true /\
        can_open w file_path = true /\
        respond w [] (EUpload file_path) = Body (JDict d) /\
        Py.has_key "id" d = true).
Proof.
  unfold TestUpload.main.
  destruct config as [c | ].
  2:{ split; [now left | ]. split; [discriminate | ].
      intros (c & d & H & _). discriminate. }
  destruct (client_init c) as [[] | e] eqn:Hc.
  2:{ split; [now left | ]. split; [discriminate | ].
      intros (c0 & d & [= <-] & H & _). congruence. }
  destruct file_exists; cbn [negb].
  2:{ split; [now left | ]. split; [discriminate | ].
      intros (c0 & d & _ & _ & H & _). discriminate. }
  rewrite upload_file_run.
  destruct (can_open w file_path) eqn:Hopen.
  2:{ cbn [Py.truthy]. split; [now left | ]. split; [discriminate | ].
      intros (c0 & d & _ & _ & _ & H & _). discriminate. }
  cbn [app].
  assert (Hfail : forall st : Z,
             st = 1%Z ->
             (forall d, respond w [] (EUpload file_path) = Body (JDict d) ->
                        Py.has_key "id" d = false) ->
             (snd (st, [EUpload file_path]) = [] \/
              snd (st, [EUpload file_path]) = [EUpload file_path])
             /\ (fst (st, [EUpload file_path]) = 0%Z <->
                 exists c0 d,
                   Some c = Some c0 /\ client_init c0 = Ok tt /\ true = true /\
                   true = true /\
                   respond w [] (EUpload file_path) = Body (JDict d) /\
                   Py.has_key "id" d = true)).
  { intros st -> Hno. split; [now right | ]. split; [discriminate | ].
    intros (c0 & d & _ & _ & _ & _ & Hr & Hid).
    rewrite (Hno d Hr) in Hid. discriminate. }
  destruct (respond w [] (EUpload file_path)) as [ | | j] eqn:Hr;
    cbn [unwrap_dict].
  - cbn [Py.truthy]. apply Hfail; [reflexivity | discriminate].
  - cbn [Py.truthy]. apply Hfail; [reflexivity | discriminate].
  - destruct j as [ | b | z | s | l | d].
    + apply Hfail; [reflexivity | discriminate].
    + destruct (Py.truthy (JBool b)); apply Hfail;
        (reflexivity || discriminate).
    + destruct (Py.truthy (JNum z)); apply Hfail;
        (reflexivity || discriminate).
    + destruct (Py.truthy (JStr s)); [ | apply Hfail; (reflexivity || discriminate)].
      cbn [Py.contains Py.subscript].
      destruct (PyStr.contains s "id"); apply Hfail;
        (reflexivity || discriminate).
    + destruct (Py.truthy (JList l)); [ | apply Hfail; (reflexivity || discriminate)].
      cbn [Py.contains Py.subscript].
      destruct (existsb _ l); apply Hfail; (reflexivity || discriminate).
    + cbn [Py.contains Py.subscript]. unfold Py.has_key.
      destruct (Py.truthy (JDict d)) eqn:Ht.
      * destruct (Py.get "id" d) as [i | ] eqn:Hid.
        -- split; [now right | ]. split; [ | reflexivity].
           intros _. exists c, d. unfold Py.has_key. rewrite Hid.
           now repeat split.
        -- apply Hfail; [reflexivity | ].
           intros d0 [= <-]. unfold Py.has_key. now rewrite Hid.
      * apply Hfail; [reflexivity | ].
        intros d0 [= <-]. destruct d; [reflexivity | discriminate].
Qed.

(* ----------------------------------------------------------------- *)
(** ** Which local files a collection directory takes *)

Lemma startswith_nil (s : string) : PyStr.startswith s "" = true.
Proof. now destruct s. Qed.

Lemma startswith_name_slash (d s : string) :
  slash_free s = true -> PyStr.startswith s (d ++ "/") = false.
Proof.
  revert s. induction d as [ | c d IH]; intros s Hs.
  - destruct s as [ | a s]; [reflexivity | ].
    cbn [append PyStr.startswith]. unfold slash_free in Hs. cbn [sall] in Hs.
    apply andb_true_iff in Hs as [Ha _]. apply negb_true_iff in Ha.
    now rewrite Ascii.eqb_sym, Ha.
  - destruct s as [ | a s]; [reflexivity | ].
    cbn [append PyStr.startswith]. unfold slash_free in Hs. cbn [sall] in Hs.
    apply andb_true_iff in Hs as [_ Hs]. rewrite (IH s Hs).
    apply andb_false_r.
Qed.

Lemma startswith_first_part (x d t : string) :
  slash_free x = true -> slash_free d = true ->
  PyStr.startswith (x ++ String "/" t) (d ++ "/") = String.eqb x d.
Proof.
  revert d. induction x as [ | a x IH]; intros d Hx Hd.
  - destruct d as [ | c d].
    + cbn [append PyStr.startswith]. now rewrite startswith_nil.
    + cbn [append PyStr.startswith String.eqb].
      unfold slash_free in Hd. cbn [sall] in Hd.
      apply andb_true_iff in Hd as [Hc _]. apply negb_true_iff in Hc.
      now rewrite Hc.
  - unfold slash_free in Hx. cbn [sall] in Hx.
    apply andb_true_iff in Hx as [Ha Hx]. apply negb_true_iff in Ha.
    destruct d as [ | c d].
    + cbn [append PyStr.startswith String.eqb].
      now rewrite Ascii.eqb_sym, Ha.
    + unfold slash_free in Hd. cbn [sall] in Hd.
      apply andb_true_iff in Hd as [_ Hd].
      cbn [append PyStr.startswith String.eqb].
      rewrite (IH d Hx Hd), (Ascii.eqb_sym c a).
      destruct (Ascii.eqb a c); reflexivity.
Qed.

(** X25 -- a collection directory takes the scanned files below it, at
    any depth, and no others: among names without a slash, the entry of
    the file [name] in the directory [root] is selected for the
    directory [dname] exactly when [root] begins with [dname].  So a
    nested file goes to the collection of its top-level directory, and a
    directory never takes the files of another whose name merely begins
    with its own. *)
Theorem selected_iff_below_directory (dname name : string)
    (root : list string) (info : local_info) (local_files : local_files_t) :
  forallb slash_free (dname :: root ++ [name]) = true ->
  (In (path_str (mkPath "" (root ++ [name])), info)
      (select_local_files (dname ++ "/") local_files)
   <->
   In (path_str (mkPath "" (root ++ [name])), info) local_files
   /\ exists rest, root = dname :: rest).
Proof.
  cbn [forallb]. intros Hnames. apply andb_true_iff in Hnames as [Hd Hparts].
  unfold select_local_files. rewrite filter_In. cbn [fst].
  assert (Hkey :
    PyStr.startswith (path_str (mkPath "" (root ++ [name]))) (dname ++ "/")
    = true <-> exists rest, root = dname :: rest).
  { rewrite path_str_rel by (now destruct root).
    destruct root as [ | x rest].
    - cbn [app forallb] in Hparts. apply andb_true_iff in Hparts as [Hn _].
      cbn [app PyStr.join]. rewrite (startswith_name_slash dname name Hn).
      split; [discriminate | intros [rest Hrest]; discriminate].
    - cbn [app forallb] in Hparts. apply andb_true_iff in Hparts as [Hx _].
      assert (Hjoin : exists t, PyStr.join "/" ((x :: rest) ++ [name])
                                = (x ++ String "/" t)%string).
      { destruct rest as [ | y rest]; [now exists name | ].
        eexists. cbn [app PyStr.join append]. reflexivity. }
      destruct Hjoin as [t ->].
      rewrite (startswith_first_part x dname t Hx Hd).
      split.
      + intros Heq. apply String.eqb_eq in Heq. subst x. now exists rest.
      + intros [rest' [= -> _]]. apply String.eqb_refl. }
  rewrite Hkey. reflexivity.
Qed.

Lemma selected_iff_below_directory_witness :
  In (path_str (mkPath "" (["docs"; "deep"] ++ ["a.md"])), mkLocal "/kb/docs/deep/a.md" "h1")
     (select_local_files ("docs" ++ "/")
        [ ("docs/deep/a.md", mkLocal "/kb/docs/deep/a.md" "h1");
          ("docs2/b.md", mkLocal "/kb/docs2/b.md" "h2") ])
  /\ ~ In (path_str (mkPath "" (["docs2"] ++ ["b.md"])), mkLocal "/kb/docs2/b.md" "h2")
       (select_local_files ("docs" ++ "/")
          [ ("docs/deep/a.md", mkLocal "/kb/docs/deep/a.md" "h1");
            ("docs2/b.md", mkLocal "/kb/docs2/b.md" "h2") ]).
Proof.
  split.
  - apply (selected_iff_below_directory "docs" "a.md" ["docs"; "deep"]);
      [reflexivity | ]. split; [now left | now exists ["deep"]].
  - intros Hin.
    apply (selected_iff_below_directory "docs" "b.md" ["docs2"]) in Hin;
      [ | reflexivity].
    destruct Hin as [_ [rest Hrest]]. discriminate.
Defined.

(* ----------------------------------------------------------------- *)
(** ** Creations of a run that is not cut short *)




